(** * Gantt renderer: the timeline grid, the task order, the span layout,
      the access gate and the render handler

    A shallow embedding of the serverless Gantt renderer:

    - [ganttBuilder.js]: [getTimelineRange], the header generators and
      [buildHTML];
    - [authorizer.js]: [authorize];
    - [handler.js]: [render].

    Conventions of the embedding.

    - A JavaScript [Date] is an [option Z]: an instant in milliseconds
      from 1970-01-01T00:00, or [None], the Invalid Date that the parsers
      return on a text they cannot read.  The runtime keeps UTC, as the
      hosting service does, so a calendar day is its day number, an integer
      counting days from 1970-01-01, and starts at the instant [midnight].
      The dates of the grid are midnights and are kept as day numbers.
    - A JavaScript number that holds a fraction is a binary64 float
      ([PrimFloat.float]); a difference of two dates is an [option Z] whose
      [None] is NaN.
    - A task record carries the wire fields after the coercions that the
      code applies to them on every read (unary plus on the completion); the
      facility, the aircraft and the component of a task are strings.  A
      date field has two readers, [parseISO] and the [Date] constructor,
      which need not agree: the record keeps what each makes of the field.
    - A plain object used as a dictionary is the finite map of its own
      properties; a key that names a property every object inherits reads
      that property while the dictionary has no own entry for it.
    - The generated document is kept as a tree, one constructor for each
      element the template writes and one field for each attribute it fills
      in; the style sheet is represented by the rules the properties below
      depend on. *)

From Stdlib Require Import ZArith Floats String Ascii List Bool Lia Permutation Sorted.
From stdpp Require Import base option list gmap strings pretty.
From Equations Require Import Equations.
Import ListNotations.

Local Open Scope string_scope.
Local Open Scope Z_scope.

(** ** Exceptions and results *)

Inductive exn : Type :=
| RangeError (msg : string)
| TypeError (msg : string)
| SyntaxError (msg : string)
| OtherError (msg : string).

Inductive result (A : Type) : Type :=
| Ok (a : A)
| Throw (e : exn).
Arguments Ok {A} a.
Arguments Throw {A} e.

Definition rbind {A B : Type} (r : result A) (k : A -> result B) : result B :=
  match r with
  | Ok a => k a
  | Throw e => Throw e
  end.

Definition is_Ok {A : Type} (r : result A) : Prop :=
  match r with Ok _ => True | Throw _ => False end.

(** ** JavaScript numbers *)

Module JsNumber.

(** Truthiness of a number: NaN, [+0] and [-0] are falsy. *)
Definition truthy (x : float) : bool :=
  negb (PrimFloat.is_nan x || PrimFloat.is_zero x).

(** [x || 0]. *)
Definition or_zero (x : float) : float :=
  if truthy x then x else 0%float.

(** The value of [Math.floor]: an integer, an infinity or NaN. *)
Inductive floorval : Type :=
| FlNaN
| FlInf (negative : bool)
| FlInt (z : Z).

(** The mantissa of a finite number with its sign; the number is this
    integer times [2 ^ e]. *)
Definition signed (s : bool) (m : positive) : Z :=
  if s then Z.neg m else Z.pos m.

Definition floorSF (x : spec_float) : floorval :=
  match x with
  | S754_nan => FlNaN
  | S754_infinity s => FlInf s
  | S754_zero _ => FlInt 0
  | S754_finite s m e =>
      FlInt (if 0 <=? e then signed s m * 2 ^ e else signed s m / 2 ^ (- e))
  end.

Definition Math_floor (x : float) : floorval := floorSF (Prim2SF x).

(** [Number.prototype.toFixed(1)]: the integer [n] for which [n / 10] is
    nearest to the magnitude of [x], the larger one on a tie, printed with one
    digit after the point and the sign of [x] in front.  From [10^21] on,
    [toFixed] hands over to the exponent notation of [ToString], which is not
    printed here: [None]. *)
Definition tenths (m : positive) (e : Z) : Z :=
  if 0 <=? e then 10 * Z.pos m * 2 ^ e
  else (20 * Z.pos m + 2 ^ (- e)) / 2 ^ (- e + 1).

Definition fixed1 (n : Z) : string :=
  pretty (n / 10) +:+ "." +:+ pretty (n mod 10).

Definition toFixed1 (x : float) : option string :=
  match Prim2SF x with
  | S754_nan => Some "NaN"
  | S754_infinity s => Some (if s then "-Infinity" else "Infinity")
  | S754_zero _ => Some "0.0"
  | S754_finite s m e =>
      let n := tenths m e in
      if 10 ^ 22 <=? n then None
      else Some ((if s then "-" else "") +:+ fixed1 n)
  end.

End JsNumber.

(** ** The date library *)

Module DateFns.

(** A [Date]: an instant in milliseconds, or the Invalid Date. *)
Abbreviation date := (option Z) (only parsing).

Definition msPerDay : Z := 86400000.

(** The instant at which a calendar day starts. *)
Definition midnight (day : Z) : Z := day * msPerDay.

(** The calendar day an instant falls on. *)
Definition dayOf (instant : Z) : Z := instant / msPerDay.

(** The date library changed one function between its major versions:
    on an interval whose start is after its end [eachDayOfInterval] raises a
    [RangeError] in version 2 and lists the days backwards from version 3
    on; on an invalid date it raises in version 2 and returns the empty list
    after.  The repository pins no version, so the embedding takes it as a
    parameter. *)
Inductive version : Type := V2 | V3plus.

(** A date field of a task on the wire, by what its two readers make of
    it: a value that is no string (an absent field, a number), with the date
    the [Date] constructor makes of it, or a string, with the date [parseISO]
    reads and the date the [Date] constructor reads. *)
Inductive date_field : Type :=
| no_text (byDate : date)
| text (byParseISO : date) (byDate : date).

(** [new Date(v)]. *)
Definition Date_new (v : date_field) : date :=
  match v with
  | no_text d => d
  | text _ d => d
  end.

(** The date [parseISO] returns, where it returns. *)
Definition parsed (v : date_field) : date :=
  match v with
  | no_text _ => None
  | text d _ => d
  end.

(** [parseISO] splits its argument as a string.  On a value that is no
    string version 2 returns the Invalid Date; from version 3 on the call of
    [split] raises a [TypeError], whose message depends on the value and is
    not kept. *)
Definition parseISO (ver : version) (v : date_field) : result date :=
  match v, ver with
  | no_text _, V3plus => Throw (TypeError "dateString.split")
  | _, _ => Ok (parsed v)
  end.

(** [min] and [max] walk the array with a running result that starts
    undefined; a date replaces the result when the result is undefined, when
    it is beyond the date, or when the date is invalid.  An invalid result
    is never replaced by a valid date, as every comparison with it is false. *)
Definition min_step (res : option date) (d : date) : option date :=
  match res with
  | None => Some d
  | Some r =>
      match r, d with
      | _, None => Some d
      | Some x, Some y => if y <? x then Some d else res
      | None, Some _ => res
      end
  end.

Definition max_step (res : option date) (d : date) : option date :=
  match res with
  | None => Some d
  | Some r =>
      match r, d with
      | _, None => Some d
      | Some x, Some y => if x <? y then Some d else res
      | None, Some _ => res
      end
  end.

Definition min (dates : list date) : date :=
  default None (fold_left min_step dates None).

Definition max (dates : list date) : date :=
  default None (fold_left max_step dates None).

Definition addDays (d : date) (amount : Z) : date :=
  match d with
  | Some x => Some (x + amount * msPerDay)
  | None => None
  end.

(** The loop of [eachDayOfInterval]: push the current day while its
    midnight is not past the end, then step one day. *)
Equations? daysLoop (current endTime : Z) : list Z
  by wf (Z.to_nat (dayOf endTime - current + 1)) lt :=
daysLoop current endTime with Z_le_dec (midnight current) endTime => {
  | left _ := current :: daysLoop (current + 1) endTime;
  | right _ := [] }.
Proof.
  unfold midnight, dayOf, msPerDay in *.
  assert (current <= endTime / 86400000) by (apply Z.div_le_lower_bound; lia).
  lia.
Qed.

(** The loop starts from the day of the start of the interval, at
    midnight.  The result is the list of the days; each stands for the
    [Date] at its midnight. *)
Definition eachDayOfInterval (ver : version) (start end_ : date) : result (list Z) :=
  match ver, start, end_ with
  | V2, Some s, Some e =>
      if s <=? e then Ok (daysLoop (dayOf s) e)
      else Throw (RangeError "Invalid interval")
  | V2, _, _ => Throw (RangeError "Invalid interval")
  | V3plus, Some s, Some e =>
      if e <? s then Ok (rev (daysLoop (dayOf e) s)) else Ok (daysLoop (dayOf s) e)
  | V3plus, _, _ => Ok []
  end.

(** The civil calendar: year, month and day of the month of a day number
    (proleptic Gregorian), as [format] prints them. *)
Definition civil (days : Z) : Z * Z * Z :=
  let z := days + 719468 in
  let era := z / 146097 in
  let doe := z - era * 146097 in
  let yoe := (doe - doe / 1460 + doe / 36524 - doe / 146096) / 365 in
  let doy := doe - (365 * yoe + yoe / 4 - yoe / 100) in
  let mp := (5 * doy + 2) / 153 in
  let d := doy - (153 * mp + 2) / 5 + 1 in
  let m := if mp <? 10 then mp + 3 else mp - 9 in
  let y := yoe + era * 400 + (if m <=? 2 then 1 else 0) in
  (y, m, d).

(** [format(d, 'MMMM yyyy')], as the pair of the year and the month. *)
Definition format_MMMM_yyyy (d : Z) : Z * Z :=
  let '(y, m, _) := civil d in (y, m).

(** [format(d, 'dd')]. *)
Definition format_dd (d : Z) : Z :=
  let '(_, _, dd) := civil d in dd.

(** [isWeekend]: day 0 was a Thursday. *)
Definition isWeekend (d : Z) : bool :=
  let dow := (d + 4) mod 7 in (dow =? 0) || (dow =? 6).

End DateFns.

(** ** ganttBuilder.js *)

Module GanttBuilder.
Import JsNumber DateFns.

(** *** Tasks *)

(** A task record, wire field by wire field.  [Warning] is [None] when the
    field is absent; [PercentComplete] is the number unary plus makes of the
    field (NaN when it is absent or not numeric). *)
Record task : Type := Task {
  Component_Group : string;
  Aircraft : string;
  MRO : string;
  Warning : option string;
  Start_Date : date_field;
  End_Date : date_field;
  PercentComplete : float
}.

(** [Array.prototype.map] with a callback that may raise. *)
Fixpoint Array_map {A B : Type} (f : A -> result B) (l : list A) : result (list B) :=
  match l with
  | [] => Ok []
  | x :: l' =>
      rbind (f x) (fun y => rbind (Array_map f l') (fun ys => Ok (y :: ys)))
  end.

(** [Array.prototype.filter], whose callback also receives the index. *)
Fixpoint filterFrom {A : Type} (f : A -> nat -> bool) (i : nat) (l : list A) : list A :=
  match l with
  | [] => []
  | x :: l' => if f x i then x :: filterFrom f (S i) l' else filterFrom f (S i) l'
  end.

Definition Array_filter {A : Type} (f : A -> nat -> bool) (l : list A) : list A :=
  filterFrom f 0 l.

(** *** The date grid *)

Section Grid.
Variable ver : version.
(** The calendar date of the clock when the builder runs. *)
Variable now : Z.

Definition getTimelineRange (tasks : list task) : result (list Z) :=
  rbind (Array_map (fun t => parseISO ver (Start_Date t)) tasks) (fun startDates =>
  rbind (Array_map (fun t => parseISO ver (End_Date t)) tasks) (fun endDates =>
  rbind (eachDayOfInterval ver (addDays (min startDates) (-3))
           (addDays (max endDates) 3))
    (fun fullRange =>
       Ok (Array_filter (fun d i => (Nat.even i) || (d =? now)) fullRange)))).

(** *** The header generators *)

Definition generateColGroup (range : list Z) : nat := length range.

(** A month band: its column span and its month. *)
Definition month_band : Type := nat * (Z * Z).

Definition ym_eqb (a b : Z * Z) : bool :=
  (fst a =? fst b) && (snd a =? snd b).

Definition month_step (len : nat) (st : list month_band * (Z * Z) * nat)
    (x : nat * Z) : list month_band * (Z * Z) * nat :=
  let '(html, current, span) := st in
  let '(i, d) := x in
  let m := format_MMMM_yyyy d in
  let '(html1, current1, span1) :=
    if ym_eqb m current then (html, current, S span)
    else ((html ++ [(span, current)])%list, m, 1%nat) in
  let html2 :=
    if Nat.eqb i (len - 1) then (html1 ++ [(span1, current1)])%list else html1 in
  (html2, current1, span1).

(** [format] raises a [RangeError] on the undefined first element of an
    empty range. *)
Definition generateMonthHeader (range : list Z) : result (list month_band) :=
  match range with
  | [] => Throw (RangeError "Invalid time value")
  | d0 :: _ =>
      let st := fold_left (month_step (length range))
                  (imap (fun i d => (i, d)) range)
                  ([], format_MMMM_yyyy d0, 0%nat) in
      Ok (fst (fst st))
  end.

Record day_header : Type := DayHeader {
  weekend : bool;
  today_header : bool;
  day_of_month : Z
}.

Definition generateDayHeader (range : list Z) (today : Z) : list day_header :=
  map (fun d => DayHeader (isWeekend d) (d =? today) (format_dd d)) range.

End Grid.

(** *** The order of the tasks *)

(** [a < b] on two dates: false as soon as one is invalid. *)
Definition date_ltb (a b : date) : bool :=
  match a, b with
  | Some x, Some y => x <? y
  | _, _ => false
  end.

(** [a - b] on two dates: NaN as soon as one is invalid. *)
Definition date_sub (a b : date) : option Z :=
  match a, b with
  | Some x, Some y => Some (x - y)
  | _, _ => None
  end.

(** The names of the properties a plain object inherits from
    [Object.prototype]. *)
Definition inheritedNames : list string :=
  ["constructor"; "toString"; "toLocaleString"; "valueOf"; "hasOwnProperty";
   "isPrototypeOf"; "propertyIsEnumerable"; "__proto__"; "__defineGetter__";
   "__defineSetter__"; "__lookupGetter__"; "__lookupSetter__"].

Definition inherited (k : string) : bool := existsb (String.eqb k) inheritedNames.

(** One assignment of the [forEach] that fills a dictionary of earliest
    end dates, [if (!dict[k] || end < dict[k]) dict[k] = end]: the entry is
    written when it is later than the task's end date, and when reading it
    gives undefined.  Under an inherited name the dictionary reads a function
    or an object, which is truthy and compares as NaN: nothing is written. *)
Definition earliest_step (key : task -> string) (m : gmap string date) (t : task)
    : gmap string date :=
  let end_ := Date_new (End_Date t) in
  match m !! key t with
  | Some cur => if date_ltb end_ cur then <[key t := end_]> m else m
  | None => if inherited (key t) then m else <[key t := end_]> m
  end.

(** The two dictionaries after the [forEach]: the first keyed by aircraft,
    the second by facility. *)
Definition earliest (tasks : list task) : gmap string date * gmap string date :=
  fold_left
    (fun st t => (earliest_step Aircraft (fst st) t, earliest_step MRO (snd st) t))
    tasks (∅, ∅).

Definition earliestAc (tasks : list task) : gmap string date := fst (earliest tasks).
Definition earliestMro (tasks : list task) : gmap string date := snd (earliest tasks).

(** Reading a dictionary entry as the operand of a subtraction: without an
    own entry the key reads undefined, or the inherited function or object,
    and each subtracts as NaN. *)
Definition entry (m : gmap string date) (k : string) : date :=
  default None (m !! k).

(** Truthiness of a difference: NaN and zero are falsy. *)
Definition nonzero (v : option Z) : bool :=
  match v with
  | Some z => negb (z =? 0)
  | None => false
  end.

(** The comparator handed to [sort]. *)
Definition compareTasks (eAc eMro : gmap string date) (a b : task) : option Z :=
  let mroDiff := date_sub (entry eMro (MRO a)) (entry eMro (MRO b)) in
  if nonzero mroDiff then mroDiff
  else
    let acDiff := date_sub (entry eAc (Aircraft a)) (entry eAc (Aircraft b)) in
    if nonzero acDiff then acDiff
    else date_sub (Date_new (End_Date a)) (Date_new (End_Date b)).

(** [Array.prototype.sort] is a stable sort; a comparator value that is
    positive puts the second argument first, and a NaN counts as zero.  With
    a consistent comparator every stable sort returns the same array, so the
    embedding takes the insertion sort. *)
Definition positive_cmp (v : option Z) : bool :=
  match v with
  | Some z => 0 <? z
  | None => false
  end.

Fixpoint insertTask {A : Type} (cmp : A -> A -> option Z) (x : A) (l : list A) : list A :=
  match l with
  | [] => [x]
  | y :: l' =>
      if positive_cmp (cmp x y) then y :: insertTask cmp x l' else x :: y :: l'
  end.

Fixpoint Array_sort {A : Type} (cmp : A -> A -> option Z) (l : list A) : list A :=
  match l with
  | [] => []
  | x :: l' => insertTask cmp x (Array_sort cmp l')
  end.

Definition sortTasks (tasks : list task) : list task :=
  Array_sort (compareTasks (earliestAc tasks) (earliestMro tasks)) tasks.

(** *** The body rows *)

(** The severity classes of the style sheet; [no_class] is the empty class
    attribute. *)
Inductive css_class : Type := warning_critical | warning_caution | no_class.

(** The truthiness of a wire string: absent and empty are falsy. *)
Definition truthy_string (w : option string) : bool :=
  match w with
  | Some s => negb (String.eqb s "")
  | None => false
  end.

Definition neq_string (w : option string) (lit : string) : bool :=
  match w with
  | Some s => negb (String.eqb s lit)
  | None => true
  end.

Definition eq_string (w : option string) (lit : string) : bool :=
  match w with
  | Some s => String.eqb s lit
  | None => false
  end.

Definition warnClass (warning : option string) : css_class :=
  if eq_string warning "Work Stoppage" then warning_critical
  else if truthy_string warning && neq_string warning "N/A" then warning_caution
  else no_class.

(** The merged cell of a bar: its column span, the class of the track, the
    variant and the width of the completion bar, and the text of the label
    ([None] where [toFixed] leaves the digits to the exponent notation). *)
Record bar : Type := Bar {
  colspan : nat;
  track_class : css_class;
  complete : bool;
  width : floorval;
  label : option string
}.

Inductive cell : Type :=
| fill_cell (b : bar)
| plain_cell (today_col : bool).

Inductive row : Type :=
| mro_spacer
| mro_header (name : string)
| ac_header (name : string)
| task_row (component : string) (warn_class : css_class) (warn_text : string)
    (cells : list cell).

(** [pct], the completion fraction of a task. *)
Definition pctOf (t : task) : float := or_zero (PercentComplete t).

Definition barOf (span : nat) (warn : css_class) (pct : float) : bar :=
  {| colspan := span;
     track_class := warn;
     complete := (1 <=? pct)%float;
     width := Math_floor (pct * 100)%float;
     label := option_map (fun s => s +:+ "%") (toFixed1 (pct * 100)%float) |}.

(** [d >= start && d <= end] for a grid day, a [Date] at midnight, and the
    two dates of a task. *)
Definition inInterval (start end_ : date) (d : Z) : bool :=
  match start, end_ with
  | Some s, Some e => (s <=? midnight d) && (midnight d <=? e)
  | _, _ => false
  end.

Definition inspect {A : Type} (a : A) : {b : A | a = b} := exist _ a eq_refl.

Section Cells.
Variable range : list Z.
Variable today : Z.
Variables start end_ : date.
Variable warn : css_class.
Variable pct : float.

(** The number of grid days inside the interval of the task. *)
Definition spanOf : nat :=
  length (List.filter (inInterval start end_) range).

(** The inner loop over the grid: column [i], and whether the bar has been
    placed.  Placing the bar moves the index past its span. *)
Equations? cellsFrom (i : nat) (placed : bool) : list cell
  by wf ((if placed then 0 else S (length range)) + (length range - i))%nat lt :=
cellsFrom i placed with inspect (range !! i) => {
  | exist _ None _ := [];
  | exist _ (Some d) _ with inspect (negb placed && inInterval start end_ d) => {
    | exist _ true _ :=
        fill_cell (barOf spanOf warn pct) :: cellsFrom (i + spanOf) true;
    | exist _ false _ :=
        plain_cell (d =? today) :: cellsFrom (S i) placed } }.
Proof.
  - destruct placed; simpl in *; [discriminate | lia].
  - apply lookup_lt_Some in e. destruct placed; lia.
Qed.

End Cells.

(** The cells of the row of a task: the inner loop from the first column,
    with no bar placed yet.  The two calls of [parseISO] return: the rows are
    built after [getTimelineRange] made the same calls and returned. *)
Definition cellsOf (range : list Z) (today : Z) (t : task) : list cell :=
  cellsFrom range today (parsed (Start_Date t)) (parsed (End_Date t))
    (warnClass (Warning t)) (pctOf t) 0 false.

(** [Warning || 'N/A']. *)
Definition warnText (warning : option string) : string :=
  if truthy_string warning then default "" warning else "N/A".

Definition taskRow (range : list Z) (today : Z) (t : task) : row :=
  task_row (Component_Group t) (warnClass (Warning t)) (warnText (Warning t))
    (cellsOf range today t).

(** One turn of the loop over the sorted tasks: the separator rows when the
    facility or the aircraft changes, then the row of the task. *)
Definition row_step (range : list Z) (today : Z)
    (st : list row * string * string) (t : task) : list row * string * string :=
  let '(body, lastMro, lastAc) := st in
  let '(body1, lastMro1, lastAc1) :=
    if negb (String.eqb (MRO t) lastMro) then
      ((body
          ++ (if negb (String.eqb lastMro "") then [mro_spacer] else [])
          ++ [mro_header (MRO t)])%list,
       MRO t, "")
    else (body, lastMro, lastAc) in
  let '(body2, lastAc2) :=
    if negb (String.eqb (Aircraft t) lastAc1) then
      ((body1 ++ [ac_header (Aircraft t)])%list, Aircraft t)
    else (body1, lastAc1) in
  ((body2 ++ [taskRow range today t])%list, lastMro1, lastAc2).

Definition bodyRows (range : list Z) (today : Z) (tasks : list task) : list row :=
  fst (fst (fold_left (row_step range today) tasks ([], "", ""))).

(** *** The style sheet *)

(** The rules of the style sheet that decide how much of a completion bar
    shows: [.track-bar { position: relative; width: 100%; overflow: hidden }]
    makes the track clip what overflows it, and [.completion-bar { position:
    absolute; left: 0 }] lays the completion bar from the left edge of the
    track, its width a percentage of the track. *)
Inductive overflow : Type := overflow_visible | overflow_hidden.

Record track_style : Type := TrackStyle {
  track_width_percent : Z;
  track_overflow : overflow
}.

Definition track_bar_style : track_style :=
  {| track_width_percent := 100; track_overflow := overflow_hidden |}.

(** The share of the track that the completion bar covers on screen, in
    percent.  A width that is no valid length (negative, infinite, NaN) is
    dropped by the style engine and the empty bar collapses; a clipping
    track shows no more than itself. *)
Definition visibleFill (st : track_style) (w : floorval) : Z :=
  match w with
  | FlInt z =>
      if z <? 0 then 0
      else
        match track_overflow st with
        | overflow_hidden => Z.min z (track_width_percent st)
        | overflow_visible => z
        end
  | _ => 0
  end.

(** *** The document *)

Record document : Type := Document {
  track_bar : track_style;
  colgroup : nat;
  month_header : list month_band;
  day_headers : list day_header;
  body : list row
}.

Section Build.
Variable ver : version.
Variable now : Z.

(** [buildHTML] as a function of the contents of the caller's array. *)
Definition buildDocument (tasksRaw : list task) : result document :=
  let tasks := sortTasks tasksRaw in
  rbind (getTimelineRange ver now tasks) (fun range =>
  let rows := bodyRows range now tasks in
  rbind (generateMonthHeader range) (fun months =>
  Ok {| track_bar := track_bar_style;
        colgroup := generateColGroup range;
        month_header := months;
        day_headers := generateDayHeader range now;
        body := rows |})).

End Build.

(** *** The arrays of the heap *)

(** Arrays are mutable and passed by reference: the heap maps a reference
    to the elements of its array.  The task objects themselves are never
    assigned to, so an array holds them as values. *)
Abbreviation ref := positive (only parsing).
Abbreviation heap := (gmap positive (list task)) (only parsing).

(** Computations that read and write the heap and may raise. *)
Definition M (A : Type) : Type := heap -> result A * heap.

Definition ret {A : Type} (a : A) : M A := fun h => (Ok a, h).

Definition bind {A B : Type} (m : M A) (k : A -> M B) : M B :=
  fun h =>
    match m h with
    | (Ok a, h') => k a h'
    | (Throw e, h') => (Throw e, h')
    end.

Definition lift {A : Type} (r : result A) : M A := fun h => (r, h).

Notation "'let*' x ':=' m 'in' k" := (bind m (fun x => k))
  (at level 10, x name, m at level 100, k at level 200).

(** [[...a]]: a fresh array with the elements of [a]. *)
Definition spread (a : ref) : M ref :=
  fun h =>
    match h !! a with
    | Some l => let r := fresh (dom h) in (Ok r, <[r := l]> h)
    | None => (Throw (TypeError "not iterable"), h)
    end.

Definition readArray (a : ref) : M (list task) :=
  fun h =>
    match h !! a with
    | Some l => (Ok l, h)
    | None => (Throw (TypeError "not an array"), h)
    end.

(** [a.sort(cmp)] sorts the array in place. *)
Definition sortInPlace (cmp : task -> task -> option Z) (a : ref) : M unit :=
  fun h =>
    match h !! a with
    | Some l => (Ok tt, <[a := Array_sort cmp l]> h)
    | None => (Throw (TypeError "not an array"), h)
    end.

Section BuildHTML.
Variable ver : version.
Variable now : Z.

Definition buildHTML (tasksRaw : ref) : M document :=
  let* tasks := spread tasksRaw in
  let* elems := readArray tasks in
  let eAc := earliestAc elems in
  let eMro := earliestMro elems in
  let* _ := sortInPlace (compareTasks eAc eMro) tasks in
  let* sorted := readArray tasks in
  let* range := lift (getTimelineRange ver now sorted) in
  let rows := bodyRows range now sorted in
  let* months := lift (generateMonthHeader range) in
  ret {| track_bar := track_bar_style;
         colgroup := generateColGroup range;
         month_header := months;
         day_headers := generateDayHeader range now;
         body := rows |}.

End BuildHTML.

End GanttBuilder.

(** ** authorizer.js *)

Module Authorizer.

(** The request as the gate reads it: its headers, which the hosting layer
    always passes with lower-case names, and the route. *)
Record event : Type := Event {
  headers : gmap string string;
  routeArn : option string
}.

Inductive effect : Type := Allow | Deny.

Record policy : Type := Policy {
  principalId : string;
  Version : string;
  Action : string;
  Effect : effect;
  Resource : string;
  context_user : string
}.

(** [event.routeArn || '*']. *)
Definition resourceOf (ev : event) : string :=
  match routeArn ev with
  | Some s => if String.eqb s "" then "*" else s
  | None => "*"
  end.

(** [AUTH_TOKEN] is the environment variable, [None] when it is not set.
    The header and the variable are compared with [===]: as strings, and
    undefined only equals undefined. *)
Definition authorize (AUTH_TOKEN : option string) (ev : event) : policy :=
  let token := headers ev !! "x-api-key" in
  let expectedToken := AUTH_TOKEN in
  if decide (token = expectedToken) then
    {| principalId := "user";
       Version := "2012-10-17";
       Action := "execute-api:Invoke";
       Effect := Allow;
       Resource := resourceOf ev;
       context_user := "trusted-client" |}
  else
    {| principalId := "user";
       Version := "2012-10-17";
       Action := "execute-api:Invoke";
       Effect := Deny;
       Resource := resourceOf ev;
       context_user := "unauthorized" |}.

End Authorizer.

(** ** handler.js *)

Module Handler.
Import DateFns GanttBuilder.

(** A parsed JSON value; an object is the list of its properties, each key
    once. *)
#[local] Set Warnings "-register-all".
Inductive json : Type :=
| JNull
| JBool (b : bool)
| JNumber (lexeme : string)
| JString (s : string)
| JArray (items : list json)
| JObject (fields : list (string * json)).

Fixpoint assoc (k : string) (fields : list (string * json)) : option json :=
  match fields with
  | [] => None
  | (k', v) :: rest => if String.eqb k k' then Some v else assoc k rest
  end.

(** [body.tasks]: reading a property of [null] raises a [TypeError]; a
    value that is no object, or an object without the key, gives undefined. *)
Definition tasksProperty (body : json) : result (option json) :=
  match body with
  | JNull => Throw (TypeError "Cannot read properties of null")
  | JObject fields => Ok (assoc "tasks" fields)
  | _ => Ok None
  end.

(** [Array.isArray]. *)
Definition isArray (v : option json) : option (list json) :=
  match v with
  | Some (JArray items) => Some items
  | _ => None
  end.

Definition quote : string := String (ascii_of_nat 34) EmptyString.

(** [JSON.stringify({ error: msg })], for a message that needs no
    escaping. *)
Definition stringifyError (msg : string) : string :=
  "{" +:+ quote +:+ "error" +:+ quote +:+ ":" +:+ quote +:+ msg +:+ quote +:+ "}".

(** The body of a response is a text. *)
Inductive payload : Type :=
| Text (s : string).

Record response : Type := Response {
  statusCode : Z;
  content_type : option string;
  body : payload;
  isBase64Encoded : bool
}.

Definition badRequest (msg : string) : response :=
  {| statusCode := 400;
     content_type := None;
     body := Text (stringifyError msg);
     isBase64Encoded := false |}.

(** The request as the handler reads it: [None] is an absent body. *)
Record event : Type := Event { event_body : option string }.

(** [event.body || '{}']. *)
Definition bodyOrDefault (ev : event) : string :=
  match event_body ev with
  | Some s => if String.eqb s "" then "{}" else s
  | None => "{}"
  end.

(** The effects of the handler on the world outside, in the order it
    performs them; [CallBuildHTML] marks the grid and layout computation. *)
Inductive effect : Type :=
| ExecutablePath
| Launch
| NewPage
| CallBuildHTML
| SetContent
| Screenshot
| Close.

Inductive browser_state : Type := NotLaunched | Running | Closed.

Record world : Type := World {
  browser : browser_state;
  trace : list effect
}.

Definition H (A : Type) : Type := world -> result A * world.

Definition hret {A : Type} (a : A) : H A := fun w => (Ok a, w).

Definition hbind {A B : Type} (m : H A) (k : A -> H B) : H B :=
  fun w =>
    match m w with
    | (Ok a, w') => k a w'
    | (Throw e, w') => (Throw e, w')
    end.

Notation "'do' x ':=' m 'in' k" := (hbind m (fun x => k))
  (at level 10, x name, m at level 100, k at level 200).

Definition record (ev : effect) : H unit :=
  fun w => (Ok tt, {| browser := browser w; trace := (trace w ++ [ev])%list |}).

Definition setBrowser (b : browser_state) : H unit :=
  fun w => (Ok tt, {| browser := b; trace := trace w |}).

Definition hlift {A : Type} (r : result A) : H A := fun w => (r, w).

Section Render.
(** [JSON.parse]: [None] when it raises a [SyntaxError]. *)
Variable JSON_parse : string -> option json.
(** The task the builder reads off an element of the array that is not
    [null]. *)
Variable decodeTask : json -> task.
Variable ver : version.
Variable now : Z.
(** The awaited calls that reject, each with its error. *)
Variable rejects : effect -> option exn.
(** The text [screenshot.toString('base64')] returns: the bytes of the
    image in base64 while [page.screenshot] resolves to a [Buffer]
    (puppeteer-core up to 22), the bytes in decimal, joined by commas, once
    it resolves to a [Uint8Array] (from 23 on), whose [toString] takes no
    encoding. *)
Variable screenshotText : string.

(** An awaited call of the Chromium tooling. *)
Definition await (ev : effect) : H unit :=
  do _ := record ev in
  match rejects ev with
  | Some e => hlift (Throw e)
  | None => hret tt
  end.

(** The [try] block: the array of tasks, or the response of the early
    return.  The [catch] answers to whatever was raised inside, a
    [SyntaxError] of the parser or a [TypeError] of the property read. *)
Definition parseTasks (ev : event) : list json + response :=
  match JSON_parse (bodyOrDefault ev) with
  | None => inr (badRequest "Malformed JSON")
  | Some parsed =>
      match tasksProperty parsed with
      | Throw _ => inr (badRequest "Malformed JSON")
      | Ok v =>
          match isArray v with
          | Some items => inl items
          | None => inr (badRequest "Invalid or missing tasks array")
          end
      end
  end.

(** The elements as [buildHTML] reads them: the first read of a field of a
    [null] element raises a [TypeError], before anything else is computed. *)
Fixpoint readTasks (items : list json) : result (list task) :=
  match items with
  | [] => Ok []
  | JNull :: _ => Throw (TypeError "Cannot read properties of null")
  | j :: rest => rbind (readTasks rest) (fun ts => Ok (decodeTask j :: ts))
  end.

Definition render (ev : event) : H response :=
  do _ := await ExecutablePath in
  match parseTasks ev with
  | inr resp => hret resp
  | inl tasks =>
      do _ := await Launch in
      do _ := setBrowser Running in
      do _ := await NewPage in
      do _ := record CallBuildHTML in
      do html := hlift (rbind (readTasks tasks) (buildDocument ver now)) in
      do _ := await SetContent in
      do _ := await Screenshot in
      do _ := await Close in
      do _ := setBrowser Closed in
      hret {| statusCode := 200;
              content_type := Some "image/png";
              body := Text screenshotText;
              isBase64Encoded := true |}
  end.

End Render.

(** The world before a request. *)
Definition idle : world := {| browser := NotLaunched; trace := [] |}.

(** What [JSON.parse] makes of the few texts the examples use; on every
    other text this table raises. *)
Definition parseLiteral (text : string) : option json :=
  if String.eqb text "null" then Some JNull
  else if String.eqb text "{}" then Some (JObject [])
  else if String.eqb text ("{" +:+ quote +:+ "tasks" +:+ quote +:+ ":[]}")
       then Some (JObject [("tasks", JArray [])])
  else None.

End Handler.

(** * The words of the specification, and sample inputs *)

Import JsNumber DateFns GanttBuilder.

(** ** The date grid in the words of the specification *)

(** A date field holds the calendar date [day]: [parseISO] reads it as
    the midnight of that day. *)
Definition calendarDate (v : date_field) (day : Z) : Prop :=
  parsed v = Some (midnight day).

(** Every start and end date of the list parses, as a calendar date. *)
Definition datesParse (tasks : list task) : Prop :=
  Forall (fun t => (exists s, calendarDate (Start_Date t) s) /\
                   (exists e, calendarDate (End_Date t) e)) tasks.

(** [m] is the earliest start date of the list. *)
Definition leastStart (tasks : list task) (m : Z) : Prop :=
  (exists t, In t tasks /\ calendarDate (Start_Date t) m) /\
  (forall t s, In t tasks -> calendarDate (Start_Date t) s -> m <= s).

(** [m] is the latest end date of the list. *)
Definition greatestEnd (tasks : list task) (m : Z) : Prop :=
  (exists t, In t tasks /\ calendarDate (End_Date t) m) /\
  (forall t e, In t tasks -> calendarDate (End_Date t) e -> e <= m).

(** A date field that holds a string. *)
Definition isText (v : date_field) : bool :=
  match v with
  | text _ _ => true
  | no_text _ => false
  end.

(** Every start and end date of the list is a string. *)
Definition datesAreTexts (tasks : list task) : Prop :=
  Forall (fun t => isText (Start_Date t) = true /\ isText (End_Date t) = true) tasks.

(** [parseISO] reads every start and end date of the list as a date, with
    or without a time of day. *)
Definition datesRead (tasks : list task) : Prop :=
  Forall (fun t => is_Some (parsed (Start_Date t)) /\
                   is_Some (parsed (End_Date t))) tasks.

(** [s] is the earliest start instant of the list. *)
Definition earliestStart (tasks : list task) (s : Z) : Prop :=
  (exists t, In t tasks /\ parsed (Start_Date t) = Some s) /\
  (forall t s', In t tasks -> parsed (Start_Date t) = Some s' -> s <= s').

(** [e] is the latest end instant of the list. *)
Definition latestEnd (tasks : list task) (e : Z) : Prop :=
  (exists t, In t tasks /\ parsed (End_Date t) = Some e) /\
  (forall t e', In t tasks -> parsed (End_Date t) = Some e' -> e' <= e).

(** The calendar days of the closed interval from [lo] to [hi], in order. *)
Definition daysOf (lo hi : Z) : list Z :=
  map (fun k => lo + Z.of_nat k) (seq 0 (Z.to_nat (hi - lo + 1))).

(** The sampled grid in the words of the specification: the days of the
    interval whose offset from the lower bound is even, and today. *)
Definition gridOf (lo hi today : Z) : list Z :=
  List.filter (fun d => Z.even (d - lo) || (d =? today)) (daysOf lo hi).

(** ** Sample inputs *)

(** The field of a date given as a calendar date, which both readers take
    for the midnight of the day. *)
Definition onDay (day : Z) : date_field :=
  text (Some (midnight day)) (Some (midnight day)).

(** The task of the first end-to-end scenario: 2025-01-01 to 2025-01-10,
    half done. *)
Definition wheelTask : task :=
  {| Component_Group := "Wheel"; Aircraft := "N100"; MRO := "FacilityA";
     Warning := Some "N/A";
     Start_Date := onDay 20089; End_Date := onDay 20098;
     PercentComplete := 0.5%float |}.

(** A task whose end date is ten days before its start date. *)
Definition backwardsTask : task :=
  {| Component_Group := "Wheel"; Aircraft := "N100"; MRO := "FacilityA";
     Warning := None;
     Start_Date := onDay 10; End_Date := onDay 0;
     PercentComplete := 0%float |}.

(** ** The triage order in the words of the specification *)

(** The [Date] constructor reads every end date of the list. *)
Definition endsParse (tasks : list task) : Prop :=
  Forall (fun t => is_Some (Date_new (End_Date t))) tasks.

(** No facility and no aircraft of the list is called by the name of a
    property that every object inherits. *)
Definition ownNames (tasks : list task) : Prop :=
  Forall (fun t => inherited (MRO t) = false /\ inherited (Aircraft t) = false) tasks.

(** The end of a task, the instant the [Date] constructor reads. *)
Definition endOf (t : task) : Z := default 0 (Date_new (End_Date t)).

(** The least end date among the tasks of a group. *)
Definition minEnd (same : task -> bool) (tasks : list task) : Z :=
  match List.filter same tasks with
  | [] => 0
  | t :: ts => fold_left Z.min (map endOf ts) (endOf t)
  end.

(** The facility's minimum end date. *)
Definition facilityKey (tasks : list task) (a : task) : Z :=
  minEnd (fun t => String.eqb (MRO t) (MRO a)) tasks.

(** The aircraft's minimum end date, over the tasks of every facility. *)
Definition aircraftKey (tasks : list task) (a : task) : Z :=
  minEnd (fun t => String.eqb (Aircraft t) (Aircraft a)) tasks.

(** The minimum end date of the pair of a facility and an aircraft, over
    the tasks of that facility only. *)
Definition pairKey (tasks : list task) (a : task) : Z :=
  minEnd (fun t => String.eqb (MRO t) (MRO a) && String.eqb (Aircraft t) (Aircraft a))
    tasks.

Definition key3 : Type := Z * Z * Z.

(** The three keys the code sorts by. *)
Definition triageKey (tasks : list task) (a : task) : key3 :=
  (facilityKey tasks a, aircraftKey tasks a, endOf a).

(** The three keys of the specification. *)
Definition statedKey (tasks : list task) (a : task) : key3 :=
  (facilityKey tasks a, pairKey tasks a, endOf a).

(** The lexicographic order on three keys. *)
Definition key_lt (x y : key3) : Prop :=
  let '(x1, x2, x3) := x in
  let '(y1, y2, y3) := y in
  x1 < y1 \/ (x1 = y1 /\ (x2 < y2 \/ (x2 = y2 /\ x3 < y3))).

Definition key_le (x y : key3) : Prop := key_lt x y \/ x = y.

Definition key_eqb (x y : key3) : bool :=
  let '(x1, x2, x3) := x in
  let '(y1, y2, y3) := y in
  (x1 =? y1) && (x2 =? y2) && (x3 =? y3).

(** The rows of the tasks among the rows of the body. *)
Definition isTaskRow (r : row) : bool :=
  match r with
  | task_row _ _ _ _ => true
  | _ => false
  end.

(** Three tasks in two facilities; aircraft B is worked on in both. *)
Definition taskA1 : task :=
  {| Component_Group := "c1"; Aircraft := "A"; MRO := "F1"; Warning := None;
     Start_Date := onDay 0; End_Date := onDay 3; PercentComplete := 0%float |}.
Definition taskB1 : task :=
  {| Component_Group := "c2"; Aircraft := "B"; MRO := "F1"; Warning := None;
     Start_Date := onDay 0; End_Date := onDay 5; PercentComplete := 0%float |}.
Definition taskB2 : task :=
  {| Component_Group := "c3"; Aircraft := "B"; MRO := "F2"; Warning := None;
     Start_Date := onDay 0; End_Date := onDay 1; PercentComplete := 0%float |}.

Definition twoFacilities : list task := [taskA1; taskB1; taskB2].

(** A heap that holds one array, at reference 1. *)
Definition heapOf (tasks : list task) : heap := {[ 1%positive := tasks ]}.

(** ** The layout of a row in the words of the specification *)

(** The grid columns the bar cells of a row cover, reading the cells from
    the left: a bar covers as many columns as its span, another cell one. *)
Fixpoint barColumnsFrom (col : nat) (cells : list cell) : list nat :=
  match cells with
  | [] => []
  | fill_cell b :: rest =>
      (seq col (colspan b) ++ barColumnsFrom (col + colspan b) rest)%list
  | plain_cell _ :: rest => barColumnsFrom (S col) rest
  end.

Definition barColumns (cells : list cell) : list nat := barColumnsFrom 0 cells.

Definition isBar (c : cell) : bool :=
  match c with
  | fill_cell _ => true
  | plain_cell _ => false
  end.

(** The bar cells of a row. *)
Definition barsOf (cells : list cell) : list cell := List.filter isBar cells.

(** The number of grid columns a row fills. *)
Definition columnsFilled (cells : list cell) : nat :=
  list_sum (map (fun c => match c with
                          | fill_cell b => colspan b
                          | plain_cell _ => 1%nat
                          end) cells).

(** The grid columns whose date falls within an interval. *)
Definition columnsWithin (range : list Z) (start end_ : date) : list nat :=
  List.filter
    (fun j => match range !! j with
              | Some d => inInterval start end_ d
              | None => false
              end)
    (seq 0 (length range)).

(** The rows of the tasks of a document. *)
Definition taskRows (doc : document) : list row :=
  List.filter isTaskRow (body doc).

(** The grid day [d] falls within the closed interval from the instant [s]
    to the instant [e]. *)
Definition dayWithin (s e d : Z) : Prop := s <= midnight d <= e.

(** ** More sample inputs *)

(** The wheel task with no completion reported. *)
Definition unreportedTask : task :=
  {| Component_Group := "Wheel"; Aircraft := "N100"; MRO := "FacilityA";
     Warning := Some "WorkStoppage";
     Start_Date := onDay 20089; End_Date := onDay 20098;
     PercentComplete := nan |}.

(** The wheel task reported as done two and a half times over. *)
Definition overdoneTask : task :=
  {| Component_Group := "Wheel"; Aircraft := "N100"; MRO := "FacilityA";
     Warning := Some "Work Stoppage";
     Start_Date := onDay 20089; End_Date := onDay 20098;
     PercentComplete := 2.5%float |}.

(** The grid of the wheel task on 2025-01-07. *)
Definition wheelGrid : list Z := gridOf 20086 20101 20095.

(** ** Words of the specification about requests *)

(** The [tasks] field of a parsed body: absent on a value that is no
    object, and on an object without the key. *)
Definition tasksField (v : Handler.json) : option Handler.json :=
  match v with
  | Handler.JObject fields => Handler.assoc "tasks" fields
  | _ => None
  end.

(** A client-error status. *)
Definition clientError (r : Handler.response) : Prop :=
  400 <= Handler.statusCode r < 500.

(** A decoder for the examples, whose bodies hold no task. *)
Definition blankTask : task :=
  {| Component_Group := ""; Aircraft := ""; MRO := ""; Warning := None;
     Start_Date := no_text None; End_Date := no_text None;
     PercentComplete := nan |}.

Definition decodeBlank (j : Handler.json) : task := blankTask.

(** Every awaited call resolves. *)
Definition allResolve (ev : Handler.effect) : option exn := None.

(** Loading the document fails. *)
Definition setContentRejects (ev : Handler.effect) : option exn :=
  match ev with
  | Handler.SetContent => Some (OtherError "Navigation timeout")
  | _ => None
  end.

(** The body whose [tasks] array is empty. *)
Definition emptyTasksBody : string :=
  "{" +:+ Handler.quote +:+ "tasks" +:+ Handler.quote +:+ ":[]}".

(** ** Auxiliary notions of the proofs *)

(** The bounds of the interval [getTimelineRange] hands to
    [eachDayOfInterval], where [parseISO] returns. *)
Definition lowerBound (tasks : list task) : date :=
  addDays (DateFns.min (map (fun t => parsed (Start_Date t)) tasks)) (-3).

Definition upperBound (tasks : list task) : date :=
  addDays (DateFns.max (map (fun t => parsed (End_Date t)) tasks)) 3.

(** The sampling filter of [getTimelineRange]. *)
Definition sampled (now : Z) (fullRange : list Z) : list Z :=
  Array_filter (fun d i => (Nat.even i) || (d =? now)) fullRange.

(** A comparator follows a key on the elements of [l]: its value is
    positive exactly when the second argument has the smaller key. *)
Definition follows {A : Type} (cmp : A -> A -> option Z) (key : A -> key3)
    (l : list A) : Prop :=
  forall a b, In a l -> In b l ->
    (positive_cmp (cmp a b) = true <-> key_lt (key b) (key a)).

(** [m] is the least end date among the tasks of [tasks] that [same]
    selects. *)
Definition leastEnd (same : task -> bool) (tasks : list task) (m : Z) : Prop :=
  (exists t, In t tasks /\ same t = true /\ Date_new (End_Date t) = Some m) /\
  (forall t e, In t tasks -> same t = true -> Date_new (End_Date t) = Some e -> m <= e).

(** A grid splits into the columns before an interval, the columns within
    it and the columns after it. *)
Definition split3 (range : list Z) (start end_ : date) (l1 l2 l3 : list Z) : Prop :=
  range = (l1 ++ l2 ++ l3)%list /\
  Forall (fun d => inInterval start end_ d = false) l1 /\
  Forall (fun d => inInterval start end_ d = true) l2 /\
  Forall (fun d => inInterval start end_ d = false) l3.

(** After [k] halvings of the mantissa [M] in the rounding of a binary64
    result: the mantissa is no more than [M / 2^k], and a set round bit means
    at least half a unit was dropped. *)
Definition halved (M k : Z) (mrs : shr_record) : Prop :=
  0 <= shr_m mrs /\ shr_m mrs * 2 ^ k <= M /\
  (shr_r mrs = true -> (2 * shr_m mrs + 1) * 2 ^ k <= 2 * M).


(** * Notions for the properties of the layout, the order and the handler *)

(** ** The sampled grid *)

(** The column more that today takes among the grid days from [a] to [b]:
    today is kept by the sampling filter also where its offset from the lower
    bound [lo] is odd. *)
Definition todayExtra (lo today a b : Z) : Z :=
  if (a <=? today) && (today <=? b) && Z.odd (today - lo) then 1 else 0.

(** ** The month bands, read column by column *)

(** The month above each grid column: a band covers as many columns as its
    span. *)
Definition bandLabels (bands : list month_band) : list (Z * Z) :=
  flat_map (fun b => repeat (snd b) (fst b)) bands.

(** No two neighbouring bands carry the same month. *)
Fixpoint neighboursDiffer (bands : list month_band) : Prop :=
  match bands with
  | b1 :: rest =>
      match rest with
      | b2 :: _ => snd b1 <> snd b2 /\ neighboursDiffer rest
      | [] => True
      end
  | [] => True
  end.

(** ** The marker of today *)

(** An empty cell that carries the marker of today. *)
Definition isTodayCell (c : cell) : bool :=
  match c with
  | plain_cell today_col => today_col
  | fill_cell _ => false
  end.

(** ** The body rows as a reader finds them *)

(** The headings above each task row: walking down the rows, the facility
    of the last facility header and, since that header, the aircraft of the
    last aircraft header. *)
Definition heading : Type := option string * option string.

Definition readRow (h : heading) (r : row) : heading :=
  match r with
  | mro_spacer => h
  | mro_header name => (Some name, None)
  | ac_header name => (fst h, Some name)
  | task_row _ _ _ _ => h
  end.

Fixpoint headingsFrom (h : heading) (rows : list row) : list heading :=
  match rows with
  | [] => []
  | r :: rest =>
      match r with
      | task_row _ _ _ _ => h :: headingsFrom h rest
      | _ => headingsFrom (readRow h r) rest
      end
  end.

Definition headings (rows : list row) : list heading := headingsFrom (None, None) rows.

(** The places of a well-grouped body: a spacer comes between two
    facility groups, a facility header opens a group and is followed by an
    aircraft header, an aircraft header is followed by a task row. *)
Inductive place : Type := AtStart | AfterSpacer | AfterFacility | AfterAircraft | AfterTask.

Definition nextPlace (p : place) (r : row) : option place :=
  match r, p with
  | mro_spacer, AfterTask => Some AfterSpacer
  | mro_header _, (AtStart | AfterSpacer) => Some AfterFacility
  | ac_header _, (AfterFacility | AfterTask) => Some AfterAircraft
  | task_row _ _ _ _, (AfterAircraft | AfterTask) => Some AfterTask
  | _, _ => None
  end.

Fixpoint placesFrom (p : place) (rows : list row) : option place :=
  match rows with
  | [] => Some p
  | r :: rest =>
      match nextPlace p r with
      | Some p' => placesFrom p' rest
      | None => None
      end
  end.

Definition wellGrouped (rows : list row) : bool :=
  match placesFrom AtStart rows with
  | Some AtStart | Some AfterTask => true
  | _ => false
  end.

(** Every task names its facility and its aircraft. *)
Definition groupsNamed (tasks : list task) : Prop :=
  Forall (fun t => MRO t <> "" /\ Aircraft t <> "") tasks.

(** The names on the facility headers, in order. *)
Definition facilityHeaders (rows : list row) : list string :=
  flat_map (fun r => match r with mro_header name => [name] | _ => [] end) rows.

(** The spacer rows. *)
Definition isSpacer (r : row) : bool :=
  match r with mro_spacer => true | _ => false end.

(** The elements of a list that differ from the one before them, [prev]
    standing before the first. *)
Fixpoint changesBy {A : Type} (same : A -> A -> bool) (prev : A) (l : list A) : list A :=
  match l with
  | [] => []
  | x :: rest =>
      if same x prev then changesBy same x rest else x :: changesBy same x rest
  end.

Abbreviation changes := (changesBy String.eqb).

Definition samePair (x y : string * string) : bool :=
  String.eqb (fst x) (fst y) && String.eqb (snd x) (snd y).

(** The names on the aircraft headers, each with the facility header it
    stands under. *)
Fixpoint aircraftHeadersFrom (mro : option string) (rows : list row)
    : list (option string * string) :=
  match rows with
  | [] => []
  | r :: rest =>
      match r with
      | mro_header name => aircraftHeadersFrom (Some name) rest
      | ac_header name => (mro, name) :: aircraftHeadersFrom mro rest
      | _ => aircraftHeadersFrom mro rest
      end
  end.

Definition aircraftHeaders (rows : list row) : list (option string * string) :=
  aircraftHeadersFrom None rows.

(** The separator rows one turn of the loop writes before the row of the
    task, and the rows the loop writes from a given state on. *)
Definition separators (lastMro lastAc : string) (t : task) : list row :=
  ((if String.eqb (MRO t) lastMro then []
    else (if String.eqb lastMro "" then [] else [mro_spacer]) ++ [mro_header (MRO t)])
   ++ (if String.eqb (Aircraft t) (if String.eqb (MRO t) lastMro then lastAc else "")
       then [] else [ac_header (Aircraft t)]))%list.

Fixpoint rowsFrom (range : list Z) (today : Z) (lastMro lastAc : string)
    (tasks : list task) : list row :=
  match tasks with
  | [] => []
  | t :: rest =>
      (separators lastMro lastAc t
       ++ taskRow range today t :: rowsFrom range today (MRO t) (Aircraft t) rest)%list
  end.

(** Two facilities whose first tasks finish on the same day, each with a
    second aircraft that finishes later. *)
Definition tiedA1 : task :=
  {| Component_Group := "c1"; Aircraft := "A1"; MRO := "F1"; Warning := None;
     Start_Date := onDay 0; End_Date := onDay 5; PercentComplete := 0%float |}.
Definition tiedA3 : task :=
  {| Component_Group := "c2"; Aircraft := "A3"; MRO := "F1"; Warning := None;
     Start_Date := onDay 0; End_Date := onDay 9; PercentComplete := 0%float |}.
Definition tiedA2 : task :=
  {| Component_Group := "c3"; Aircraft := "A2"; MRO := "F2"; Warning := None;
     Start_Date := onDay 0; End_Date := onDay 7; PercentComplete := 0%float |}.
Definition tiedA4 : task :=
  {| Component_Group := "c4"; Aircraft := "A4"; MRO := "F2"; Warning := None;
     Start_Date := onDay 0; End_Date := onDay 5; PercentComplete := 0%float |}.

Definition tiedFacilities : list task := [tiedA1; tiedA3; tiedA2; tiedA4].

(** A task whose dates are texts that do not parse, with its facility and
    aircraft named. *)
Definition undatedTask : task :=
  {| Component_Group := "Wheel"; Aircraft := "N100"; MRO := "FacilityA";
     Warning := None; Start_Date := text None None; End_Date := text None None;
     PercentComplete := 0%float |}.

(** The wheel task with times of day: from noon of 2025-01-01 to six in
    the morning of 2025-01-10. *)
Definition noonTask : task :=
  {| Component_Group := "Wheel"; Aircraft := "N100"; MRO := "FacilityA";
     Warning := None;
     Start_Date := text (Some (midnight 20089 + 43200000)) (Some (midnight 20089 + 43200000));
     End_Date := text (Some (midnight 20098 + 21600000)) (Some (midnight 20098 + 21600000));
     PercentComplete := 0%float |}.


(** ** The effects of a request *)

(** The effects of a request that succeeds, in order. *)
Definition fullTrace : list Handler.effect :=
  [Handler.ExecutablePath; Handler.Launch; Handler.NewPage; Handler.CallBuildHTML;
   Handler.SetContent; Handler.Screenshot; Handler.Close].

(** The calls the handler awaits. *)
Definition awaited (ev : Handler.effect) : bool :=
  match ev with
  | Handler.CallBuildHTML => false
  | _ => true
  end.

(** The response of a request that succeeds: its body is the text the
    screenshot was turned into. *)
Definition imageResponse (screenshotText : string) : Handler.response :=
  {| Handler.statusCode := 200;
     Handler.content_type := Some "image/png";
     Handler.body := Handler.Text screenshotText;
     Handler.isBase64Encoded := true |}.

(** The lookup of the Chromium path fails. *)
Definition pathLookupRejects (ev : Handler.effect) : option exn :=
  match ev with
  | Handler.ExecutablePath => Some (OtherError "Chromium not found")
  | _ => None
  end.


(** * Properties *)

(** ** The date grid *)

Section GridFacts.

(** Days and instants. *)
Lemma dayOf_midnight (d : Z) : dayOf (midnight d) = d.
Proof. unfold dayOf, midnight, msPerDay. apply Z.div_mul. lia. Qed.

Lemma dayOf_addDays (x k : Z) : dayOf (x + k * msPerDay) = dayOf x + k.
Proof. unfold dayOf, msPerDay. apply Z.div_add. lia. Qed.

Lemma midnight_le (a b : Z) : midnight a <= midnight b <-> a <= b.
Proof. unfold midnight, msPerDay. lia. Qed.

Lemma midnight_inj (a b : Z) : midnight a = midnight b -> a = b.
Proof. unfold midnight, msPerDay. lia. Qed.

Lemma midnight_add (a k : Z) : midnight a + k * msPerDay = midnight (a + k).
Proof. unfold midnight, msPerDay. lia. Qed.

(** A midnight is not after an instant exactly when its day is not after
    the day of the instant. *)
Lemma midnight_le_instant (d x : Z) : midnight d <= x <-> d <= dayOf x.
Proof.
  unfold midnight, dayOf, msPerDay. split; intros H.
  - apply Z.div_le_lower_bound; lia.
  - pose proof (Z.mul_div_le x 86400000 ltac:(lia)).
    remember (x / 86400000) as q. lia.
Qed.

Lemma dayOf_mono (x y : Z) : x <= y -> dayOf x <= dayOf y.
Proof. unfold dayOf, msPerDay. intros H. apply Z.div_le_mono; lia. Qed.

Lemma daysLoop_unfold (s e : Z) :
  daysLoop s e = if Z_le_dec (midnight s) e then s :: daysLoop (s + 1) e else [].
Proof.
  rewrite daysLoop_equation_1.
  destruct (Z_le_dec (midnight s) e); simp daysLoop; reflexivity.
Qed.

(** The loop lists the days from the current one to the day of the end. *)
Lemma daysLoop_daysOf (s e : Z) : daysLoop s e = daysOf s (dayOf e).
Proof.
  unfold daysOf.
  remember (Z.to_nat (dayOf e - s + 1)) as n eqn:Hn.
  revert s Hn. induction n as [|n IH]; intros s Hn.
  - rewrite daysLoop_unfold.
    destruct (Z_le_dec (midnight s) e) as [Hle|]; [| reflexivity].
    apply midnight_le_instant in Hle. lia.
  - rewrite daysLoop_unfold.
    destruct (Z_le_dec (midnight s) e) as [|Hgt].
    + cbn [seq map]. f_equal; [lia |].
      rewrite (IH (s + 1)) by lia.
      rewrite <- seq_shift, map_map.
      apply map_ext. intros k. lia.
    + exfalso. apply Hgt. apply midnight_le_instant. lia.
Qed.

Lemma daysOf_lookup (lo hi : Z) (k : nat) (d : Z) :
  daysOf lo hi !! k = Some d -> d = lo + Z.of_nat k.
Proof.
  unfold daysOf. rewrite list_lookup_fmap.
  intros H. destruct (seq 0 (Z.to_nat (hi - lo + 1)) !! k) as [j|] eqn:Hj; [| discriminate].
  apply lookup_seq in Hj as [-> _]. cbn in H. injection H as <-. reflexivity.
Qed.

Lemma In_daysOf (lo hi d : Z) : In d (daysOf lo hi) <-> lo <= d <= hi.
Proof.
  unfold daysOf. rewrite in_map_iff. split.
  - intros (k & <- & Hk). apply in_seq in Hk. lia.
  - intros Hd. exists (Z.to_nat (d - lo)). split; [lia |]. apply in_seq. lia.
Qed.

Lemma daysOf_sorted (lo hi : Z) : StronglySorted Z.lt (daysOf lo hi).
Proof.
  unfold daysOf.
  generalize (Z.to_nat (hi - lo + 1)) as n. intros n.
  assert (G : forall a, StronglySorted Z.lt (map (fun k => lo + Z.of_nat k) (seq a n))).
  { induction n as [|n IH]; intros a; cbn; constructor; [apply IH |].
    apply List.Forall_forall. intros x Hx. apply in_map_iff in Hx as (k & <- & Hk).
    apply in_seq in Hk. lia. }
  apply G.
Qed.

(** A filter on the index is a filter on the element when the index can be
    read off the element. *)
Lemma filterFrom_filter {A : Type} (f : A -> nat -> bool) (g : A -> bool) (l : list A) :
  forall i, (forall k x, l !! k = Some x -> f x (i + k)%nat = g x) ->
  filterFrom f i l = List.filter g l.
Proof.
  induction l as [|x l IH]; intros i Hfg; [reflexivity |].
  cbn [filterFrom List.filter].
  rewrite <- (Hfg 0%nat x eq_refl), Nat.add_0_r.
  rewrite (IH (S i)).
  - reflexivity.
  - intros k y Hk. rewrite <- (Hfg (S k) y Hk). f_equal. lia.
Qed.

Lemma even_offset (lo : Z) (k : nat) : Nat.even k = Z.even (lo + Z.of_nat k - lo).
Proof.
  replace (lo + Z.of_nat k - lo) with (Z.of_nat k) by lia.
  apply eq_true_iff_eq. rewrite Nat.even_spec, Z.even_spec. split.
  - intros [m ->]. exists (Z.of_nat m). lia.
  - intros [m Hm]. exists (Z.to_nat m). lia.
Qed.


(** The running minimum over parsed dates. *)
Lemma fold_min_step (ds : list date) : forall a,
  Forall is_Some ds ->
  exists m, fold_left min_step ds (Some (Some a)) = Some (Some m) /\
    m <= a /\ (m = a \/ In (Some m) ds) /\ (forall x, In (Some x) ds -> m <= x).
Proof.
  induction ds as [|d ds IH]; intros a Hds.
  - exists a. cbn. repeat split; [lia | now left | intros x []].
  - inversion Hds as [|? ? [y ->] Hds']; subst.
    cbn [fold_left min_step].
    destruct (Z.ltb_spec y a) as [Hlt | Hge].
    + destruct (IH y Hds') as (m & Hm & Hle & Hin & Hall).
      exists m. repeat split; [exact Hm | lia | | ].
      * right. destruct Hin as [-> | Hin]; [now left | now right].
      * intros x [[= <-] | Hx]; [exact Hle | now apply Hall].
    + destruct (IH a Hds') as (m & Hm & Hle & Hin & Hall).
      exists m. repeat split; [exact Hm | exact Hle | | ].
      * destruct Hin as [-> | Hin]; [now left | right; now right].
      * intros x [[= <-] | Hx]; [lia | now apply Hall].
Qed.

Lemma fold_max_step (ds : list date) : forall a,
  Forall is_Some ds ->
  exists m, fold_left max_step ds (Some (Some a)) = Some (Some m) /\
    a <= m /\ (m = a \/ In (Some m) ds) /\ (forall x, In (Some x) ds -> x <= m).
Proof.
  induction ds as [|d ds IH]; intros a Hds.
  - exists a. cbn. repeat split; [lia | now left | intros x []].
  - inversion Hds as [|? ? [y ->] Hds']; subst.
    cbn [fold_left max_step].
    destruct (Z.ltb_spec a y) as [Hlt | Hge].
    + destruct (IH y Hds') as (m & Hm & Hle & Hin & Hall).
      exists m. repeat split; [exact Hm | lia | | ].
      * right. destruct Hin as [-> | Hin]; [now left | now right].
      * intros x [[= <-] | Hx]; [exact Hle | now apply Hall].
    + destruct (IH a Hds') as (m & Hm & Hle & Hin & Hall).
      exists m. repeat split; [exact Hm | exact Hle | | ].
      * destruct Hin as [-> | Hin]; [now left | right; now right].
      * intros x [[= <-] | Hx]; [lia | now apply Hall].
Qed.

Lemma min_parsed (ds : list date) :
  ds <> [] -> Forall is_Some ds ->
  exists m, DateFns.min ds = Some m /\ In (Some m) ds /\
    (forall x, In (Some x) ds -> m <= x).
Proof.
  destruct ds as [|d ds]; [congruence |]. intros _ Hds.
  inversion Hds as [|? ? [a ->] Hds']; subst.
  destruct (fold_min_step ds a Hds') as (m & Hm & Hle & Hin & Hall).
  exists m. unfold DateFns.min. cbn [fold_left min_step]. rewrite Hm.
  repeat split.
  - destruct Hin as [-> | Hin]; [now left | now right].
  - intros x [[= <-] | Hx]; [exact Hle | now apply Hall].
Qed.

Lemma max_parsed (ds : list date) :
  ds <> [] -> Forall is_Some ds ->
  exists m, DateFns.max ds = Some m /\ In (Some m) ds /\
    (forall x, In (Some x) ds -> x <= m).
Proof.
  destruct ds as [|d ds]; [congruence |]. intros _ Hds.
  inversion Hds as [|? ? [a ->] Hds']; subst.
  destruct (fold_max_step ds a Hds') as (m & Hm & Hle & Hin & Hall).
  exists m. unfold DateFns.max. cbn [fold_left max_step]. rewrite Hm.
  repeat split.
  - destruct Hin as [-> | Hin]; [now left | now right].
  - intros x [[= <-] | Hx]; [exact Hle | now apply Hall].
Qed.

Lemma earliestStart_unique (tasks : list task) (s s' : Z) :
  earliestStart tasks s -> earliestStart tasks s' -> s = s'.
Proof.
  intros [(t & Ht & Hs) Hm] [(t' & Ht' & Hs') Hm'].
  pose proof (Hm t' s' Ht' Hs'). pose proof (Hm' t s Ht Hs). lia.
Qed.

Lemma latestEnd_unique (tasks : list task) (e e' : Z) :
  latestEnd tasks e -> latestEnd tasks e' -> e = e'.
Proof.
  intros [(t & Ht & Hs) Hm] [(t' & Ht' & Hs') Hm'].
  pose proof (Hm t' e' Ht' Hs'). pose proof (Hm' t e Ht Hs). lia.
Qed.

(** Calendar dates are dates. *)
Lemma datesParse_datesRead (tasks : list task) : datesParse tasks -> datesRead tasks.
Proof.
  intros Hp. eapply List.Forall_impl; [| exact Hp].
  intros t [[s Hs] [e He]]. unfold calendarDate in *. rewrite Hs, He. split; eauto.
Qed.

Lemma parsed_isText (v : date_field) : is_Some (parsed v) -> isText v = true.
Proof. destruct v; [intros [x Hx]; discriminate | reflexivity]. Qed.

Lemma datesRead_datesAreTexts (tasks : list task) : datesRead tasks -> datesAreTexts tasks.
Proof.
  intros Hp. eapply List.Forall_impl; [| exact Hp].
  intros t [Hs He]. split; now apply parsed_isText.
Qed.

Lemma leastStart_earliestStart (tasks : list task) (m : Z) :
  datesParse tasks -> leastStart tasks m -> earliestStart tasks (midnight m).
Proof.
  intros Hp [(t & Ht & Hs) Hm]. split; [now exists t |].
  intros t' s' Ht' Hs'.
  unfold datesParse in Hp. rewrite List.Forall_forall in Hp. destruct (Hp t' Ht') as [[d Hd] _].
  unfold calendarDate in Hd. rewrite Hd in Hs'. injection Hs' as <-.
  apply midnight_le. now apply (Hm t').
Qed.

Lemma greatestEnd_latestEnd (tasks : list task) (M : Z) :
  datesParse tasks -> greatestEnd tasks M -> latestEnd tasks (midnight M).
Proof.
  intros Hp [(t & Ht & Hs) Hm]. split; [now exists t |].
  intros t' s' Ht' Hs'.
  unfold datesParse in Hp. rewrite List.Forall_forall in Hp. destruct (Hp t' Ht') as [_ [d Hd]].
  unfold calendarDate in Hd. rewrite Hd in Hs'. injection Hs' as <-.
  apply midnight_le. now apply (Hm t').
Qed.

(** On dates that [parseISO] reads, the bounds the code computes are the
    earliest start less three days and the latest end plus three days. *)
Lemma lowerBound_earliestStart (tasks : list task) (s : Z) :
  datesRead tasks -> earliestStart tasks s ->
  lowerBound tasks = Some (s + -3 * msPerDay).
Proof.
  intros Hp Hm.
  set (starts := map (fun t => parsed (Start_Date t)) tasks).
  assert (Hne : starts <> []).
  { destruct Hm as [(t & Ht & _) _]. destruct tasks; [destruct Ht | discriminate]. }
  assert (Hall : Forall is_Some starts).
  { apply List.Forall_map. eapply List.Forall_impl; [| exact Hp]. now intros t [? _]. }
  destruct (min_parsed _ Hne Hall) as (m' & Hmin & Hin & Hle).
  assert (earliestStart tasks m').
  { split.
    - apply in_map_iff in Hin as (t & Ht & Hin). now exists t.
    - intros t x Ht Hs. apply Hle. apply in_map_iff. now exists t. }
  unfold lowerBound. fold starts. rewrite Hmin. cbn [addDays].
  now rewrite (earliestStart_unique tasks s m').
Qed.

Lemma upperBound_latestEnd (tasks : list task) (e : Z) :
  datesRead tasks -> latestEnd tasks e ->
  upperBound tasks = Some (e + 3 * msPerDay).
Proof.
  intros Hp Hm.
  set (ends := map (fun t => parsed (End_Date t)) tasks).
  assert (Hne : ends <> []).
  { destruct Hm as [(t & Ht & _) _]. destruct tasks; [destruct Ht | discriminate]. }
  assert (Hall : Forall is_Some ends).
  { apply List.Forall_map. eapply List.Forall_impl; [| exact Hp]. now intros t [_ ?]. }
  destruct (max_parsed _ Hne Hall) as (m' & Hmax & Hin & Hle).
  assert (latestEnd tasks m').
  { split.
    - apply in_map_iff in Hin as (t & Ht & Hin). now exists t.
    - intros t x Ht Hs. apply Hle. apply in_map_iff. now exists t. }
  unfold upperBound. fold ends. rewrite Hmax. cbn [addDays].
  now rewrite (latestEnd_unique tasks e m').
Qed.

(** [Array.prototype.map] with a callback that returns. *)
Lemma Array_map_Ok {A B : Type} (f : A -> result B) (g : A -> B) (l : list A) :
  (forall x, In x l -> f x = Ok (g x)) -> Array_map f l = Ok (map g l).
Proof.
  induction l as [|x l IH]; intros H; [reflexivity |].
  cbn [Array_map map]. rewrite (H x (or_introl eq_refl)). cbn [rbind].
  rewrite IH by (intros y Hy; apply H; now right). reflexivity.
Qed.

(** [Array.prototype.map] raises what its callback raises. *)
Lemma Array_map_Throw {A B : Type} (f : A -> result B) (P : exn -> Prop) (l : list A) :
  (forall x e, f x = Throw e -> P e) ->
  (exists x, In x l /\ ~ is_Ok (f x)) ->
  exists e, Array_map f l = Throw e /\ P e.
Proof.
  intros HP. induction l as [|x l IH]; intros (y & Hy & Hf); [destruct Hy |].
  cbn [Array_map]. destruct (f x) as [b|e] eqn:Hx.
  - cbn [rbind]. destruct IH as (e & -> & He).
    + destruct Hy as [-> | Hy]; [rewrite Hx in Hf; now destruct Hf | now exists y].
    + exists e. now split.
  - exists e. split; [reflexivity | now apply (HP x)].
Qed.

Lemma parseISO_returns (ver : version) (v : date_field) :
  ver = V2 \/ isText v = true -> parseISO ver v = Ok (parsed v).
Proof. destruct v, ver; intros [H | H]; try discriminate; reflexivity. Qed.

(** Where [parseISO] returns on every field, the grid is the sampled days
    of the interval between the two bounds. *)
Lemma getTimelineRange_parsed (ver : version) (now : Z) (tasks : list task) :
  ver = V2 \/ datesAreTexts tasks ->
  getTimelineRange ver now tasks
  = rbind (eachDayOfInterval ver (lowerBound tasks) (upperBound tasks))
      (fun fullRange => Ok (sampled now fullRange)).
Proof.
  intros H. unfold getTimelineRange.
  rewrite (Array_map_Ok _ (fun t => parsed (Start_Date t))).
  2:{ intros t Ht. apply parseISO_returns. destruct H as [-> | H]; [now left | right].
      unfold datesAreTexts in H. rewrite List.Forall_forall in H.
      now destruct (H t Ht). }
  cbn [rbind].
  rewrite (Array_map_Ok _ (fun t => parsed (End_Date t))).
  2:{ intros t Ht. apply parseISO_returns. destruct H as [-> | H]; [now left | right].
      unfold datesAreTexts in H. rewrite List.Forall_forall in H.
      now destruct (H t Ht). }
  reflexivity.
Qed.

(** From version 3 on, a date field that is no string ends the call in a
    [TypeError]. *)
Lemma getTimelineRange_no_text (now : Z) (tasks : list task) :
  ~ datesAreTexts tasks ->
  exists msg, getTimelineRange V3plus now tasks = Throw (TypeError msg).
Proof.
  intros H. unfold getTimelineRange.
  assert (HP : forall (v : date_field) e,
             parseISO V3plus v = Throw e -> exists msg, e = TypeError msg).
  { intros [d | d d'] e; cbn; [intros [= <-]; eauto | discriminate]. }
  destruct (List.Forall_Exists_dec (fun t => isText (Start_Date t) = true)
              (fun t => bool_dec (isText (Start_Date t)) true) tasks) as [Hs | Hs].
  - rewrite (Array_map_Ok _ (fun t => parsed (Start_Date t))).
    2:{ intros t Ht. apply parseISO_returns. right.
        rewrite List.Forall_forall in Hs. now apply Hs. }
    cbn [rbind].
    destruct (Array_map_Throw (fun t => parseISO V3plus (End_Date t))
                (fun e => exists msg, e = TypeError msg) tasks) as (e & -> & msg & ->).
    + intros t e. apply HP.
    + destruct (List.Forall_Exists_dec (fun t => isText (End_Date t) = true)
                  (fun t => bool_dec (isText (End_Date t)) true) tasks) as [He | He].
      * exfalso. apply H. apply List.Forall_forall. intros t Ht.
        rewrite List.Forall_forall in Hs, He. split; [now apply Hs | now apply He].
      * apply List.Exists_exists in He as (t & Ht & Hn). exists t. split; [exact Ht |].
        destruct (End_Date t); [cbn; tauto | now destruct Hn].
    + now exists msg.
  - destruct (Array_map_Throw (fun t => parseISO V3plus (Start_Date t))
                (fun e => exists msg, e = TypeError msg) tasks) as (e & -> & msg & ->).
    + intros t e. apply HP.
    + apply List.Exists_exists in Hs as (t & Ht & Hn). exists t. split; [exact Ht |].
      destruct (Start_Date t); [cbn; tauto | now destruct Hn].
    + now exists msg.
Qed.

(** The filter of the code on the days of an interval is the grid of the
    specification. *)
Lemma Array_filter_daysOf (lo hi now : Z) :
  Array_filter (fun d i => Nat.even i || (d =? now)) (daysOf lo hi) = gridOf lo hi now.
Proof.
  unfold Array_filter, gridOf.
  apply filterFrom_filter. intros k x Hk.
  apply daysOf_lookup in Hk as ->. cbn [Nat.add].
  now rewrite (even_offset lo k).
Qed.

Lemma In_gridOf (lo hi today d : Z) :
  In d (gridOf lo hi today) <->
  lo <= d <= hi /\ (Z.even (d - lo) = true \/ d = today).
Proof.
  unfold gridOf. rewrite filter_In, In_daysOf, orb_true_iff, Z.eqb_eq. reflexivity.
Qed.

Lemma StronglySorted_filter {A : Type} (R : A -> A -> Prop) (f : A -> bool) (l : list A) :
  StronglySorted R l -> StronglySorted R (List.filter f l).
Proof.
  induction 1 as [|x l Hl IH Hx]; cbn; [constructor |].
  destruct (f x); [| exact IH].
  constructor; [exact IH |].
  apply List.Forall_forall. intros y Hy. apply filter_In in Hy as [Hy _].
  rewrite List.Forall_forall in Hx. now apply Hx.
Qed.

Lemma gridOf_sorted (lo hi today : Z) : StronglySorted Z.lt (gridOf lo hi today).
Proof. apply StronglySorted_filter, daysOf_sorted. Qed.

End GridFacts.

(** An interval whose ends are in order: the days from the day of the
    start to the day of the end, whichever version of the date library
    runs. *)
Lemma eachDayOfInterval_forward (ver : version) (s e : Z) :
  s <= e ->
  eachDayOfInterval ver (Some s) (Some e) = Ok (daysOf (dayOf s) (dayOf e)).
Proof.
  intros Hle. destruct ver; cbn.
  - destruct (Z.leb_spec s e); [| lia]. now rewrite daysLoop_daysOf.
  - destruct (Z.ltb_spec e s); [lia |]. now rewrite daysLoop_daysOf.
Qed.

(** On dates that [parseISO] reads, with or without a time of day, whose
    bounds are in order, the grid runs from the day of the earliest start
    less three to the day of the latest end plus three. *)
Lemma getTimelineRange_instants (ver : version) (now : Z) (tasks : list task) (s e : Z) :
  datesRead tasks -> earliestStart tasks s -> latestEnd tasks e ->
  s + -3 * msPerDay <= e + 3 * msPerDay ->
  getTimelineRange ver now tasks = Ok (gridOf (dayOf s - 3) (dayOf e + 3) now).
Proof.
  intros Hp Hs He Hle.
  rewrite getTimelineRange_parsed by (right; now apply datesRead_datesAreTexts).
  rewrite (lowerBound_earliestStart tasks s Hp Hs).
  rewrite (upperBound_latestEnd tasks e Hp He).
  rewrite eachDayOfInterval_forward by exact Hle.
  rewrite !dayOf_addDays. cbn [rbind]. f_equal.
  replace (dayOf s + -3) with (dayOf s - 3) by lia.
  apply Array_filter_daysOf.
Qed.

(** On calendar dates whose bounds are in order, the code returns the grid
    of the specification, whichever version of the date library runs. *)
Lemma getTimelineRange_gridOf (ver : version) (now : Z) (tasks : list task) (m M : Z) :
  datesParse tasks -> leastStart tasks m -> greatestEnd tasks M ->
  m - 3 <= M + 3 ->
  getTimelineRange ver now tasks = Ok (gridOf (m - 3) (M + 3) now).
Proof.
  intros Hp Hm HM Hle.
  rewrite (getTimelineRange_instants ver now tasks (midnight m) (midnight M)).
  - now rewrite !dayOf_midnight.
  - now apply datesParse_datesRead.
  - now apply leastStart_earliestStart.
  - now apply greatestEnd_latestEnd.
  - rewrite !midnight_add. apply midnight_le. lia.
Qed.

(** A non-empty list of dates has an earliest start and a latest end. *)
Lemma instants_exist (tasks : list task) :
  datesRead tasks -> tasks <> [] ->
  exists s e, earliestStart tasks s /\ latestEnd tasks e.
Proof.
  intros Hp Hne.
  assert (Hs : Forall is_Some (map (fun t => parsed (Start_Date t)) tasks)).
  { apply List.Forall_map. eapply List.Forall_impl; [| exact Hp]. now intros t [? _]. }
  assert (He : Forall is_Some (map (fun t => parsed (End_Date t)) tasks)).
  { apply List.Forall_map. eapply List.Forall_impl; [| exact Hp]. now intros t [_ ?]. }
  destruct (min_parsed (map (fun t => parsed (Start_Date t)) tasks)) as (m & _ & Hin & Hle);
    [destruct tasks; [congruence | discriminate] | exact Hs |].
  destruct (max_parsed (map (fun t => parsed (End_Date t)) tasks)) as (M & _ & Hin' & Hle');
    [destruct tasks; [congruence | discriminate] | exact He |].
  exists m, M. split; split.
  - apply in_map_iff in Hin as (t & Ht & Hin). now exists t.
  - intros t s Ht Hst. apply Hle. apply in_map_iff. now exists t.
  - apply in_map_iff in Hin' as (t & Ht & Hin'). now exists t.
  - intros t s Ht Hst. apply Hle'. apply in_map_iff. now exists t.
Qed.

(** The field of a calendar date holds that date and no other. *)
Lemma calendarDate_onDay (d s : Z) : calendarDate (onDay d) s <-> s = d.
Proof.
  unfold calendarDate, onDay. cbn [parsed]. split.
  - intros [= H]. symmetry. now apply midnight_inj.
  - now intros ->.
Qed.

Lemma datesParse_onDay (t : task) (s e : Z) :
  Start_Date t = onDay s -> End_Date t = onDay e -> datesParse [t].
Proof.
  intros Hs He. repeat constructor; rewrite ?Hs, ?He; eexists; reflexivity.
Qed.

Lemma leastStart_single (t : task) (s : Z) :
  Start_Date t = onDay s -> leastStart [t] s.
Proof.
  intros Hs. split; [exists t; split; [now left | rewrite Hs; reflexivity] |].
  intros t' s' [<- | []]. rewrite Hs. intros H%calendarDate_onDay. lia.
Qed.

Lemma greatestEnd_single (t : task) (e : Z) :
  End_Date t = onDay e -> greatestEnd [t] e.
Proof.
  intros He. split; [exists t; split; [now left | rewrite He; reflexivity] |].
  intros t' e' [<- | []]. rewrite He. intros H%calendarDate_onDay. lia.
Qed.

(** C1, as amended: for a list whose start and end dates all parse, with
    earliest start [m] and latest end [M] such that [m - 3] is not after
    [M + 3], [getTimelineRange] returns exactly the days of the closed
    interval from [m - 3] to [M + 3], in increasing order, whose offset from
    [m - 3] is even or which are today; today is in the grid whenever it is in
    the interval. *)
Theorem getTimelineRange_grid (ver : version) (now : Z) (tasks : list task) (m M : Z) :
  datesParse tasks -> leastStart tasks m -> greatestEnd tasks M ->
  m - 3 <= M + 3 ->
  getTimelineRange ver now tasks = Ok (gridOf (m - 3) (M + 3) now) /\
  StronglySorted Z.lt (gridOf (m - 3) (M + 3) now) /\
  (forall d, In d (gridOf (m - 3) (M + 3) now) <->
             m - 3 <= d <= M + 3 /\ (Z.even (d - (m - 3)) = true \/ d = now)) /\
  (m - 3 <= now <= M + 3 -> In now (gridOf (m - 3) (M + 3) now)).
Proof.
  intros Hp Hm HM Hle.
  split; [| split; [apply gridOf_sorted | split]].
  - now apply getTimelineRange_gridOf.
  - intros d. apply In_gridOf.
  - intros Hnow. apply In_gridOf. split; [exact Hnow | now right].
Qed.

Lemma getTimelineRange_grid_witness :
  getTimelineRange V2 20095 [wheelTask] = Ok (gridOf 20086 20101 20095) /\
  gridOf 20086 20101 20095
    = [20086; 20088; 20090; 20092; 20094; 20095; 20096; 20098; 20100].
Proof.
  split; [| reflexivity].
  apply (getTimelineRange_grid V2 20095 [wheelTask] 20089 20098).
  - now apply (datesParse_onDay wheelTask 20089 20098).
  - now apply leastStart_single.
  - now apply greatestEnd_single.
  - lia.
Defined.

(** C1 as stated fails on a list whose dates parse but run backwards: the
    closed interval from 7 to 3 has no day, while the code raises under
    version 2 of the date library and lists the days downwards from 7 after. *)
Lemma getTimelineRange_backwards_interval :
  datesParse [backwardsTask] /\
  leastStart [backwardsTask] 10 /\ greatestEnd [backwardsTask] 0 /\
  gridOf (10 - 3) (0 + 3) 4 = [] /\
  getTimelineRange V2 4 [backwardsTask] = Throw (RangeError "Invalid interval") /\
  getTimelineRange V3plus 4 [backwardsTask] = Ok [7; 5; 4; 3].
Proof.
  split; [now apply (datesParse_onDay backwardsTask 10 0) |].
  split; [now apply leastStart_single |].
  split; [now apply greatestEnd_single |].
  split; [reflexivity |].
  rewrite !getTimelineRange_parsed by (right; repeat constructor).
  split.
  - reflexivity.
  - cbn. rewrite daysLoop_daysOf. reflexivity.
Qed.

(** *** The grid on every list *)

Lemma fold_min_step_invalid (ds : list date) :
  fold_left min_step ds (Some None) = Some None.
Proof.
  induction ds as [|d ds IH]; [reflexivity |]. simpl. destruct d; exact IH.
Qed.

Lemma fold_max_step_invalid (ds : list date) :
  fold_left max_step ds (Some None) = Some None.
Proof.
  induction ds as [|d ds IH]; [reflexivity |]. simpl. destruct d; exact IH.
Qed.

Lemma fold_min_step_unparsed (ds : list date) : forall acc,
  ~ Forall is_Some ds -> fold_left min_step ds acc = Some None.
Proof.
  induction ds as [|d ds IH]; intros acc Hn; [exfalso; apply Hn; constructor |].
  simpl. destruct d as [y|].
  - apply IH. intros H. apply Hn. constructor; [eauto | exact H].
  - replace (min_step acc None) with (Some (@None Z)) by (destruct acc as [[?|]|]; reflexivity).
    apply fold_min_step_invalid.
Qed.

Lemma fold_max_step_unparsed (ds : list date) : forall acc,
  ~ Forall is_Some ds -> fold_left max_step ds acc = Some None.
Proof.
  induction ds as [|d ds IH]; intros acc Hn; [exfalso; apply Hn; constructor |].
  simpl. destruct d as [y|].
  - apply IH. intros H. apply Hn. constructor; [eauto | exact H].
  - replace (max_step acc None) with (Some (@None Z)) by (destruct acc as [[?|]|]; reflexivity).
    apply fold_max_step_invalid.
Qed.

Lemma is_Some_Forall_dec (ds : list date) : {Forall is_Some ds} + {~ Forall is_Some ds}.
Proof.
  apply Forall_dec. intros [x|]; [left; eauto | right; intros [x Hx]; discriminate].
Qed.

(** One invalid date makes the minimum and the maximum invalid. *)
Lemma min_valid (ds : list date) (m : Z) :
  DateFns.min ds = Some m -> ds <> [] /\ Forall is_Some ds.
Proof.
  intros Hmin. split.
  - intros ->. discriminate Hmin.
  - destruct (is_Some_Forall_dec ds) as [H | H]; [exact H |].
    unfold DateFns.min in Hmin. rewrite fold_min_step_unparsed in Hmin by exact H.
    discriminate Hmin.
Qed.

Lemma max_valid (ds : list date) (m : Z) :
  DateFns.max ds = Some m -> ds <> [] /\ Forall is_Some ds.
Proof.
  intros Hmax. split.
  - intros ->. discriminate Hmax.
  - destruct (is_Some_Forall_dec ds) as [H | H]; [exact H |].
    unfold DateFns.max in Hmax. rewrite fold_max_step_unparsed in Hmax by exact H.
    discriminate Hmax.
Qed.

Lemma bounds_valid (tasks : list task) (lo hi : Z) :
  lowerBound tasks = Some lo -> upperBound tasks = Some hi ->
  tasks <> [] /\ datesRead tasks.
Proof.
  unfold lowerBound, upperBound, addDays. intros Hlo Hhi.
  destruct (DateFns.min _) as [s|] eqn:Hs; [| discriminate].
  destruct (DateFns.max _) as [e|] eqn:He; [| discriminate].
  apply min_valid in Hs as [Hne Hs]. apply max_valid in He as [_ He].
  split; [intros ->; now apply Hne |].
  unfold datesRead. rewrite List.Forall_forall in *.
  intros t Ht. split.
  - apply Hs. apply (in_map (fun t => parsed (Start_Date t))), Ht.
  - apply He. apply (in_map (fun t => parsed (End_Date t))), Ht.
Qed.

Lemma daysOf_nonempty (lo hi : Z) : lo <= hi -> exists l, daysOf lo hi = lo :: l.
Proof.
  intros H. unfold daysOf.
  replace (Z.to_nat (hi - lo + 1)) with (S (Z.to_nat (hi - lo))) by lia.
  simpl. eexists. f_equal. lia.
Qed.

Lemma sampled_head (now : Z) (l : list Z) : l <> [] -> sampled now l <> [].
Proof.
  destruct l as [|x l]; [congruence |]. intros _. unfold sampled, Array_filter.
  simpl. discriminate.
Qed.

Lemma datesAreTexts_dec (tasks : list task) :
  {datesAreTexts tasks} + {~ datesAreTexts tasks}.
Proof.
  apply Forall_dec. intros t.
  destruct (isText (Start_Date t)), (isText (End_Date t));
    [left; auto | right; intros [_ H]; discriminate
     | right; intros [H _]; discriminate | right; intros [H _]; discriminate].
Qed.

(** What [getTimelineRange] does on every list.  It returns a grid that
    is not empty exactly when [parseISO] reads every date and, under version
    2, the bounds are in order; the grid is empty only from version 3 on, on a
    date that does not parse; it raises a [RangeError] only under version 2,
    and a [TypeError] only from version 3 on, on a date that is no string. *)
Lemma getTimelineRange_cases (ver : version) (now : Z) (tasks : list task) :
  match getTimelineRange ver now tasks with
  | Throw e =>
      (ver = V2 /\ e = RangeError "Invalid interval" /\
       ~ (exists lo hi, lowerBound tasks = Some lo /\ upperBound tasks = Some hi /\ lo <= hi))
      \/ (ver = V3plus /\ (exists msg, e = TypeError msg) /\ ~ datesAreTexts tasks)
  | Ok [] =>
      ver = V3plus /\ datesAreTexts tasks /\
      (lowerBound tasks = None \/ upperBound tasks = None)
  | Ok (d :: range) =>
      exists lo hi, lowerBound tasks = Some lo /\ upperBound tasks = Some hi /\
        (ver = V2 -> lo <= hi) /\
        d :: range = sampled now (if hi <? lo then rev (daysOf (dayOf hi) (dayOf lo))
                                  else daysOf (dayOf lo) (dayOf hi))
  end.
Proof.
  destruct (datesAreTexts_dec tasks) as [Htext | Htext].
  2:{ destruct ver.
      - rewrite getTimelineRange_parsed by now left.
        unfold eachDayOfInterval.
        destruct (lowerBound tasks) as [lo|] eqn:Hlo, (upperBound tasks) as [hi|] eqn:Hhi.
        + exfalso. apply Htext, datesRead_datesAreTexts.
          exact (proj2 (bounds_valid tasks lo hi Hlo Hhi)).
        + left. repeat split. intros (lo' & hi' & _ & [=] & _).
        + left. repeat split. intros (lo' & hi' & [=] & _).
        + left. repeat split. intros (lo' & hi' & [=] & _).
      - destruct (getTimelineRange_no_text now tasks Htext) as [msg ->].
        right. repeat split; eauto. }
  rewrite getTimelineRange_parsed by now right.
  unfold eachDayOfInterval.
  destruct ver, (lowerBound tasks) as [lo|], (upperBound tasks) as [hi|]; cbn [rbind].
  - destruct (Z.leb_spec lo hi) as [Hle | Hgt]; cbn [rbind].
    + rewrite daysLoop_daysOf.
      destruct (sampled now _) eqn:Hf.
      * exfalso. revert Hf. apply sampled_head.
        destruct (daysOf_nonempty (dayOf lo) (dayOf hi)) as [l ->];
          [now apply dayOf_mono | discriminate].
      * exists lo, hi. destruct (Z.ltb_spec hi lo); [lia |]. rewrite Hf. auto.
    + left. split; [reflexivity |]. split; [reflexivity |].
      intros (lo' & hi' & [= <-] & [= <-] & Hle). lia.
  - left. split; [reflexivity |]. split; [reflexivity |]. intros (lo' & hi' & _ & [=] & _).
  - left. split; [reflexivity |]. split; [reflexivity |]. intros (lo' & hi' & [=] & _).
  - left. split; [reflexivity |]. split; [reflexivity |]. intros (lo' & hi' & [=] & _).
  - destruct (Z.ltb_spec hi lo) as [Hlt | Hge]; cbn [rbind]; rewrite daysLoop_daysOf.
    + destruct (sampled now _) eqn:Hf.
      * exfalso. revert Hf. apply sampled_head.
        destruct (daysOf_nonempty (dayOf hi) (dayOf lo)) as [l ->];
          [apply dayOf_mono; lia |].
        simpl. intros H. apply app_eq_nil in H as [_ H]. discriminate.
      * exists lo, hi. split; [reflexivity |]. split; [reflexivity |].
        split; [discriminate |]. destruct (Z.ltb_spec hi lo); [| lia]. now rewrite Hf.
    + destruct (sampled now _) eqn:Hf.
      * exfalso. revert Hf. apply sampled_head.
        destruct (daysOf_nonempty (dayOf lo) (dayOf hi)) as [l ->];
          [now apply dayOf_mono | discriminate].
      * exists lo, hi. split; [reflexivity |]. split; [reflexivity |].
        split; [discriminate |]. destruct (Z.ltb_spec hi lo); [lia |]. now rewrite Hf.
  - split; [reflexivity |]. split; [exact Htext | now right].
  - split; [reflexivity |]. split; [exact Htext | now left].
  - split; [reflexivity |]. split; [exact Htext | now left].
Qed.

(** A grid that is not empty: the tasks have an earliest start and a
    latest end, and the grid runs between their days, upwards when the bounds
    are in order and downwards otherwise. *)
Lemma getTimelineRange_shape (ver : version) (now : Z) (tasks : list task) (range : list Z) :
  getTimelineRange ver now tasks = Ok range -> range <> [] ->
  exists s e,
    datesRead tasks /\ earliestStart tasks s /\ latestEnd tasks e /\
    ((s + -3 * msPerDay <= e + 3 * msPerDay /\
      range = gridOf (dayOf s - 3) (dayOf e + 3) now) \/
     (e + 3 * msPerDay < s + -3 * msPerDay /\ ver = V3plus /\
      range = sampled now (rev (daysOf (dayOf e + 3) (dayOf s - 3))))).
Proof.
  intros Hrange Hne.
  pose proof (getTimelineRange_cases ver now tasks) as Hcases.
  rewrite Hrange in Hcases. destruct range as [|d range]; [congruence |].
  destruct Hcases as (lo & hi & Hlo & Hhi & Hord & Hgrid).
  destruct (bounds_valid tasks lo hi Hlo Hhi) as [Hnil Hp].
  destruct (instants_exist tasks Hp Hnil) as (s & e & Hs & He).
  rewrite (lowerBound_earliestStart tasks s Hp Hs) in Hlo.
  rewrite (upperBound_latestEnd tasks e Hp He) in Hhi.
  injection Hlo as <-. injection Hhi as <-.
  exists s, e. split; [exact Hp |]. split; [exact Hs |]. split; [exact He |].
  rewrite !dayOf_addDays in Hgrid.
  replace (dayOf s + -3) with (dayOf s - 3) in Hgrid by lia.
  destruct (Z.ltb_spec (e + 3 * msPerDay) (s + -3 * msPerDay)) as [Hlt | Hge].
  - right. split; [exact Hlt |]. split; [| exact Hgrid].
    destruct ver; [specialize (Hord eq_refl); lia | reflexivity].
  - left. split; [exact Hge |]. rewrite Hgrid. apply Array_filter_daysOf.
Qed.

(** ** The order of the tasks *)

(** *** The insertion sort under a comparator that follows a key *)

Section StableSort.
Context {A : Type}.
Variable cmp : A -> A -> option Z.
Variable key : A -> key3.

Lemma key_lt_trans (x y z : key3) : key_lt x y -> key_lt y z -> key_lt x z.
Proof.
  destruct x as [[x1 x2] x3], y as [[y1 y2] y3], z as [[z1 z2] z3]. cbn. lia.
Qed.

Lemma key_le_trans (x y z : key3) : key_le x y -> key_le y z -> key_le x z.
Proof.
  intros [Hxy | ->] [Hyz | ->]; [left | left | left | right]; eauto using key_lt_trans.
Qed.

Lemma key_le_total (x y : key3) : ~ key_lt y x -> key_le x y.
Proof.
  destruct x as [[x1 x2] x3], y as [[y1 y2] y3]. unfold key_le. cbn. intros H.
  destruct (Z.lt_trichotomy x1 y1) as [?|[?|?]]; [left; lia | | lia].
  destruct (Z.lt_trichotomy x2 y2) as [?|[?|?]]; [left; lia | | lia].
  destruct (Z.lt_trichotomy x3 y3) as [?|[?|?]]; [left; lia | | lia].
  right. subst. reflexivity.
Qed.

Lemma key_lt_irrefl (x : key3) : ~ key_lt x x.
Proof. destruct x as [[x1 x2] x3]. cbn. lia. Qed.

Lemma key_eqb_eq (x y : key3) : key_eqb x y = true <-> x = y.
Proof.
  destruct x as [[x1 x2] x3], y as [[y1 y2] y3]. cbn.
  rewrite !andb_true_iff, !Z.eqb_eq. split; [intros [[-> ->] ->] | intros [= -> -> ->]]; auto.
Qed.

Lemma In_insertTask (x y : A) (l : list A) :
  In y (insertTask cmp x l) <-> y = x \/ In y l.
Proof.
  induction l as [|z l IH]; cbn; [intuition |].
  destruct (positive_cmp (cmp x z)); cbn; [rewrite IH |]; intuition.
Qed.

Lemma insertTask_perm (x : A) (l : list A) : Permutation (insertTask cmp x l) (x :: l).
Proof.
  induction l as [|z l IH]; cbn; [reflexivity |].
  destruct (positive_cmp (cmp x z)); [| reflexivity].
  rewrite IH. apply perm_swap.
Qed.

Lemma Array_sort_perm (l : list A) : Permutation (Array_sort cmp l) l.
Proof.
  induction l as [|x l IH]; cbn; [reflexivity |].
  rewrite insertTask_perm. now constructor.
Qed.

Lemma In_Array_sort (x : A) (l : list A) : In x (Array_sort cmp l) <-> In x l.
Proof.
  split; apply Permutation_in; [| symmetry]; apply Array_sort_perm.
Qed.

Lemma insertTask_sorted (x : A) (l : list A) :
  follows cmp key (x :: l) ->
  StronglySorted (fun a b => key_le (key a) (key b)) l ->
  StronglySorted (fun a b => key_le (key a) (key b)) (insertTask cmp x l).
Proof.
  intros Hf Hs. induction Hs as [|z l Hs IH Hz]; cbn.
  - repeat constructor.
  - destruct (positive_cmp (cmp x z)) eqn:Hc.
    + apply Hf in Hc; [| now left | right; now left].
      constructor.
      * apply IH. intros a b Ha Hb. apply Hf; cbn in *; intuition.
      * apply List.Forall_forall. intros y Hy. apply In_insertTask in Hy as [-> | Hy].
        -- now left.
        -- rewrite List.Forall_forall in Hz. now apply Hz.
    + assert (Hxz : key_le (key x) (key z)).
      { apply key_le_total. intros Hlt. apply Hf in Hlt; [congruence | now left | right; now left]. }
      constructor; [now constructor |].
      constructor; [exact Hxz |].
      rewrite List.Forall_forall in Hz |- *. intros y Hy.
      eapply key_le_trans; [exact Hxz | now apply Hz].
Qed.

Lemma Array_sort_sorted (l : list A) :
  follows cmp key l -> StronglySorted (fun a b => key_le (key a) (key b)) (Array_sort cmp l).
Proof.
  induction l as [|x l IH]; intros Hf; cbn; [constructor |].
  apply insertTask_sorted.
  - intros a b Ha Hb. apply Hf.
    + destruct Ha as [<- | Ha]; [now left | right; exact (proj1 (In_Array_sort a l) Ha)].
    + destruct Hb as [<- | Hb]; [now left | right; exact (proj1 (In_Array_sort b l) Hb)].
  - apply IH. intros a b Ha Hb. apply Hf; now right.
Qed.

(** Stability: the elements of any one key keep their input order. *)
Lemma insertTask_stable (k : key3) (x : A) (l : list A) :
  follows cmp key (x :: l) ->
  List.filter (fun a => key_eqb (key a) k) (insertTask cmp x l)
  = List.filter (fun a => key_eqb (key a) k) (x :: l).
Proof.
  intros Hf. induction l as [|z l IH]; [reflexivity |].
  cbn [insertTask]. destruct (positive_cmp (cmp x z)) eqn:Hc; [| reflexivity].
  apply Hf in Hc; [| now left | right; now left].
  cbn [List.filter]. rewrite IH.
  - cbn [List.filter].
    destruct (key_eqb (key x) k) eqn:Hx, (key_eqb (key z) k) eqn:Hz; try reflexivity.
    apply key_eqb_eq in Hx, Hz. rewrite Hx, Hz in Hc. now apply key_lt_irrefl in Hc.
  - intros a b Ha Hb. apply Hf; cbn in *; intuition.
Qed.

Lemma Array_sort_stable (k : key3) (l : list A) :
  follows cmp key l ->
  List.filter (fun a => key_eqb (key a) k) (Array_sort cmp l)
  = List.filter (fun a => key_eqb (key a) k) l.
Proof.
  induction l as [|x l IH]; intros Hf; [reflexivity |].
  cbn [Array_sort]. rewrite insertTask_stable.
  - cbn [List.filter]. rewrite IH; [reflexivity |].
    intros a b Ha Hb. apply Hf; now right.
  - intros a b Ha Hb. apply Hf.
    + destruct Ha as [<- | Ha]; [now left | right; exact (proj1 (In_Array_sort a l) Ha)].
    + destruct Hb as [<- | Hb]; [now left | right; exact (proj1 (In_Array_sort b l) Hb)].
Qed.

(** A list sorted by the key is determined by the input order within each
    key: two sorted lists that agree key by key are equal.  Every stable sort
    therefore returns what the insertion sort returns. *)
Lemma key_le_antisym (x y : key3) : key_le x y -> key_le y x -> x = y.
Proof.
  intros [Hxy | ->] [Hyx | Heq]; auto.
  exfalso. apply (key_lt_irrefl x). eauto using key_lt_trans.
Qed.

Lemma stable_sorted_unique (l1 : list A) : forall l2 : list A,
  StronglySorted (fun a b => key_le (key a) (key b)) l1 ->
  StronglySorted (fun a b => key_le (key a) (key b)) l2 ->
  (forall k, List.filter (fun a => key_eqb (key a) k) l1
             = List.filter (fun a => key_eqb (key a) k) l2) ->
  l1 = l2.
Proof.
  induction l1 as [|x l1 IH]; intros l2 Hs1 Hs2 Hf.
  - destruct l2 as [|y l2]; [reflexivity |].
    specialize (Hf (key y)). cbn in Hf.
    rewrite (proj2 (key_eqb_eq (key y) (key y)) eq_refl) in Hf. discriminate.
  - assert (Hxx : key_eqb (key x) (key x) = true) by now apply key_eqb_eq.
    destruct l2 as [|y l2].
    { specialize (Hf (key x)). cbn in Hf. rewrite Hxx in Hf. discriminate. }
    assert (Hyy : key_eqb (key y) (key y) = true) by now apply key_eqb_eq.
    inversion Hs1 as [|? ? Hs1' Hx]; subst. inversion Hs2 as [|? ? Hs2' Hy]; subst.
    rewrite List.Forall_forall in Hx, Hy.
    assert (Hxin : In x (y :: l2)).
    { assert (H : In x (List.filter (fun a => key_eqb (key a) (key x)) (y :: l2))).
      { rewrite <- Hf. cbn. rewrite Hxx. now left. }
      now apply filter_In in H. }
    assert (Hyin : In y (x :: l1)).
    { assert (H : In y (List.filter (fun a => key_eqb (key a) (key y)) (x :: l1))).
      { rewrite Hf. cbn. rewrite Hyy. now left. }
      now apply filter_In in H. }
    assert (Hkey : key x = key y).
    { apply key_le_antisym.
      - destruct Hyin as [-> | Hyin]; [now right | now apply Hx].
      - destruct Hxin as [-> | Hxin]; [now right | now apply Hy]. }
    assert (Hxy : x = y).
    { specialize (Hf (key x)). cbn in Hf. rewrite Hxx, <- Hkey, Hxx in Hf. congruence. }
    subst y. f_equal. apply IH; [assumption | assumption |].
    intros k. specialize (Hf k). cbn in Hf.
    destruct (key_eqb (key x) k); congruence.
Qed.

End StableSort.

(** *** The dictionaries of earliest end dates *)

Lemma fold_left_pair {S1 S2 B : Type} (f : S1 -> B -> S1) (g : S2 -> B -> S2) (l : list B) :
  forall a b,
  fold_left (fun st x => (f (fst st) x, g (snd st) x)) l (a, b)
  = (fold_left f l a, fold_left g l b).
Proof.
  induction l as [|x l IH]; intros a b; [reflexivity |]. cbn. apply IH.
Qed.

Lemma earliestAc_fold (tasks : list task) :
  earliestAc tasks = fold_left (earliest_step Aircraft) tasks ∅.
Proof. unfold earliestAc, earliest. now rewrite fold_left_pair. Qed.

Lemma earliestMro_fold (tasks : list task) :
  earliestMro tasks = fold_left (earliest_step MRO) tasks ∅.
Proof. unfold earliestMro, earliest. now rewrite fold_left_pair. Qed.

Lemma leastEnd_unique (same : task -> bool) (tasks : list task) (m m' : Z) :
  leastEnd same tasks m -> leastEnd same tasks m' -> m = m'.
Proof.
  intros [(t & Ht & Hs & He) Hm] [(t' & Ht' & Hs' & He') Hm'].
  pose proof (Hm t' m' Ht' Hs' He'). pose proof (Hm' t m Ht Hs He). lia.
Qed.

Section Earliest.
Variable key : task -> string.

(** What the dictionary holds after the [forEach], where no key is an
    inherited name: no entry for a key no task has, and the least end date of
    the group otherwise. *)
Lemma earliest_fold_spec (tasks : list task) :
  endsParse tasks ->
  Forall (fun t => inherited (key t) = false) tasks ->
  forall k,
    match fold_left (earliest_step key) tasks ∅ !! k with
    | None => forall t, In t tasks -> key t <> k
    | Some None => False
    | Some (Some m) => leastEnd (fun t => String.eqb (key t) k) tasks m
    end.
Proof.
  induction tasks as [|t tasks IH] using rev_ind; intros Hp Hown k.
  - cbn. rewrite lookup_empty. intros t [].
  - apply Forall_app in Hp as [Hp Ht].
    apply Forall_app in Hown as [Hown Hot].
    inversion Ht as [|? ? [e He] _]; subst.
    inversion Hot as [|? ? Hkt _]; subst.
    rewrite fold_left_app. cbn [fold_left].
    set (m0 := fold_left (earliest_step key) tasks ∅) in *.
    specialize (IH Hp Hown).
    unfold earliest_step. rewrite He, Hkt.
    destruct (decide (key t = k)) as [<- | Hk].
    + pose proof (IH (key t)) as IHk.
      destruct (m0 !! key t) as [[c|]|] eqn:Hm0; [| destruct IHk |].
      * cbn [date_ltb]. destruct (Z.ltb_spec e c) as [Hlt | Hge].
        -- rewrite lookup_insert_eq. split.
           ++ exists t. rewrite in_app_iff, String.eqb_refl. cbn. auto.
           ++ intros t' e' Hin Hs He'. apply in_app_iff in Hin as [Hin | [<- | []]].
              ** destruct IHk as [_ Hall]. pose proof (Hall t' e' Hin Hs He'). lia.
              ** rewrite He in He'. injection He' as <-. lia.
        -- rewrite Hm0. destruct IHk as [(t0 & Hin0 & Hs0 & He0) Hall]. split.
           ++ exists t0. rewrite in_app_iff. auto.
           ++ intros t' e' Hin Hs He'. apply in_app_iff in Hin as [Hin | [<- | []]].
              ** now apply (Hall t' e').
              ** rewrite He in He'. injection He' as <-. lia.
      * rewrite lookup_insert_eq. split.
        -- exists t. rewrite in_app_iff, String.eqb_refl. cbn. auto.
        -- intros t' e' Hin Hs He'. apply in_app_iff in Hin as [Hin | [<- | []]].
           ++ apply String.eqb_eq in Hs. now apply IHk in Hin.
           ++ rewrite He in He'. injection He' as <-. lia.
    + cbv zeta.
      assert (Hsame : (match m0 !! key t with
                       | Some cur => if date_ltb (Some e) cur then <[key t := Some e]> m0 else m0
                       | None => <[key t := Some e]> m0
                       end) !! k = m0 !! k).
      { destruct (m0 !! key t) as [cur|]; [destruct (date_ltb (Some e) cur) |];
          try reflexivity; now apply lookup_insert_ne. }
      rewrite Hsame. specialize (IH k).
      destruct (m0 !! k) as [[c|]|]; [| exact IH |].
      * destruct IH as [(t0 & Hin0 & Hs0 & He0) Hall]. split.
        -- exists t0. rewrite in_app_iff. auto.
        -- intros t' e' Hin Hs He'. apply in_app_iff in Hin as [Hin | [<- | []]].
           ++ now apply (Hall t' e').
           ++ apply String.eqb_eq in Hs. contradiction.
      * intros t' Hin. apply in_app_iff in Hin as [Hin | [<- | []]]; [now apply IH | exact Hk].
Qed.

End Earliest.

Lemma fold_left_Zmin (zs : list Z) : forall a,
  let m := fold_left Z.min zs a in
  m <= a /\ (m = a \/ In m zs) /\ (forall z, In z zs -> m <= z).
Proof.
  induction zs as [|z zs IH]; intros a; cbn.
  - repeat split; [lia | now left | intros z []].
  - destruct (IH (Z.min a z)) as (Hle & Hin & Hall).
    remember (fold_left Z.min zs (Z.min a z)) as m eqn:Hm. clear Hm.
    repeat split.
    + lia.
    + destruct Hin as [Hin | Hin]; [| right; now right].
      destruct (Z.min_spec a z) as [[_ Hmin] | [_ Hmin]]; [left | right; left]; lia.
    + intros z' [<- | Hz']; [lia | now apply Hall].
Qed.

(** [minEnd] is the least end date of a group that has a task. *)
Lemma minEnd_leastEnd (same : task -> bool) (tasks : list task) (t0 : task) :
  endsParse tasks -> In t0 tasks -> same t0 = true ->
  leastEnd same tasks (minEnd same tasks).
Proof.
  intros Hp Hin0 Hs0.
  assert (Hend : forall t, In t tasks -> Date_new (End_Date t) = Some (endOf t)).
  { intros t Ht. unfold endsParse in Hp. rewrite List.Forall_forall in Hp.
    destruct (Hp t Ht) as [e He].
    unfold endOf. now rewrite He. }
  assert (Hf : In t0 (List.filter same tasks)) by now apply filter_In.
  unfold minEnd.
  destruct (List.filter same tasks) as [|t ts] eqn:Hfl; [destruct Hf |].
  assert (Hsub : forall x, In x (t :: ts) -> In x tasks /\ same x = true).
  { intros x Hx. rewrite <- Hfl in Hx. now apply filter_In in Hx. }
  destruct (fold_left_Zmin (map endOf ts) (endOf t)) as (Hle & Hmem & Hall).
  split.
  - destruct Hmem as [Hmem | Hmem].
    + exists t. destruct (Hsub t (or_introl eq_refl)) as [Ht Hs].
      repeat split; [exact Ht | exact Hs |]. rewrite Hmem. now apply Hend.
    + apply in_map_iff in Hmem as (x & Hx & Hxin).
      exists x. destruct (Hsub x (or_intror Hxin)) as [Ht Hs].
      repeat split; [exact Ht | exact Hs |]. rewrite <- Hx. now apply Hend.
  - intros x e Hx Hs He.
    assert (Hxf : In x (t :: ts)) by (rewrite <- Hfl; now apply filter_In).
    rewrite (Hend x Hx) in He. injection He as <-.
    destruct Hxf as [<- | Hxf]; [exact Hle |].
    apply Hall. now apply in_map.
Qed.

(** The entry the comparator reads for a task of the list is the minimum
    end date of its group. *)
Lemma entry_minEnd (key : task -> string) (tasks : list task) (a : task) :
  endsParse tasks -> Forall (fun t => inherited (key t) = false) tasks ->
  In a tasks ->
  entry (fold_left (earliest_step key) tasks ∅) (key a)
  = Some (minEnd (fun t => String.eqb (key t) (key a)) tasks).
Proof.
  intros Hp Hown Ha. unfold entry.
  pose proof (earliest_fold_spec key tasks Hp Hown (key a)) as Hspec.
  destruct (fold_left (earliest_step key) tasks ∅ !! key a) as [[m|]|].
  - cbn. f_equal. eapply leastEnd_unique; [exact Hspec |].
    apply (minEnd_leastEnd _ tasks a Hp Ha). apply String.eqb_refl.
  - destruct Hspec.
  - exfalso. now apply (Hspec a Ha).
Qed.

Lemma ownNames_MRO (tasks : list task) :
  ownNames tasks -> Forall (fun t => inherited (MRO t) = false) tasks.
Proof. intros H. eapply List.Forall_impl; [| exact H]. now intros t [? _]. Qed.

Lemma ownNames_Aircraft (tasks : list task) :
  ownNames tasks -> Forall (fun t => inherited (Aircraft t) = false) tasks.
Proof. intros H. eapply List.Forall_impl; [| exact H]. now intros t [_ ?]. Qed.

(** On a list whose end dates the [Date] constructor reads and whose
    facilities and aircraft carry no inherited name, the comparator follows
    the three keys. *)
Lemma compareTasks_follows (tasks : list task) :
  endsParse tasks -> ownNames tasks ->
  follows (compareTasks (earliestAc tasks) (earliestMro tasks)) (triageKey tasks) tasks.
Proof.
  intros Hp Hown a b Ha Hb.
  unfold compareTasks, triageKey, facilityKey, aircraftKey.
  rewrite earliestAc_fold, earliestMro_fold.
  rewrite !(entry_minEnd MRO tasks) by (try assumption; now apply ownNames_MRO).
  rewrite !(entry_minEnd Aircraft tasks) by (try assumption; now apply ownNames_Aircraft).
  set (fa := minEnd _ tasks). set (fb := minEnd _ tasks).
  set (ca := minEnd _ tasks). set (cb := minEnd _ tasks).
  unfold endsParse in Hp. rewrite List.Forall_forall in Hp.
  destruct (Hp a Ha) as [ea Hea], (Hp b Hb) as [eb Heb].
  unfold endOf. rewrite Hea, Heb. cbn [date_sub nonzero default key_lt].
  unfold id. clearbody fa fb ca cb.
  destruct (Z.eqb_spec (fa - fb) 0) as [H1 | H1]; cbn [negb].
  - destruct (Z.eqb_spec (ca - cb) 0) as [H2 | H2]; cbn [negb positive_cmp].
    + rewrite Z.ltb_lt. lia.
    + rewrite Z.ltb_lt. lia.
  - cbn [positive_cmp]. rewrite Z.ltb_lt. lia.
Qed.

(** *** The rows of the body follow the sorted tasks *)

Lemma taskRows_fold (range : list Z) (today : Z) (tasks : list task) :
  forall st,
  List.filter isTaskRow (fst (fst (fold_left (row_step range today) tasks st)))
  = (List.filter isTaskRow (fst (fst st)) ++ map (taskRow range today) tasks)%list.
Proof.
  induction tasks as [|t tasks IH]; intros st.
  - cbn. now rewrite app_nil_r.
  - cbn [fold_left map]. rewrite IH. clear IH.
    destruct st as [[rows lastMro] lastAc]. unfold row_step.
    destruct (negb (String.eqb (MRO t) lastMro));
      destruct (negb (String.eqb lastMro ""));
      destruct (negb (String.eqb (Aircraft t) _));
      cbn [fst snd]; rewrite ?List.filter_app; cbn [List.filter isTaskRow taskRow];
      rewrite ?app_nil_r, <- ?app_assoc; reflexivity.
Qed.

Lemma taskRows_bodyRows (range : list Z) (today : Z) (tasks : list task) :
  List.filter isTaskRow (bodyRows range today tasks) = map (taskRow range today) tasks.
Proof. unfold bodyRows. now rewrite taskRows_fold. Qed.

(** *** When the builder returns *)

Lemma sortTasks_perm (tasks : list task) : Permutation (sortTasks tasks) tasks.
Proof. apply Array_sort_perm. Qed.

Lemma In_sortTasks (t : task) (tasks : list task) : In t (sortTasks tasks) <-> In t tasks.
Proof. apply In_Array_sort. Qed.

Lemma datesParse_sortTasks (tasks : list task) :
  datesParse tasks -> datesParse (sortTasks tasks).
Proof.
  unfold datesParse. rewrite !List.Forall_forall. intros H t Ht.
  apply H. now apply In_sortTasks.
Qed.

Lemma leastStart_sortTasks (tasks : list task) (m : Z) :
  leastStart tasks m -> leastStart (sortTasks tasks) m.
Proof.
  intros [(t & Ht & Hs) Hall]. split.
  - exists t. split; [now apply In_sortTasks | exact Hs].
  - intros t' s Ht'. apply Hall. now apply In_sortTasks.
Qed.

Lemma greatestEnd_sortTasks (tasks : list task) (m : Z) :
  greatestEnd tasks m -> greatestEnd (sortTasks tasks) m.
Proof.
  intros [(t & Ht & Hs) Hall]. split.
  - exists t. split; [now apply In_sortTasks | exact Hs].
  - intros t' s Ht'. apply Hall. now apply In_sortTasks.
Qed.

Lemma generateMonthHeader_nonempty (range : list Z) :
  range <> [] -> exists months, generateMonthHeader range = Ok months.
Proof.
  destruct range as [|d0 range]; [congruence |]. intros _. cbn. eauto.
Qed.

(** What [buildDocument] returns is read off its three steps. *)
Lemma buildDocument_Ok (ver : version) (now : Z) (tasks : list task) (doc : document) :
  buildDocument ver now tasks = Ok doc ->
  exists range,
    getTimelineRange ver now (sortTasks tasks) = Ok range /\
    body doc = bodyRows range now (sortTasks tasks) /\
    colgroup doc = length range.
Proof.
  unfold buildDocument.
  destruct (getTimelineRange ver now (sortTasks tasks)) as [range|]; [| discriminate].
  cbn [rbind]. destruct (generateMonthHeader range) as [months|]; [| discriminate].
  cbn [rbind]. intros [= <-]. exists range. auto.
Qed.

(** On calendar dates whose bounds are in order the builder returns a
    document, laid on the grid of the specification. *)
Lemma buildDocument_returns (ver : version) (now : Z) (tasks : list task) (m M : Z) :
  datesParse tasks -> leastStart tasks m -> greatestEnd tasks M -> m - 3 <= M + 3 ->
  getTimelineRange ver now (sortTasks tasks) = Ok (gridOf (m - 3) (M + 3) now) /\
  exists doc, buildDocument ver now tasks = Ok doc.
Proof.
  intros Hp Hm HM Hle.
  assert (Hgrid : getTimelineRange ver now (sortTasks tasks) = Ok (gridOf (m - 3) (M + 3) now)).
  { apply getTimelineRange_gridOf; [| | | exact Hle].
    - now apply datesParse_sortTasks.
    - now apply leastStart_sortTasks.
    - now apply greatestEnd_sortTasks. }
  split; [exact Hgrid |].
  unfold buildDocument. rewrite Hgrid. cbn [rbind].
  destruct (generateMonthHeader_nonempty (gridOf (m - 3) (M + 3) now)) as [months Hmonths].
  - intros Hnil.
    assert (Hin : In (m - 3) (gridOf (m - 3) (M + 3) now)).
    { apply In_gridOf. split; [lia |]. left. now rewrite Z.sub_diag. }
    rewrite Hnil in Hin. destruct Hin.
  - rewrite Hmonths. cbn [rbind]. eauto.
Qed.

(** What a returned document is made of. *)
Lemma buildDocument_inv (ver : version) (now : Z) (tasks : list task) (doc : document) :
  buildDocument ver now tasks = Ok doc ->
  exists range months,
    getTimelineRange ver now (sortTasks tasks) = Ok range /\
    generateMonthHeader range = Ok months /\
    doc = {| track_bar := track_bar_style;
             colgroup := length range;
             month_header := months;
             day_headers := generateDayHeader range now;
             body := bodyRows range now (sortTasks tasks) |}.
Proof.
  unfold buildDocument. intros H.
  destruct (getTimelineRange ver now (sortTasks tasks)) as [range | e]; [| discriminate].
  cbn [rbind] in H.
  destruct (generateMonthHeader range) as [months | e] eqn:Hmonths; [| discriminate].
  cbn [rbind] in H. injection H as <-. exists range, months.
  split; [reflexivity | split; [exact Hmonths | reflexivity]].
Qed.

(** The rows of the tasks of a returned document, from the top, are the
    rows of the tasks in the order of the sort, laid on a grid that is not
    empty. *)
Lemma taskRows_document (ver : version) (now : Z) (tasks : list task) (doc : document) :
  buildDocument ver now tasks = Ok doc ->
  exists range,
    getTimelineRange ver now (sortTasks tasks) = Ok range /\ range <> [] /\
    track_bar doc = track_bar_style /\
    taskRows doc = map (taskRow range now) (sortTasks tasks).
Proof.
  intros Hdoc.
  apply buildDocument_inv in Hdoc as (range & months & Hrange & Hmonths & ->).
  exists range. split; [exact Hrange |]. split; [| split; [reflexivity |]].
  - intros ->. discriminate Hmonths.
  - unfold taskRows. cbn [body]. apply taskRows_bodyRows.
Qed.

(** The row a returned document holds for a task of the list. *)
Lemma taskRow_in (range : list Z) (now : Z) (tasks : list task) (doc : document)
    (t : task) :
  taskRows doc = map (taskRow range now) (sortTasks tasks) -> In t tasks ->
  In (task_row (Component_Group t) (warnClass (Warning t)) (warnText (Warning t))
        (cellsOf range now t))
    (taskRows doc).
Proof.
  intros -> Ht. apply (in_map (taskRow range now)). now apply In_sortTasks.
Qed.

(** *** The builder on the heap *)

(** Run on a heap that holds the caller's array, [buildHTML] returns what
    [buildDocument] returns on its elements, and leaves one more array, the
    sorted copy. *)
Lemma buildHTML_run (ver : version) (now : Z) (h : heap) (a : ref) (tasks : list task) :
  h !! a = Some tasks ->
  buildHTML ver now a h
  = (buildDocument ver now tasks, <[fresh (dom h) := sortTasks tasks]> h).
Proof.
  intros Ha.
  unfold buildHTML, GanttBuilder.bind, spread at 1. rewrite Ha.
  unfold readArray at 1. rewrite lookup_insert_eq.
  unfold sortInPlace. rewrite lookup_insert_eq, insert_insert_eq.
  unfold readArray. rewrite lookup_insert_eq.
  unfold lift, ret, buildDocument. fold (sortTasks tasks).
  destruct (getTimelineRange ver now (sortTasks tasks)) as [range|e]; [| reflexivity].
  cbn [rbind]. destruct (generateMonthHeader range) as [months|e]; reflexivity.
Qed.

(** *** The order buildHTML renders *)

(** C2, as amended: on a list whose End Date fields the [Date]
    constructor reads as dates, and in which no facility and no aircraft is
    called by the name of a property every object inherits, [buildHTML]
    renders the tasks in the order of a stable sort by three ascending keys:
    the minimum end of the task's facility, the minimum end of the task's
    aircraft taken over the tasks of every facility, and the task's own end,
    each end being the instant the [Date] constructor reads; tasks that agree
    on the three keys keep their input order, and no other arrangement of the
    list is sorted and stable in this sense.  The rows of the tasks stand in
    the document in that order. *)
Theorem buildHTML_triage_order (ver : version) (now : Z) (h : heap) (a : ref)
    (tasks : list task) :
  h !! a = Some tasks -> endsParse tasks -> ownNames tasks ->
  Permutation (sortTasks tasks) tasks /\
  StronglySorted (fun x y => key_le (triageKey tasks x) (triageKey tasks y))
    (sortTasks tasks) /\
  (forall k,
     List.filter (fun t => key_eqb (triageKey tasks t) k) (sortTasks tasks)
     = List.filter (fun t => key_eqb (triageKey tasks t) k) tasks) /\
  (forall s,
     StronglySorted (fun x y => key_le (triageKey tasks x) (triageKey tasks y)) s ->
     (forall k, List.filter (fun t => key_eqb (triageKey tasks t) k) s
                = List.filter (fun t => key_eqb (triageKey tasks t) k) tasks) ->
     s = sortTasks tasks) /\
  (forall t, In t tasks ->
     leastEnd (fun x => String.eqb (MRO x) (MRO t)) tasks (facilityKey tasks t) /\
     leastEnd (fun x => String.eqb (Aircraft x) (Aircraft t)) tasks (aircraftKey tasks t) /\
     Date_new (End_Date t) = Some (endOf t)) /\
  (forall doc, fst (buildHTML ver now a h) = Ok doc ->
     exists range,
       getTimelineRange ver now (sortTasks tasks) = Ok range /\
       List.filter isTaskRow (body doc) = map (taskRow range now) (sortTasks tasks)) /\
  (forall m M, datesParse tasks -> leastStart tasks m -> greatestEnd tasks M ->
     m - 3 <= M + 3 -> is_Ok (fst (buildHTML ver now a h))).
Proof.
  intros Ha Hp Hown.
  pose proof (compareTasks_follows tasks Hp Hown) as Hf.
  split; [apply sortTasks_perm |].
  split; [now apply Array_sort_sorted |].
  split; [intros k; now apply Array_sort_stable |].
  split; [| split; [| split]].
  - intros s Hs Hstable. apply (stable_sorted_unique (triageKey tasks)).
    + exact Hs.
    + now apply Array_sort_sorted.
    + intros k. rewrite Hstable. symmetry. now apply Array_sort_stable.
  - intros t Ht. split; [| split].
    + apply (minEnd_leastEnd _ tasks t Hp Ht), String.eqb_refl.
    + apply (minEnd_leastEnd _ tasks t Hp Ht), String.eqb_refl.
    + unfold endsParse in Hp. rewrite List.Forall_forall in Hp.
      destruct (Hp t Ht) as [e He]. unfold endOf. now rewrite He.
  - intros doc. rewrite (buildHTML_run ver now h a tasks Ha). cbn [fst]. intros Hdoc.
    apply buildDocument_Ok in Hdoc as (range & Hrange & Hbody & _).
    exists range. split; [exact Hrange |]. rewrite Hbody. apply taskRows_bodyRows.
  - intros m M Hd Hm HM Hle. rewrite (buildHTML_run ver now h a tasks Ha). cbn [fst].
    destruct (buildDocument_returns ver now tasks m M Hd Hm HM Hle) as [_ [doc ->]].
    exact I.
Qed.

Lemma twoFacilities_ends : endsParse twoFacilities.
Proof. repeat constructor; eexists; reflexivity. Qed.

Lemma twoFacilities_names : ownNames twoFacilities.
Proof. repeat constructor. Qed.

Lemma buildHTML_triage_order_witness :
  Permutation (sortTasks twoFacilities) twoFacilities /\
  sortTasks twoFacilities = [taskB2; taskB1; taskA1].
Proof.
  split; [| reflexivity].
  apply (buildHTML_triage_order V2 0 (heapOf twoFacilities) 1%positive twoFacilities).
  - reflexivity.
  - repeat constructor; eexists; reflexivity.
  - repeat constructor.
Defined.

(** C2 as stated fails where an aircraft has tasks in two facilities: within
    facility F1 the pair (F1, A) ends first, on day 3, before the pair
    (F1, B) on day 5, yet the row of B comes before the row of A, because the
    code keys the aircraft by its earliest end date anywhere, day 1 in F2. *)
Lemma buildHTML_pair_key_counterexample :
  endsParse twoFacilities /\ ownNames twoFacilities /\
  statedKey twoFacilities taskA1 = (midnight 3, midnight 3, midnight 3) /\
  statedKey twoFacilities taskB1 = (midnight 3, midnight 5, midnight 5) /\
  key_lt (statedKey twoFacilities taskA1) (statedKey twoFacilities taskB1) /\
  exists doc range,
    fst (buildHTML V2 0 1%positive (heapOf twoFacilities)) = Ok doc /\
    List.filter isTaskRow (body doc)
    = [taskRow range 0 taskB2; taskRow range 0 taskB1; taskRow range 0 taskA1].
Proof.
  split; [exact twoFacilities_ends |].
  split; [exact twoFacilities_names |].
  split; [reflexivity |]. split; [reflexivity |].
  split; [vm_compute; right; split; [reflexivity | left; reflexivity] |].
  eexists. exists (gridOf (-3) 8 0).
  split; vm_compute; reflexivity.
Qed.

(** ** The caller's array *)

Lemma buildHTML_dangling (ver : version) (now : Z) (h : heap) (a : ref) :
  h !! a = None -> snd (buildHTML ver now a h) = h.
Proof.
  intros Ha. unfold buildHTML, GanttBuilder.bind, spread at 1. now rewrite Ha.
Qed.

(** C9: [buildHTML] leaves every array of the heap as it was, the caller's
    array among them: the same records in the same order.  The one array it
    writes is the copy it allocates. *)
Theorem buildHTML_keeps_arrays (ver : version) (now : Z) (h : heap) (a r : ref)
    (elems : list task) :
  h !! r = Some elems ->
  snd (buildHTML ver now a h) !! r = Some elems /\
  (forall tasks, h !! a = Some tasks ->
     snd (buildHTML ver now a h) !! a = Some tasks /\
     fresh (dom h) <> a /\
     snd (buildHTML ver now a h) !! fresh (dom h) = Some (sortTasks tasks)).
Proof.
  intros Hr.
  assert (Hfresh : forall x l, h !! x = Some l -> fresh (dom h) <> x).
  { intros x l Hx Heq. apply (is_fresh (dom h)). rewrite Heq.
    apply elem_of_dom. now exists l. }
  split.
  - destruct (h !! a) as [tasks|] eqn:Ha.
    + rewrite (buildHTML_run ver now h a tasks Ha). cbn [snd].
      rewrite lookup_insert_ne; [exact Hr | now apply (Hfresh r elems)].
    + now rewrite (buildHTML_dangling ver now h a Ha).
  - intros tasks Ha. rewrite (buildHTML_run ver now h a tasks Ha). cbn [snd].
    split; [| split].
    + rewrite lookup_insert_ne; [exact Ha | now apply (Hfresh a tasks)].
    + now apply (Hfresh a tasks).
    + apply lookup_insert_eq.
Qed.

Lemma buildHTML_keeps_arrays_witness :
  snd (buildHTML V2 0 1%positive (heapOf twoFacilities)) !! 1%positive
  = Some [taskA1; taskB1; taskB2].
Proof.
  assert (Hcaller : heapOf twoFacilities !! 1%positive = Some twoFacilities)
    by reflexivity.
  exact (proj1 (buildHTML_keeps_arrays V2 0 (heapOf twoFacilities) 1%positive 1%positive
                  twoFacilities Hcaller)).
Defined.

(** ** The span layout *)

Section CellFacts.
Variable range : list Z.
Variable today : Z.
Variables start end_ : date.
Variable warn : css_class.
Variable pct : float.

Abbreviation cells := (cellsFrom range today start end_ warn pct).
Abbreviation within := (inInterval start end_).
Abbreviation plain := (fun d : Z => plain_cell (d =? today)).
Abbreviation theBar := (fill_cell (barOf (spanOf range start end_) warn pct)).

(** One turn of the inner loop. *)
Lemma cellsFrom_unfold (i : nat) (placed : bool) :
  cells i placed =
  match range !! i with
  | None => []
  | Some d =>
      if negb placed && within d
      then theBar :: cells (i + spanOf range start end_)%nat true
      else plain d :: cells (S i) placed
  end.
Proof.
  rewrite cellsFrom_equation_1.
  assert (G : forall (o : option Z) (e : range !! i = o),
             cellsFrom_unfold_clause_1 range today start end_ warn pct i (exist _ o e) placed
             = match o with
               | None => []
               | Some d =>
                   if negb placed && within d
                   then theBar :: cells (i + spanOf range start end_)%nat true
                   else plain d :: cells (S i) placed
               end).
  { intros [d|] e;
      [rewrite cellsFrom_clause_1_equation_1 | now rewrite cellsFrom_clause_1_equation_2].
    assert (G2 : forall (b : bool) (e0 : negb placed && within d = b),
               cellsFrom_unfold_clause_1_clause_2 range today start end_ warn pct i d e
                 placed (exist _ b e0)
               = if b
                 then theBar :: cells (i + spanOf range start end_)%nat true
                 else plain d :: cells (S i) placed).
    { intros [|] e0;
        [now rewrite cellsFrom_clause_1_clause_2_equation_1
        | now rewrite cellsFrom_clause_1_clause_2_equation_2]. }
    apply G2. }
  apply G.
Qed.


(** Once the bar is placed, or where no grid day is within the interval,
    the loop emits one plain cell per remaining column. *)
Lemma cellsFrom_plain (n : nat) : forall (i : nat) (placed : bool),
  (length range - i = n)%nat ->
  (forall j d, (i <= j)%nat -> range !! j = Some d -> negb placed && within d = false) ->
  cells i placed = map plain (drop i range).
Proof.
  induction n as [|n IH]; intros i placed Hn Hno; rewrite cellsFrom_unfold.
  - rewrite lookup_ge_None_2 by lia. now rewrite drop_ge by lia.
  - destruct (lookup_lt_is_Some_2 range i) as [d Hd]; [lia |].
    rewrite Hd, (Hno i d (le_n i) Hd).
    rewrite (drop_S range d i Hd). cbn [map]. f_equal.
    apply IH; [lia |]. intros j d' Hj. apply Hno. lia.
Qed.

Lemma filter_none {A : Type} (f : A -> bool) (l : list A) :
  Forall (fun x => f x = false) l -> List.filter f l = [].
Proof. induction 1 as [|x l Hx _ IH]; cbn; [reflexivity | now rewrite Hx]. Qed.

Lemma filter_all {A : Type} (f : A -> bool) (l : list A) :
  Forall (fun x => f x = true) l -> List.filter f l = l.
Proof. induction 1 as [|x l Hx _ IH]; cbn; [reflexivity | rewrite Hx; now f_equal]. Qed.

Section Split.
Variables l1 l2 l3 : list Z.
Hypothesis Hsplit : split3 range start end_ l1 l2 l3.

Lemma spanOf_split : spanOf range start end_ = length l2.
Proof using Hsplit.
  destruct Hsplit as (-> & H1 & H2 & H3). unfold spanOf.
  rewrite !List.filter_app, (filter_none _ l1 H1), (filter_all _ l2 H2), (filter_none _ l3 H3).
  cbn. now rewrite app_nil_r.
Qed.

Lemma lookup_split1 (j : nat) (d : Z) :
  (j < length l1)%nat -> range !! j = Some d -> within d = false.
Proof using Hsplit.
  destruct Hsplit as (-> & H1 & _). intros Hj. rewrite lookup_app_l by exact Hj.
  intros Hd. rewrite List.Forall_forall in H1. apply H1.
  apply list_elem_of_In. eapply list_elem_of_lookup_2, Hd.
Qed.

Lemma lookup_split3 (j : nat) (d : Z) :
  (length l1 + length l2 <= j)%nat -> range !! j = Some d -> within d = false.
Proof using Hsplit.
  destruct Hsplit as (-> & _ & _ & H3). intros Hj.
  rewrite app_assoc, lookup_app_r by (rewrite length_app; lia).
  intros Hd. rewrite List.Forall_forall in H3. apply H3.
  apply list_elem_of_In. eapply list_elem_of_lookup_2, Hd.
Qed.

Lemma drop_split3 : drop (length l1 + length l2) range = l3.
Proof using Hsplit.
  destruct Hsplit as (-> & _). rewrite app_assoc.
  rewrite drop_app_length'; [reflexivity | now rewrite length_app].
Qed.

(** The plain cells before the interval. *)
Lemma cellsFrom_before (n : nat) : forall i,
  (length l1 - i = n)%nat -> (i <= length l1)%nat ->
  cells i false = (map plain (drop i l1) ++ cells (length l1) false)%list.
Proof using Hsplit.
  induction n as [|n IH]; intros i Hn Hi.
  - replace i with (length l1) by lia. now rewrite drop_all.
  - rewrite cellsFrom_unfold.
    destruct (lookup_lt_is_Some_2 l1 i) as [d Hd]; [lia |].
    assert (Hr : range !! i = Some d).
    { destruct Hsplit as (-> & _). rewrite lookup_app_l by lia. exact Hd. }
    rewrite Hr, (lookup_split1 i d) by (lia || assumption).
    cbn [negb andb]. rewrite (drop_S l1 d i Hd). cbn [map app]. f_equal.
    apply IH; lia.
Qed.

(** The cells of a row: plain cells before the interval, one bar over the
    columns within it when there are any, plain cells after. *)
Lemma cellsFrom_split :
  cells 0 false =
  (map plain l1
   ++ (match l2 with [] => [] | _ :: _ => [theBar] end)
   ++ map plain l3)%list.
Proof using Hsplit.
  rewrite (cellsFrom_before (length l1) 0) by lia.
  rewrite drop_0. f_equal.
  pose proof drop_split3 as Hdrop. pose proof spanOf_split as Hspan.
  pose proof lookup_split3 as Hafter.
  destruct Hsplit as (Hr & _ & H2 & _).
  destruct l2 as [|d l2'].
  - cbn [app]. cbn in Hdrop. rewrite Nat.add_0_r in Hdrop.
    rewrite (cellsFrom_plain (length range - length l1) (length l1) false eq_refl).
    + now rewrite Hdrop.
    + intros j d Hj Hd. cbn [negb andb].
      apply (Hafter j d); [cbn; lia | exact Hd].
  - rewrite cellsFrom_unfold.
    assert (Hd : range !! length l1 = Some d).
    { rewrite Hr, lookup_app_r by lia. now rewrite Nat.sub_diag. }
    assert (Hin : within d = true) by now inversion H2.
    rewrite Hd, Hin. cbn [negb andb app]. f_equal.
    rewrite Hspan.
    rewrite (cellsFrom_plain (length range - (length l1 + length (d :: l2')))
               (length l1 + length (d :: l2')) true eq_refl).
    + now rewrite Hdrop.
    + intros j d' Hj Hd'. reflexivity.
Qed.

Lemma barColumnsFrom_plain (l : list Z) (rest : list cell) : forall col,
  barColumnsFrom col (map plain l ++ rest) = barColumnsFrom (col + length l) rest.
Proof.
  induction l as [|d l IH]; intros col; cbn.
  - now rewrite Nat.add_0_r.
  - rewrite IH. f_equal. lia.
Qed.

Lemma barColumns_split : barColumns (cells 0 false) = seq (length l1) (length l2).
Proof using Hsplit.
  unfold barColumns. rewrite cellsFrom_split, barColumnsFrom_plain. cbn [Nat.add].
  pose proof spanOf_split as Hspan. clear Hsplit.
  destruct l2 as [|d l2']; cbn [app].
  - rewrite <- (app_nil_r (map plain l3)), barColumnsFrom_plain. reflexivity.
  - cbn [barColumnsFrom barOf colspan]. rewrite Hspan.
    rewrite <- (app_nil_r (map plain l3)), barColumnsFrom_plain. cbn [barColumnsFrom].
    now rewrite app_nil_r.
Qed.

Lemma filter_seq_none (f : nat -> bool) (a n : nat) :
  (forall j, (a <= j < a + n)%nat -> f j = false) -> List.filter f (seq a n) = [].
Proof.
  intros H. apply filter_none, List.Forall_forall. intros j Hj.
  apply in_seq in Hj. now apply H.
Qed.

Lemma filter_seq_all (f : nat -> bool) (a n : nat) :
  (forall j, (a <= j < a + n)%nat -> f j = true) -> List.filter f (seq a n) = seq a n.
Proof.
  intros H. apply filter_all, List.Forall_forall. intros j Hj.
  apply in_seq in Hj. now apply H.
Qed.

Lemma columnsWithin_split :
  columnsWithin range start end_ = seq (length l1) (length l2).
Proof using Hsplit.
  unfold columnsWithin.
  assert (Hlen : length range = (length l1 + (length l2 + length l3))%nat).
  { destruct Hsplit as (-> & _). now rewrite !length_app. }
  rewrite Hlen, !seq_app, !List.filter_app. cbn [Nat.add].
  rewrite filter_seq_none, filter_seq_all, filter_seq_none.
  - cbn. now rewrite app_nil_r.
  - intros j Hj. destruct (range !! j) as [d|] eqn:Hd; [| reflexivity].
    apply (lookup_split3 j d); [lia | exact Hd].
  - intros j Hj. destruct Hsplit as (Hr & _ & H2 & _).
    rewrite Hr, lookup_app_r, lookup_app_l by lia.
    destruct (lookup_lt_is_Some_2 l2 (j - length l1)) as [d Hd]; [lia |].
    rewrite Hd. rewrite List.Forall_forall in H2. apply H2.
    apply list_elem_of_In. eapply list_elem_of_lookup_2, Hd.
  - intros j Hj. destruct (range !! j) as [d|] eqn:Hd; [| reflexivity].
    apply (lookup_split1 j d); [lia | exact Hd].
Qed.

Lemma barsOf_plain (l : list Z) : barsOf (map plain l) = [].
Proof. induction l as [|d l IH]; [reflexivity | exact IH]. Qed.

Lemma barsOf_split :
  barsOf (cells 0 false) = match l2 with [] => [] | _ :: _ => [theBar] end.
Proof using Hsplit.
  rewrite cellsFrom_split. unfold barsOf. rewrite !List.filter_app.
  fold (barsOf (map plain l1)). fold (barsOf (map plain l3)).
  rewrite !barsOf_plain. clear Hsplit. destruct l2; cbn; reflexivity.
Qed.

Lemma columnsFilled_plain (l : list Z) : columnsFilled (map plain l) = length l.
Proof.
  unfold columnsFilled, list_sum.
  induction l as [|d l IH]; cbn [map fold_right]; [reflexivity |].
  rewrite IH. reflexivity.
Qed.

Lemma columnsFilled_app (c1 c2 : list cell) :
  columnsFilled (c1 ++ c2) = (columnsFilled c1 + columnsFilled c2)%nat.
Proof. unfold columnsFilled. now rewrite map_app, list_sum_app. Qed.

Lemma columnsFilled_split : columnsFilled (cells 0 false) = length range.
Proof using Hsplit.
  rewrite cellsFrom_split, !columnsFilled_app, !columnsFilled_plain.
  pose proof spanOf_split as Hspan.
  assert (Hlen : length range = (length l1 + (length l2 + length l3))%nat).
  { destruct Hsplit as (-> & _). now rewrite !length_app. }
  rewrite Hlen. clear Hlen Hsplit.
  destruct l2 as [|d l2']; [reflexivity |].
  unfold columnsFilled, list_sum. cbn [map fold_right barOf colspan].
  rewrite Hspan. cbn [length]. lia.
Qed.

(** No bar exactly when no grid day is within the interval. *)
Lemma barsOf_nil_iff :
  barsOf (cells 0 false) = [] <-> (forall d, In d range -> within d = false).
Proof using Hsplit.
  rewrite barsOf_split. destruct Hsplit as (Hr & H1 & H2 & H3).
  destruct l2 as [|d l2']; split.
  - intros _ x Hx. rewrite Hr in Hx. rewrite List.Forall_forall in H1, H3.
    apply in_app_iff in Hx as [Hx | Hx]; [now apply H1 | now apply H3].
  - reflexivity.
  - discriminate.
  - intros Hno. inversion H2 as [|? ? Hd _]; subst.
    rewrite (Hno d) in Hd; [discriminate |].
    apply in_app_iff. right. now left.
Qed.

End Split.

(** A grid none of whose days is within the interval splits trivially. *)
Lemma outside_split3 :
  (forall d, In d range -> within d = false) -> split3 range start end_ range [] [].
Proof.
  intros Hno. unfold split3. rewrite !app_nil_r.
  repeat split; try constructor. now apply List.Forall_forall.
Qed.

End CellFacts.

(** A list of days in increasing order splits at two instants. *)
Lemma sorted_thresholds (s e : Z) (l : list Z) :
  StronglySorted Z.lt l ->
  exists l1 l2 l3, l = (l1 ++ l2 ++ l3)%list /\
    Forall (fun d => midnight d < s) l1 /\
    Forall (fun d => s <= midnight d <= e) l2 /\
    Forall (fun d => e < midnight d) l3.
Proof.
  assert (Hmono : forall x y, x < y -> midnight x < midnight y)
    by (unfold midnight, msPerDay; lia).
  induction 1 as [|x l Hl IH Hx].
  - exists [], [], []. repeat split; constructor.
  - destruct IH as (l1 & l2 & l3 & -> & H1 & H2 & H3).
    destruct (Z_lt_dec (midnight x) s) as [Hxs | Hxs].
    + exists (x :: l1), l2, l3. repeat split; try assumption. now constructor.
    + assert (Hl1 : l1 = []).
      { destruct l1 as [|y l1']; [reflexivity |].
        inversion Hx as [|? ? Hxy _]; subst. inversion H1 as [|? ? Hys _]; subst.
        apply Hmono in Hxy. lia. }
      subst l1. cbn [app] in *.
      destruct (Z_le_dec (midnight x) e) as [Hxe | Hxe].
      * exists [], (x :: l2), l3. repeat split; try assumption; constructor; [lia | assumption].
      * assert (Hl2 : l2 = []).
        { destruct l2 as [|y l2']; [reflexivity |].
          inversion Hx as [|? ? Hxy _]; subst. inversion H2 as [|? ? Hys _]; subst.
          apply Hmono in Hxy. lia. }
        subst l2. cbn [app] in *.
        exists [], [], (x :: l3). repeat split; try constructor; [lia | assumption].
Qed.

(** A grid in increasing order splits around any interval. *)
Lemma sorted_split3 (range : list Z) (start end_ : date) :
  StronglySorted Z.lt range -> exists l1 l2 l3, split3 range start end_ l1 l2 l3.
Proof.
  intros Hs. destruct start as [s|], end_ as [e|];
    try (exists range, [], []; apply outside_split3; reflexivity).
  destruct (sorted_thresholds s e range Hs) as (l1 & l2 & l3 & Hr & H1 & H2 & H3).
  exists l1, l2, l3. unfold split3, inInterval. repeat split; [exact Hr | | |].
  - eapply List.Forall_impl; [| exact H1]. cbn. intros d Hd.
    apply andb_false_iff. left. apply Z.leb_gt. exact Hd.
  - eapply List.Forall_impl; [| exact H2]. cbn. intros d Hd.
    apply andb_true_iff. split; apply Z.leb_le; lia.
  - eapply List.Forall_impl; [| exact H3]. cbn. intros d Hd.
    apply andb_false_iff. right. apply Z.leb_gt. exact Hd.
Qed.

(** Membership in the interval, in the words of the specification. *)
Lemma inInterval_dayWithin (s e d : Z) :
  inInterval (Some s) (Some e) d = true <-> dayWithin s e d.
Proof.
  unfold inInterval, dayWithin. rewrite andb_true_iff, !Z.leb_le. reflexivity.
Qed.

Lemma inInterval_not_dayWithin (s e d : Z) :
  inInterval (Some s) (Some e) d = false <-> ~ dayWithin s e d.
Proof.
  rewrite <- inInterval_dayWithin. destruct (inInterval _ _ d); split; congruence.
Qed.

Lemma In_columnsWithin (range : list Z) (s e : Z) (j : nat) :
  In j (columnsWithin range (Some s) (Some e)) <->
  exists d, range !! j = Some d /\ dayWithin s e d.
Proof.
  unfold columnsWithin. rewrite filter_In, in_seq. split.
  - intros [_ H]. destruct (range !! j) as [d|]; [| discriminate].
    exists d. split; [reflexivity | now apply inInterval_dayWithin].
  - intros (d & Hd & Hin). split.
    + apply lookup_lt_Some in Hd. lia.
    + rewrite Hd. now apply inInterval_dayWithin.
Qed.

(** The layout of a row over a grid that splits around the interval of its
    task. *)
Lemma cells_layout (range : list Z) (today : Z) (start end_ : date)
    (warn : css_class) (pct : float) (l1 l2 l3 : list Z) :
  split3 range start end_ l1 l2 l3 ->
  let cells := cellsFrom range today start end_ warn pct 0 false in
  barColumns cells = columnsWithin range start end_ /\
  (barsOf cells = [] <-> (forall d, In d range -> inInterval start end_ d = false)) /\
  (length (barsOf cells) <= 1)%nat /\
  columnsFilled cells = length range.
Proof.
  intros Hsplit cells. subst cells. repeat split.
  - rewrite (barColumns_split _ _ _ _ _ _ l1 l2 l3 Hsplit).
    now rewrite (columnsWithin_split _ _ _ l1 l2 l3 Hsplit).
  - apply (barsOf_nil_iff _ _ _ _ _ _ l1 l2 l3 Hsplit).
  - apply (barsOf_nil_iff _ _ _ _ _ _ l1 l2 l3 Hsplit).
  - rewrite (barsOf_split _ _ _ _ _ _ l1 l2 l3 Hsplit). destruct l2; cbn; lia.
  - apply (columnsFilled_split _ _ _ _ _ _ l1 l2 l3 Hsplit).
Qed.

(** The columns of the bar are adjacent. *)
Lemma cells_adjacent (range : list Z) (today : Z) (start end_ : date)
    (warn : css_class) (pct : float) (l1 l2 l3 : list Z) :
  split3 range start end_ l1 l2 l3 ->
  let cells := cellsFrom range today start end_ warn pct 0 false in
  barColumns cells = seq (length l1) (length (barColumns cells)).
Proof.
  intros Hsplit cells. subst cells.
  rewrite (barColumns_split _ _ _ _ _ _ l1 l2 l3 Hsplit). now rewrite length_seq.
Qed.

(** The grid the builder lays the rows on splits around the interval of
    every task of the list: a grid that runs upwards is in increasing order,
    and a grid that runs downwards holds no day of any interval, as every
    task then ends before it starts. *)
Lemma grid_split3 (ver : version) (now : Z) (tasks : list task) (t : task) (range : list Z) :
  In t tasks ->
  getTimelineRange ver now tasks = Ok range ->
  exists l1 l2 l3,
    split3 range (parsed (Start_Date t)) (parsed (End_Date t)) l1 l2 l3.
Proof.
  intros Ht Hrange.
  destruct range as [|d0 range0] eqn:Hr.
  { exists [], [], []. repeat split; constructor. }
  rewrite <- Hr in *. assert (Hne : range <> []) by (rewrite Hr; discriminate).
  clear Hr d0 range0.
  destruct (getTimelineRange_shape ver now tasks range Hrange Hne)
    as (s & e & Hp & Hs & He & [[Hle ->] | (Hlt & _ & _)]).
  - apply sorted_split3, gridOf_sorted.
  - exists range, [], []. apply outside_split3. intros d _.
    unfold datesRead in Hp. rewrite List.Forall_forall in Hp.
    destruct (Hp t Ht) as [[st Hst] [et Het]]. rewrite Hst, Het. cbn [inInterval].
    destruct Hs as [_ Hs], He as [_ He].
    pose proof (Hs t st Ht Hst). pose proof (He t et Ht Het).
    unfold msPerDay in Hlt.
    apply andb_false_iff.
    destruct (Z.leb_spec st (midnight d)); [right; apply Z.leb_gt; lia | now left].
Qed.

(** The layout of the row of a task of the list, in the words of the
    specification: at most one bar; its columns are adjacent and are exactly
    the grid columns whose day is within the interval of the task; no bar
    exactly when no grid day is within the interval; every column filled. *)
Lemma cellsOf_layout (ver : version) (now : Z) (tasks : list task) (t : task)
    (range : list Z) (s e : Z) :
  In t tasks ->
  getTimelineRange ver now tasks = Ok range ->
  parsed (Start_Date t) = Some s -> parsed (End_Date t) = Some e ->
  (forall j, In j (barColumns (cellsOf range now t)) <->
             exists d, range !! j = Some d /\ dayWithin s e d) /\
  (exists first, barColumns (cellsOf range now t)
                 = seq first (length (barColumns (cellsOf range now t)))) /\
  (barsOf (cellsOf range now t) = [] <-> forall d, In d range -> ~ dayWithin s e d) /\
  (length (barsOf (cellsOf range now t)) <= 1)%nat /\
  columnsFilled (cellsOf range now t) = length range.
Proof.
  intros Ht Hrange Hs He.
  destruct (grid_split3 ver now tasks t range Ht Hrange) as (l1 & l2 & l3 & Hsplit).
  pose proof (cells_layout range now _ _ (warnClass (Warning t)) (pctOf t) l1 l2 l3 Hsplit)
    as (Hcols & Hnil & Hone & Hfill).
  pose proof (cells_adjacent range now _ _ (warnClass (Warning t)) (pctOf t) l1 l2 l3 Hsplit)
    as Hadj.
  cbv zeta in *. fold (cellsOf range now t) in *. rewrite Hs, He in *.
  split; [| split; [| split; [| split]]].
  - intros j. rewrite Hcols. apply In_columnsWithin.
  - now exists (length l1).
  - rewrite Hnil. split; intros H d Hd.
    + now apply inInterval_not_dayWithin, H.
    + now apply inInterval_not_dayWithin, H.
  - exact Hone.
  - exact Hfill.
Qed.

(** The bars of the row of a task of the list: none when no grid day is
    within the interval of the task, and otherwise the one bar of the task,
    over as many columns as there are grid days within the interval. *)
Lemma cellsOf_bar (ver : version) (now : Z) (tasks : list task) (t : task)
    (range : list Z) :
  In t tasks ->
  getTimelineRange ver now tasks = Ok range ->
  barsOf (cellsOf range now t)
  = if Nat.eqb (spanOf range (parsed (Start_Date t)) (parsed (End_Date t))) 0 then []
    else [fill_cell (barOf (spanOf range (parsed (Start_Date t)) (parsed (End_Date t)))
                       (warnClass (Warning t)) (pctOf t))].
Proof.
  intros Ht Hrange.
  destruct (grid_split3 ver now tasks t range Ht Hrange) as (l1 & l2 & l3 & Hsplit).
  unfold cellsOf.
  rewrite (barsOf_split _ _ _ _ _ _ l1 l2 l3 Hsplit).
  rewrite (spanOf_split _ _ _ l1 l2 l3 Hsplit).
  destruct l2; reflexivity.
Qed.

(** On calendar dates the interval is an interval of days. *)
Lemma inInterval_calendar (s e d : Z) :
  inInterval (Some (midnight s)) (Some (midnight e)) d = (s <=? d) && (d <=? e).
Proof.
  unfold inInterval.
  destruct (Z.leb_spec s d), (Z.leb_spec d e),
    (Z.leb_spec (midnight s) (midnight d)), (Z.leb_spec (midnight d) (midnight e));
    try reflexivity; unfold midnight, msPerDay in *; lia.
Qed.

Lemma spanOf_calendar (range : list Z) (s e : Z) :
  spanOf range (Some (midnight s)) (Some (midnight e))
  = length (List.filter (fun d => (s <=? d) && (d <=? e)) range).
Proof.
  unfold spanOf. f_equal. apply filter_ext. intros d. apply inInterval_calendar.
Qed.

(** C3: for every task of a list, the document [buildHTML] returns holds
    a row for it, with at most one bar cell; the columns the bar covers are
    adjacent and are exactly the grid columns whose date, a midnight, is
    within the closed interval from the start of the task to its end; the
    row holds no bar cell exactly when no grid day is within that interval;
    and the row fills every column of the grid.  The document is returned
    whenever the dates of the list are calendar dates and the bounds of the
    grid are in order. *)
Theorem buildHTML_bar_spans (ver : version) (now : Z) (h : heap) (a : ref)
    (tasks : list task) (t : task) (s e : Z) :
  h !! a = Some tasks -> In t tasks ->
  parsed (Start_Date t) = Some s -> parsed (End_Date t) = Some e ->
  (forall doc, fst (buildHTML ver now a h) = Ok doc ->
     exists range cells,
       getTimelineRange ver now (sortTasks tasks) = Ok range /\
       In (task_row (Component_Group t) (warnClass (Warning t))
             (warnText (Warning t)) cells)
         (taskRows doc) /\
       (forall j, In j (barColumns cells) <->
                  exists d, range !! j = Some d /\ dayWithin s e d) /\
       (exists first, barColumns cells = seq first (length (barColumns cells))) /\
       (barsOf cells = [] <-> forall d, In d range -> ~ dayWithin s e d) /\
       (length (barsOf cells) <= 1)%nat /\
       columnsFilled cells = length range) /\
  (forall m M, datesParse tasks -> leastStart tasks m -> greatestEnd tasks M ->
     m - 3 <= M + 3 -> is_Ok (fst (buildHTML ver now a h))).
Proof.
  intros Ha Ht Hs He. rewrite (buildHTML_run ver now h a tasks Ha). cbn [fst]. split.
  - intros doc Hdoc.
    destruct (taskRows_document ver now tasks doc Hdoc) as (range & Hrange & _ & _ & Hrows).
    exists range, (cellsOf range now t).
    split; [exact Hrange |].
    split; [exact (taskRow_in range now tasks doc t Hrows Ht) |].
    apply (cellsOf_layout ver now (sortTasks tasks) t range s e); try assumption.
    now apply In_sortTasks.
  - intros m M Hp Hm HM Hle.
    destruct (buildDocument_returns ver now tasks m M Hp Hm HM Hle) as [_ [doc ->]].
    exact I.
Qed.

Lemma buildHTML_bar_spans_witness :
  is_Ok (fst (buildHTML V2 20095 1%positive (heapOf [wheelTask]))) /\
  forall doc, fst (buildHTML V2 20095 1%positive (heapOf [wheelTask])) = Ok doc ->
    exists range cells,
      getTimelineRange V2 20095 (sortTasks [wheelTask]) = Ok range /\
      In (task_row "Wheel" no_class "N/A" cells) (taskRows doc) /\
      (forall j, In j (barColumns cells) <->
                 exists d, range !! j = Some d /\
                           dayWithin (midnight 20089) (midnight 20098) d).
Proof.
  assert (Hlookup : heapOf [wheelTask] !! 1%positive = Some [wheelTask]) by reflexivity.
  assert (Hplace : In wheelTask [wheelTask]) by now left.
  assert (Hs : parsed (Start_Date wheelTask) = Some (midnight 20089)) by reflexivity.
  assert (He : parsed (End_Date wheelTask) = Some (midnight 20098)) by reflexivity.
  destruct (buildHTML_bar_spans V2 20095 (heapOf [wheelTask]) 1%positive [wheelTask]
              wheelTask (midnight 20089) (midnight 20098) Hlookup Hplace Hs He)
    as [Hrow Hreturns].
  split.
  - apply (Hreturns 20089 20098).
    + now apply (datesParse_onDay wheelTask 20089 20098).
    + now apply leastStart_single.
    + now apply greatestEnd_single.
    + lia.
  - intros doc Hdoc. destruct (Hrow doc Hdoc) as (range & cells & Hr & Hc & Hcols & _).
    exists range, cells. auto.
Defined.

(** ** Severity and completion *)

(** *** Every bar of a row is the bar of its task *)

Lemma cellsFrom_bars (range : list Z) (today : Z) (start end_ : date)
    (warn : css_class) (pct : float) (n : nat) :
  forall (i : nat) (placed : bool) (b : bar),
  ((if placed then 0 else S (length range)) + (length range - i) <= n)%nat ->
  In (fill_cell b) (cellsFrom range today start end_ warn pct i placed) ->
  b = barOf (spanOf range start end_) warn pct.
Proof.
  induction n as [|n IH]; intros i placed b Hn; rewrite cellsFrom_unfold.
  - destruct placed; [| lia].
    rewrite lookup_ge_None_2 by lia. intros [].
  - destruct (range !! i) as [d|] eqn:Hd; [| intros []].
    apply lookup_lt_Some in Hd.
    destruct (negb placed && inInterval start end_ d) eqn:Hc.
    + intros [[= <-] | Hin]; [reflexivity |].
      apply (IH (i + spanOf range start end_)%nat true b); [| exact Hin].
      destruct placed; [discriminate | lia].
    + intros [[=] | Hin].
      apply (IH (S i) placed b); [| exact Hin].
      destruct placed; lia.
Qed.

Lemma cellsOf_bars (range : list Z) (today : Z) (t : task) (b : bar) :
  In (fill_cell b) (cellsOf range today t) ->
  b = barOf (spanOf range (parsed (Start_Date t)) (parsed (End_Date t)))
        (warnClass (Warning t)) (pctOf t).
Proof.
  unfold cellsOf.
  apply cellsFrom_bars with (n := S (length range + length range)). cbn. lia.
Qed.

(** The rows of the sample tasks on the grid of the wheel task. *)
Lemma wheelTask_cells :
  cellsOf wheelGrid 20095 wheelTask
  = [plain_cell false; plain_cell false;
     fill_cell (barOf 6 no_class (pctOf wheelTask)); plain_cell false].
Proof. vm_compute. reflexivity. Qed.

Lemma overdoneTask_cells :
  cellsOf wheelGrid 20095 overdoneTask
  = [plain_cell false; plain_cell false;
     fill_cell (barOf 6 warning_critical 2.5%float); plain_cell false].
Proof. vm_compute. reflexivity. Qed.

(** *** Severity *)

(** C4, as amended: the severity class of a task, which is the class of the
    warning cell of its row and of the track of its bar, is the critical class
    exactly when the Warning field equals "Work Stoppage" (two words); the
    caution class exactly when the field is any other non-empty string
    different from "N/A"; and no class exactly when the field is absent, empty
    or "N/A". *)
Theorem warnClass_severity (range : list Z) (today : Z) (t : task) :
  (warnClass (Warning t) = warning_critical <-> Warning t = Some "Work Stoppage") /\
  (warnClass (Warning t) = warning_caution <->
   exists s, Warning t = Some s /\ s <> "" /\ s <> "N/A" /\ s <> "Work Stoppage") /\
  (warnClass (Warning t) = no_class <->
   Warning t = None \/ Warning t = Some "" \/ Warning t = Some "N/A") /\
  (exists component text cells,
     taskRow range today t = task_row component (warnClass (Warning t)) text cells /\
     forall b, In (fill_cell b) cells -> track_class b = warnClass (Warning t)).
Proof.
  assert (Hclass :
    match Warning t with
    | None => warnClass (Warning t) = no_class
    | Some s =>
        (s = "Work Stoppage" /\ warnClass (Warning t) = warning_critical) \/
        (s <> "Work Stoppage" /\ (s = "" \/ s = "N/A") /\ warnClass (Warning t) = no_class) \/
        (s <> "Work Stoppage" /\ s <> "" /\ s <> "N/A" /\ warnClass (Warning t) = warning_caution)
    end).
  { unfold warnClass. destruct (Warning t) as [s|]; [| reflexivity].
    cbn [eq_string truthy_string neq_string].
    destruct (String.eqb_spec s "Work Stoppage") as [-> | H1]; [now left |].
    destruct (String.eqb_spec s "") as [-> | H2]; [right; left; cbn; auto |].
    destruct (String.eqb_spec s "N/A") as [-> | H3]; [right; left; cbn; auto |].
    right. right. cbn. auto. }
  split; [| split; [| split]].
  - destruct (Warning t) as [s|].
    + destruct Hclass as [[-> ->] | [(H1 & _ & ->) | (H1 & _ & _ & ->)]];
        split; try discriminate; try reflexivity; intros [= ->]; congruence.
    + rewrite Hclass. split; discriminate.
  - destruct (Warning t) as [s|].
    + destruct Hclass as [[-> ->] | [(H1 & H2 & ->) | (H1 & H2 & H3 & ->)]].
      * split; [discriminate | intros (s & [= <-] & _ & _ & H); congruence].
      * split; [discriminate |]. intros (s' & [= <-] & Ha & Hb & _).
        destruct H2; congruence.
      * split; [| reflexivity]. intros _. exists s. auto.
    + rewrite Hclass. split; [discriminate | intros (s & [=] & _)].
  - destruct (Warning t) as [s|].
    + destruct Hclass as [[-> ->] | [(H1 & H2 & ->) | (H1 & H2 & H3 & ->)]].
      * split; [discriminate | intros [[=] | [[=] | [=]]]].
      * split; [| reflexivity]. intros _. destruct H2 as [-> | ->]; auto.
      * split; [discriminate | intros [[=] | [[= ->] | [= ->]]]; congruence].
    + rewrite Hclass. split; auto.
  - unfold taskRow. do 3 eexists. split; [reflexivity |].
    intros b Hb. apply cellsOf_bars in Hb. now rewrite Hb.
Qed.

(** C4 as stated fails on the one-word spelling: "WorkStoppage" gets the
    caution class, and the critical class goes to "Work Stoppage". *)
Lemma warnClass_WorkStoppage_is_caution :
  warnClass (Some "WorkStoppage") = warning_caution /\
  warnClass (Some "Work Stoppage") = warning_critical /\
  taskRow wheelGrid 20095 unreportedTask
  = task_row "Wheel" warning_caution "WorkStoppage" (cellsOf wheelGrid 20095 unreportedTask).
Proof. repeat split. Qed.

(** *** Comparisons of binary64 numbers *)

Lemma SFcompare_antisym (x y : spec_float) :
  SFcompare y x = option_map CompOpp (SFcompare x y).
Proof.
  destruct x as [sx | sx | | sx mx ex], y as [sy | sy | | sy my ey]; cbn;
    try reflexivity;
    try (destruct sx; reflexivity); try (destruct sy; reflexivity);
    try (destruct sx, sy; reflexivity).
  destruct sx, sy; cbn; try reflexivity.
  - rewrite (Z.compare_antisym ex ey). destruct (ex ?= ey); cbn; try reflexivity.
    rewrite (Pos.compare_cont_antisym mx my Eq). reflexivity.
  - rewrite (Z.compare_antisym ex ey). destruct (ex ?= ey); cbn; try reflexivity.
    now rewrite (Pos.compare_cont_antisym mx my Eq).
Qed.

Lemma SFcompare_refl (x : spec_float) : x <> S754_nan -> SFcompare x x = Some Eq.
Proof.
  destruct x as [s | s | | s m e]; intros Hx; cbn; try congruence.
  - now destruct s.
  - rewrite Z.compare_refl, Pos.compare_cont_refl. now destruct s.
Qed.

(** A number that is at least 1 is truthy. *)
Lemma ge_one_truthy (x : float) : (1 <=? x)%float = true -> truthy x = true.
Proof.
  rewrite leb_spec. unfold truthy, PrimFloat.is_nan, PrimFloat.is_zero.
  rewrite !FloatAxioms.eqb_spec. unfold SFleb, SFeqb.
  change (Prim2SF 1) with (S754_finite false 4503599627370496 (-52)).
  change (Prim2SF PrimFloat.zero) with (S754_zero false).
  destruct (Prim2SF x) as [s | s | | s m e] eqn:Hx; cbn [SFcompare]; try discriminate.
  - intros _. now destruct s.
  - intros _. rewrite Z.compare_refl, Pos.compare_cont_refl. now destruct s.
Qed.

(** A number below 1 is not at least 1. *)
Lemma lt_one_not_ge (x : float) : (x <? 1)%float = true -> (1 <=? x)%float = false.
Proof.
  rewrite ltb_spec, leb_spec. unfold SFltb, SFleb.
  rewrite (SFcompare_antisym (Prim2SF x) (Prim2SF 1)).
  destruct (SFcompare (Prim2SF x) (Prim2SF 1)) as [[| |]|]; cbn; congruence.
Qed.

(** The product of a zero and 100 is a zero. *)
Lemma floor_zero_times_100 (x : float) :
  PrimFloat.is_zero x = true -> Math_floor (x * 100)%float = FlInt 0.
Proof.
  unfold PrimFloat.is_zero, Math_floor. rewrite FloatAxioms.eqb_spec, mul_spec.
  unfold SFeqb. change (Prim2SF PrimFloat.zero) with (S754_zero false).
  change (Prim2SF 100) with (S754_finite false 7036874417766400 (-46)).
  destruct (Prim2SF x) as [s | s | | s m e]; cbn [SFcompare]; try discriminate.
  - intros _. reflexivity.
  - destruct s; discriminate.
  - destruct s; discriminate.
Qed.

(** *** Rounding of binary64 products *)

Section Rounding64.

Lemma digits2_pos_bounds (m : positive) :
  2 ^ (Zpos (digits2_pos m) - 1) <= Zpos m < 2 ^ Zpos (digits2_pos m).
Proof.
  induction m as [m IH | m IH |]; cbn [digits2_pos].
  - rewrite Pos2Z.inj_succ. replace (Z.succ (Z.pos (digits2_pos m)) - 1) with (Z.pos (digits2_pos m)) by lia.
    rewrite Z.pow_succ_r by lia.
    replace (2 ^ Z.pos (digits2_pos m)) with (2 * 2 ^ (Z.pos (digits2_pos m) - 1)) in *
      by (rewrite <- Z.pow_succ_r by lia; f_equal; lia).
    lia.
  - rewrite Pos2Z.inj_succ. replace (Z.succ (Z.pos (digits2_pos m)) - 1) with (Z.pos (digits2_pos m)) by lia.
    rewrite Z.pow_succ_r by lia.
    replace (2 ^ Z.pos (digits2_pos m)) with (2 * 2 ^ (Z.pos (digits2_pos m) - 1)) in *
      by (rewrite <- Z.pow_succ_r by lia; f_equal; lia).
    lia.
  - cbn. lia.
Qed.

Lemma iter_pos_inv {A : Type} (f : A -> A) (P : Z -> A -> Prop) :
  (forall k x, 0 <= k -> P k x -> P (k + 1) (f x)) ->
  forall p k x, 0 <= k -> P k x -> P (k + Zpos p) (SpecFloat.iter_pos f p x).
Proof.
  intros Hstep. induction p as [p IH | p IH |]; intros k x Hk Hx; cbn [SpecFloat.iter_pos].
  - replace (k + Z.pos p~1) with (k + 1 + Z.pos p + Z.pos p) by lia.
    apply IH; [lia |]. apply IH; [lia |]. now apply Hstep.
  - replace (k + Z.pos p~0) with (k + Z.pos p + Z.pos p) by lia.
    apply IH; [lia |]. now apply IH.
  - now apply Hstep.
Qed.

Lemma shr_1_halved (M k : Z) (mrs : shr_record) :
  0 <= k -> halved M k mrs -> halved M (k + 1) (shr_1 mrs).
Proof.
  intros Hk (Hm & Hle & _). destruct mrs as [m r s]. cbn [shr_m shr_r] in *.
  assert (Hpow : 2 ^ (k + 1) = 2 * 2 ^ k) by (rewrite Z.pow_add_r by lia; lia).
  assert (Hpos : 0 < 2 ^ k) by (apply Z.pow_pos_nonneg; lia).
  unfold halved. rewrite Hpow.
  destruct m as [| [p | p |] | p]; cbn [shr_1 shr_m shr_r]; lia.
Qed.


Lemma shr_halved (M : Z) (mrs : shr_record) (e n : Z) :
  halved M 0 mrs ->
  halved M (Z.max n 0) (fst (shr mrs e n)) /\ snd (shr mrs e n) = e + Z.max n 0 /\
  (n <= 0 -> fst (shr mrs e n) = mrs).
Proof.
  intros H0. destruct n as [| p | p]; cbn [shr fst snd].
  - split; [exact H0 | split; [lia | reflexivity]].
  - rewrite Z.max_l by lia. split; [| split; [lia | lia]].
    apply (iter_pos_inv shr_1 (halved M)) with (k := 0); [| lia | exact H0].
    intros k x Hk. now apply shr_1_halved.
  - rewrite Z.max_r by lia. split; [exact H0 | split; [lia | reflexivity]].
Qed.

(** Rounding to nearest adds at most one unit, and only when the round bit
    is set. *)
Lemma round_nearest_even_halved (M k : Z) (mrs : shr_record) :
  0 <= k -> halved M k mrs ->
  let m1 := round_nearest_even (shr_m mrs) (loc_of_shr_record mrs) in
  0 <= m1 /\ 2 * (m1 * 2 ^ k) <= 2 * M + 2 ^ k /\
  (shr_r mrs = false -> m1 * 2 ^ k <= M).
Proof.
  intros Hk (Hm & Hle & Hr). destruct mrs as [m r s]. cbn [shr_m shr_r] in *.
  assert (Hpos : 0 < 2 ^ k) by (apply Z.pow_pos_nonneg; lia).
  destruct r, s; cbn [loc_of_shr_record round_nearest_even].
  - specialize (Hr eq_refl). repeat split; first [lia | discriminate].
  - specialize (Hr eq_refl). destruct (Z.even m); repeat split; first [lia | discriminate].
  - repeat split; first [lia | intros _; lia].
  - repeat split; first [lia | intros _; lia].
Qed.


Lemma halved_init (M : Z) : 0 <= M -> halved M 0 (shr_record_of_loc M loc_Exact).
Proof. intros HM. unfold halved. cbn. repeat split; first [lia | discriminate]. Qed.

(** Rounding a positive product that stays at least [100 * 2^-53] below
    100 gives a number whose whole part is at most 99.  The product is
    [M * 2^-K]. *)
Lemma binary_round_aux_below_100 (M K : Z) :
  0 < M -> 53 <= K ->
  M <= 100 * 2 ^ K - 100 * 2 ^ (K - 53) ->
  exists w, floorSF (binary_round_aux prec emax false M (- K) loc_Exact) = FlInt w /\
            0 <= w <= 99.
Proof.
  intros HM HK Hbound.
  set (P := 2 ^ (K - 53)) in *.
  assert (HP : 0 < P) by (apply Z.pow_pos_nonneg; lia).
  assert (H2K : 2 ^ K = 2 ^ 53 * P).
  { unfold P. rewrite <- Z.pow_add_r by lia. f_equal. lia. }
  assert (HMlt : M < 2 ^ (K + 7)).
  { rewrite Z.pow_add_r by lia. change (2 ^ 7) with 128. lia. }
  unfold binary_round_aux, shr_fexp.
  set (n := fexp prec emax (Zdigits2 M + - K) - - K).
  assert (Hn : n <= K - 46).
  { unfold n, fexp. change (SpecFloat.emin prec emax) with (-1074). change prec with 53.
    destruct M as [| M' | M']; try lia. cbn [Zdigits2].
    pose proof (digits2_pos_bounds M') as [Hd _].
    assert (Hlt : 2 ^ (Z.pos (digits2_pos M') - 1) < 2 ^ (K + 7)) by lia.
    apply Z.pow_lt_mono_r_iff in Hlt; lia. }
  destruct (shr_halved M (shr_record_of_loc M loc_Exact) (- K) n (halved_init M ltac:(lia)))
    as (H1 & He1 & Hsame).
  destruct (shr (shr_record_of_loc M loc_Exact) (- K) n) as [mrs1 e1]. cbn [fst snd] in *.
  destruct (round_nearest_even_halved M (Z.max n 0) mrs1 ltac:(lia) H1) as (Hm1 & Hb & Hexact).
  set (m1 := round_nearest_even (shr_m mrs1) (loc_of_shr_record mrs1)) in *.
  set (k1 := Z.max n 0) in *.
  assert (Hk1 : 0 <= k1) by (unfold k1; lia).
  assert (Hp1 : 0 < 2 ^ k1) by (apply Z.pow_pos_nonneg; lia).
  assert (HX1 : m1 * 2 ^ k1 < 100 * 2 ^ K).
  { destruct (Z_le_dec n 0) as [Hle | Hgt].
    - rewrite (Hsame Hle) in Hexact. specialize (Hexact eq_refl). lia.
    - assert (Hpow : 2 ^ k1 <= 2 ^ (K - 46)).
      { apply Z.pow_le_mono_r; unfold k1; lia. }
      replace (K - 46) with (K - 53 + 7) in Hpow by lia.
      rewrite Z.pow_add_r in Hpow by lia. fold P in Hpow. change (2 ^ 7) with 128 in Hpow.
      lia. }
  set (n2 := fexp prec emax (Zdigits2 m1 + e1) - e1).
  destruct (shr_halved m1 (shr_record_of_loc m1 loc_Exact) e1 n2 (halved_init m1 Hm1))
    as (H2 & He2 & _).
  destruct (shr (shr_record_of_loc m1 loc_Exact) e1 n2) as [mrs2 e2]. cbn [fst snd] in *.
  set (k2 := Z.max n2 0) in *.
  assert (Hk2 : 0 <= k2) by (unfold k2; lia).
  assert (Hp2 : 0 < 2 ^ k2) by (apply Z.pow_pos_nonneg; lia).
  destruct H2 as (Hm2 & Hle2 & _).
  destruct (shr_m mrs2) as [| m | m] eqn:Hm; [exists 0; split; [reflexivity | lia] | | lia].
  assert (Hk : Z.pos m * 2 ^ (k1 + k2) < 100 * 2 ^ K).
  { rewrite Z.pow_add_r by lia.
    assert (Z.pos m * 2 ^ k2 * 2 ^ k1 <= m1 * 2 ^ k1) by (apply Z.mul_le_mono_nonneg_r; lia).
    lia. }
  assert (Hpk : 0 < 2 ^ (k1 + k2)) by (apply Z.pow_pos_nonneg; lia).
  assert (Hklt : k1 + k2 < K + 7).
  { assert (Hlt : 2 ^ (k1 + k2) < 2 ^ (K + 7)).
    { rewrite (Z.pow_add_r 2 K 7) by lia. change (2 ^ 7) with 128.
      assert (2 ^ (k1 + k2) <= Z.pos m * 2 ^ (k1 + k2)) by nia. lia. }
    apply Z.pow_lt_mono_r_iff in Hlt; lia. }
  assert (He : e2 = k1 + k2 - K) by lia.
  change (emax - prec) with 971.
  destruct (Z.leb_spec e2 971) as [_ | Hbig]; [| lia].
  cbn [floorSF signed].
  destruct (Z.leb_spec 0 e2) as [Hpos | Hneg].
  - exists (Z.pos m * 2 ^ e2). split; [reflexivity |].
    assert (Hsplit : 2 ^ (k1 + k2) = 2 ^ K * 2 ^ e2).
    { rewrite <- Z.pow_add_r by lia. f_equal. lia. }
    assert (0 < 2 ^ K) by (apply Z.pow_pos_nonneg; lia).
    assert (0 < 2 ^ e2) by (apply Z.pow_pos_nonneg; lia).
    split; [nia |].
    assert (Z.pos m * 2 ^ e2 < 100) by nia. lia.
  - exists (Z.pos m / 2 ^ (- e2)). split; [reflexivity |].
    assert (Hsplit : 2 ^ K = 2 ^ (k1 + k2) * 2 ^ (- e2)).
    { rewrite <- Z.pow_add_r by lia. f_equal. lia. }
    assert (Hq : 0 < 2 ^ (- e2)) by (apply Z.pow_pos_nonneg; lia).
    split; [apply Z.div_pos; lia |].
    assert (Z.pos m / 2 ^ (- e2) < 100); [| lia].
    apply Z.div_lt_upper_bound; [exact Hq |]. nia.
Qed.


(** The mantissa and exponent of a valid positive number below 1. *)
Lemma below_one_product (mx : positive) (ex : Z) :
  bounded prec emax mx ex = true ->
  SFltb (S754_finite false mx ex) (Prim2SF 1) = true ->
  53 <= 46 - ex /\
  Z.pos mx * 7036874417766400 <= 100 * 2 ^ (46 - ex) - 100 * 2 ^ (46 - ex - 53).
Proof.
  unfold bounded, canonical_mantissa, fexp.
  change (SpecFloat.emin prec emax) with (-1074). change prec with 53.
  rewrite andb_true_iff, Z.eqb_eq. intros [Hcanon _].
  assert (Hd : Z.pos (digits2_pos mx) <= 53) by lia.
  pose proof (digits2_pos_bounds mx) as [_ Hmx].
  assert (Hmx53 : Z.pos mx < 2 ^ 53).
  { eapply Z.lt_le_trans; [exact Hmx |]. apply Z.pow_le_mono_r; lia. }
  change (Prim2SF 1) with (S754_finite false 4503599627370496 (-52)).
  unfold SFltb. cbn [SFcompare].
  destruct (Z.compare_spec ex (-52)) as [Heq | Hlt | Hgt]; [| | discriminate].
  - intros Hc.
    assert (Hlt : Z.pos mx < 4503599627370496).
    { apply Pos2Z.pos_lt_pos, Pos.compare_lt_iff.
      change (PosDef.Pos.compare_cont Eq mx 4503599627370496 = Lt).
      destruct (PosDef.Pos.compare_cont Eq mx 4503599627370496);
        first [reflexivity | discriminate]. }
    clear Hc. subst ex. split; [lia |].
    change (46 - -52) with 98. change (98 - 53) with 45.
    change (2 ^ 98) with 316912650057057350374175801344.
    change (2 ^ 45) with 35184372088832. lia.
  - intros _. split; [lia |].
    set (P := 2 ^ (46 - ex - 53)).
    assert (H46 : 2 ^ 46 <= P) by (apply Z.pow_le_mono_r; lia).
    assert (H2K : 2 ^ (46 - ex) = 2 ^ 53 * P).
    { unfold P. rewrite <- Z.pow_add_r by lia. f_equal. lia. }
    rewrite H2K. change (2 ^ 53) with 9007199254740992 in *.
    change (2 ^ 46) with 70368744177664 in H46. nia.
Qed.

(** For a number [x] with [0 <= x < 1] the whole part of the binary64
    product [x * 100] is an integer from 0 to 99. *)
Lemma floor_times_100_below_one (x : float) :
  (0 <=? x)%float = true -> (x <? 1)%float = true ->
  exists w, Math_floor (x * 100)%float = FlInt w /\ 0 <= w <= 99.
Proof.
  rewrite leb_spec, ltb_spec. unfold Math_floor. rewrite mul_spec.
  pose proof (Prim2SF_valid x) as Hvalid.
  change (Prim2SF 100) with (S754_finite false 7036874417766400 (-46)).
  change (Prim2SF 0) with (S754_zero false).
  destruct (Prim2SF x) as [s | s | | s mx ex].
  - intros _ _. exists 0. split; [reflexivity | lia].
  - destruct s; discriminate.
  - discriminate.
  - destruct s; [discriminate |]. intros _ Hlt.
    destruct (below_one_product mx ex Hvalid Hlt) as [HK Hbound].
    unfold SF64mul, SFmul. cbn [xorb].
    replace (ex + -46) with (- (46 - ex)) by lia.
    apply binary_round_aux_below_100; [lia | exact HK |].
    rewrite Pos2Z.inj_mul. exact Hbound.
Qed.

End Rounding64.

(** *** Completion *)


(** The whole part is taken of the binary64 product: 0.29 is stored just
    below 29 hundredths, so the bar is 28 percent wide under a label that
    reads 29.0 percent. *)
Lemma twenty_nine_hundredths :
  width (barOf 1 no_class (29 / 100)%float) = FlInt 28 /\
  label (barOf 1 no_class (29 / 100)%float) = Some "29.0%".
Proof. split; reflexivity. Qed.


(** ** The access gate *)

Section Gate.
Import Authorizer.

(** C6, as amended: with the expected token configured, the gate returns
    the Allow policy, tagged with the trusted principal, exactly when the
    request carries an [x-api-key] header equal to the expected token as a
    string; in every other case, a missing header included, it returns the
    Deny policy. *)
Theorem authorize_gate (expected : string) (ev : Authorizer.event) :
  (Effect (authorize (Some expected) ev) = Allow /\
   context_user (authorize (Some expected) ev) = "trusted-client"
   <-> headers ev !! "x-api-key" = Some expected) /\
  (headers ev !! "x-api-key" <> Some expected ->
   Effect (authorize (Some expected) ev) = Deny /\
   context_user (authorize (Some expected) ev) = "unauthorized") /\
  (headers ev !! "x-api-key" = None ->
   Effect (authorize (Some expected) ev) = Deny).
Proof.
  unfold authorize.
  destruct (decide (headers ev !! "x-api-key" = Some expected)) as [Heq | Hne]; cbn.
  - split; [split; auto |]. split; [contradiction | congruence].
  - split; [split; [intros [[=] _] | contradiction] |]. split; auto.
Qed.

(** Where the environment variable is not set, the requests let through
    are those without the header: undefined equals undefined, and nothing
    else. *)
Lemma authorize_unset_token (ev : Authorizer.event) :
  Effect (authorize None ev) = Allow <-> headers ev !! "x-api-key" = None.
Proof.
  unfold authorize.
  destruct (decide (headers ev !! "x-api-key" = None)) as [Heq | Hne]; cbn.
  - split; auto.
  - split; [discriminate | contradiction].
Qed.

(** C6 as stated fails where the expected token is not configured: the
    request that carries no token is let through as the trusted client, the
    absent header being equal to the absent variable. *)
Lemma authorize_allows_missing_token :
  headers (Authorizer.Event ∅ None) !! "x-api-key" = None /\
  Effect (authorize None (Authorizer.Event ∅ None)) = Allow /\
  context_user (authorize None (Authorizer.Event ∅ None)) = "trusted-client".
Proof. repeat split. Qed.

End Gate.

(** ** The render handler *)

Section RenderFacts.
Import Handler.
Variable JSON_parse : string -> option json.
Variable decodeTask : json -> task.
Variable ver : version.
Variable now : Z.
Variable rejects : effect -> option exn.
Variable screenshotText : string.

Abbreviation run := (render JSON_parse decodeTask ver now rejects screenshotText).

(** The handler after the lookup of the Chromium path, when the [try]
    block returns early. *)
Lemma render_early_return (ev : Handler.event) (w : world) (resp : response) :
  rejects ExecutablePath = None ->
  parseTasks JSON_parse ev = inr resp ->
  run ev w = (Ok resp, {| browser := browser w; trace := (trace w ++ [ExecutablePath])%list |}).
Proof.
  intros Hpath Hparse. unfold render, await, hbind, record, hlift, hret.
  rewrite Hpath, Hparse. reflexivity.
Qed.

(** C7, as amended: once the lookup of the Chromium path has resolved, a
    request whose body (an absent or empty body counts as the text of the
    empty object) parses to a JSON value other than null in which [tasks] is
    absent or not an array gets status 400 with the body
    [{"error":"Invalid or missing tasks array"}], and a request whose body does
    not parse gets status 400 with the body [{"error":"Malformed JSON"}]; in
    both cases the handler launches no browser and computes no grid or
    layout. *)
Theorem render_rejects_bad_body (ev : Handler.event) (w : world) :
  rejects ExecutablePath = None ->
  (forall v, JSON_parse (bodyOrDefault ev) = Some v -> v <> JNull ->
     isArray (tasksField v) = None ->
     fst (run ev w) = Ok (badRequest "Invalid or missing tasks array")) /\
  (JSON_parse (bodyOrDefault ev) = None ->
     fst (run ev w) = Ok (badRequest "Malformed JSON")) /\
  ((forall v, JSON_parse (bodyOrDefault ev) = Some v -> isArray (tasksField v) = None) ->
     trace (snd (run ev w)) = (trace w ++ [ExecutablePath])%list /\
     browser (snd (run ev w)) = browser w /\
     exists resp, fst (run ev w) = Ok resp /\ clientError resp) /\
  body (badRequest "Invalid or missing tasks array")
    = Text ("{" +:+ quote +:+ "error" +:+ quote +:+ ":" +:+ quote
            +:+ "Invalid or missing tasks array" +:+ quote +:+ "}") /\
  body (badRequest "Malformed JSON")
    = Text ("{" +:+ quote +:+ "error" +:+ quote +:+ ":" +:+ quote
            +:+ "Malformed JSON" +:+ quote +:+ "}").
Proof.
  intros Hpath. split; [| split; [| split; [| split; reflexivity]]].
  - intros v Hv Hnull Harr.
    rewrite (render_early_return ev w (badRequest "Invalid or missing tasks array") Hpath);
      [reflexivity |].
    unfold parseTasks. rewrite Hv.
    destruct v; try congruence; cbn in *; try reflexivity.
    now rewrite Harr.
  - intros Hnone.
    rewrite (render_early_return ev w (badRequest "Malformed JSON") Hpath); [reflexivity |].
    unfold parseTasks. now rewrite Hnone.
  - intros Hbad.
    assert (Hearly : exists resp, parseTasks JSON_parse ev = inr resp /\ clientError resp).
    { unfold parseTasks.
      destruct (JSON_parse (bodyOrDefault ev)) as [v|] eqn:Hv.
      - specialize (Hbad v eq_refl).
        destruct v; cbn in *; try rewrite Hbad;
          eexists; (split; [reflexivity | unfold clientError; cbn; lia]).
      - eexists. split; [reflexivity | unfold clientError; cbn; lia]. }
    destruct Hearly as (resp & Hparse & Hclient).
    rewrite (render_early_return ev w resp Hpath Hparse). cbn. eauto.
Qed.

End RenderFacts.

(** *** The browser *)

Section Leak.
Import Handler.

(** C8 fails on the code.  A request with an empty array of tasks, every
    awaited call resolving: the grid computation raises after the browser was
    launched, and the handler ends with the browser still running, under
    both versions of the date library.  Only the path that answers 200
    reaches the call that closes the browser. *)
Theorem render_leaves_browser_running :
  parseLiteral emptyTasksBody = Some (JObject [("tasks", JArray [])]) /\
  render parseLiteral decodeBlank V3plus 0 allResolve "" (Event (Some emptyTasksBody)) idle
  = (Throw (RangeError "Invalid time value"),
     {| browser := Running; trace := [ExecutablePath; Launch; NewPage; CallBuildHTML] |}) /\
  render parseLiteral decodeBlank V2 0 allResolve "" (Event (Some emptyTasksBody)) idle
  = (Throw (RangeError "Invalid interval"),
     {| browser := Running; trace := [ExecutablePath; Launch; NewPage; CallBuildHTML] |}).
Proof. repeat split. Qed.

End Leak.

Section Closing.
Import Handler.
Variable JSON_parse : string -> option json.
Variable decodeTask : json -> task.
Variable ver : version.
Variable now : Z.
Variable rejects : effect -> option exn.
Variable screenshotText : string.


(** A document that fails to load leaves the browser running. *)
Lemma render_setContent_fails (ev : Handler.event) (items : list json) (doc : document) (e : exn) :
  rejects ExecutablePath = None -> rejects Launch = None -> rejects NewPage = None ->
  parseTasks JSON_parse ev = inl items ->
  rbind (readTasks decodeTask items) (buildDocument ver now) = Ok doc ->
  rejects SetContent = Some e ->
  render JSON_parse decodeTask ver now rejects screenshotText ev idle
  = (Throw e, {| browser := Running;
                 trace := [ExecutablePath; Launch; NewPage; CallBuildHTML; SetContent] |}).
Proof.
  intros H1 H2 H3 Hparse Hdoc H4.
  unfold render, await, hbind, record, setBrowser, hlift, hret, idle. cbn.
  rewrite H1, Hparse. cbn. rewrite H2. cbn. rewrite H3. cbn. rewrite Hdoc. cbn.
  rewrite H4. reflexivity.
Qed.

(** A screenshot that fails leaves the browser running. *)
Lemma render_screenshot_fails (ev : Handler.event) (items : list json) (doc : document) (e : exn) :
  rejects ExecutablePath = None -> rejects Launch = None -> rejects NewPage = None ->
  parseTasks JSON_parse ev = inl items ->
  rbind (readTasks decodeTask items) (buildDocument ver now) = Ok doc ->
  rejects SetContent = None -> rejects Screenshot = Some e ->
  render JSON_parse decodeTask ver now rejects screenshotText ev idle
  = (Throw e, {| browser := Running;
                 trace := [ExecutablePath; Launch; NewPage; CallBuildHTML; SetContent;
                           Screenshot] |}).
Proof.
  intros H1 H2 H3 Hparse Hdoc H4 H5.
  unfold render, await, hbind, record, setBrowser, hlift, hret, idle. cbn.
  rewrite H1, Hparse. cbn. rewrite H2. cbn. rewrite H3. cbn. rewrite Hdoc. cbn.
  rewrite H4. cbn. rewrite H5. reflexivity.
Qed.

End Closing.

Section RenderExamples.
Import Handler.

(** A request with one task whose document fails to load. *)
Example render_setContent_fails_example :
  render (fun _ => Some (JObject [("tasks", JArray [JObject []])])) (fun _ => wheelTask)
    V2 20095 setContentRejects "" (Event (Some "one task")) idle
  = (Throw (OtherError "Navigation timeout"),
     {| browser := Running;
        trace := [ExecutablePath; Launch; NewPage; CallBuildHTML; SetContent] |}).
Proof.
  destruct (buildDocument V2 20095 [wheelTask]) as [doc|] eqn:Hdoc; [| discriminate].
  apply (render_setContent_fails _ _ _ _ _ _ _ [JObject []] doc); try reflexivity.
  exact Hdoc.
Qed.

(** The empty list makes the builder raise under both versions of the date
    library: the bounds of an empty list are invalid dates. *)
Lemma buildDocument_empty_list_raises (now : Z) :
  buildDocument V2 now [] = Throw (RangeError "Invalid interval") /\
  buildDocument V3plus now [] = Throw (RangeError "Invalid time value").
Proof. split; reflexivity. Qed.

Lemma render_rejects_bad_body_witness :
  fst (render parseLiteral decodeBlank V2 0 allResolve "" (Event None) idle)
  = Ok (badRequest "Invalid or missing tasks array").
Proof.
  apply (proj1 (render_rejects_bad_body parseLiteral decodeBlank V2 0 allResolve ""
                  (Event None) idle eq_refl) (JObject [])).
  - reflexivity.
  - discriminate.
  - reflexivity.
Defined.

(** C7 as stated fails twice.  The body [null] is valid JSON without a
    [tasks] array, yet the answer says the JSON is malformed: reading a
    property of null raises inside the [try] block.  The empty body is no JSON
    text, yet the answer is about the tasks array: an empty body is replaced
    by the text of the empty object before it is parsed. *)
Lemma render_null_and_empty_bodies :
  parseLiteral "null" = Some JNull /\
  isArray (tasksField JNull) = None /\
  fst (render parseLiteral decodeBlank V2 0 allResolve "" (Event (Some "null")) idle)
  = Ok (badRequest "Malformed JSON") /\
  badRequest "Malformed JSON" <> badRequest "Invalid or missing tasks array" /\
  parseLiteral "" = None /\
  fst (render parseLiteral decodeBlank V2 0 allResolve "" (Event (Some "")) idle)
  = Ok (badRequest "Invalid or missing tasks array").
Proof. repeat split. discriminate. Qed.

End RenderExamples.

(** ** The width of a bar and the tasks that get none *)

Lemma daysOf_app (lo mid hi : Z) :
  lo <= mid + 1 -> mid <= hi ->
  daysOf lo hi = (daysOf lo mid ++ daysOf (mid + 1) hi)%list.
Proof.
  intros H1 H2. unfold daysOf.
  replace (Z.to_nat (hi - lo + 1))
    with (Z.to_nat (mid - lo + 1) + Z.to_nat (hi - (mid + 1) + 1))%nat by lia.
  rewrite seq_app, map_app. f_equal.
  rewrite Nat.add_0_l.
  rewrite <- (Nat.add_0_r (Z.to_nat (mid - lo + 1))) at 1.
  generalize (Z.to_nat (hi - (mid + 1) + 1)) as n. generalize 0%nat as k.
  intros k n. revert k. induction n as [|n IH]; intros k; simpl; [reflexivity|].
  f_equal; [lia|].
  replace (S (Z.to_nat (mid - lo + 1) + k)) with (Z.to_nat (mid - lo + 1) + S k)%nat by lia.
  apply IH.
Qed.

Lemma daysOf_empty (lo hi : Z) : hi < lo -> daysOf lo hi = [].
Proof.
  intros H. unfold daysOf. replace (Z.to_nat (hi - lo + 1)) with 0%nat by lia. reflexivity.
Qed.

Lemma daysOf_one (d : Z) : daysOf d d = [d].
Proof.
  unfold daysOf. replace (d - d + 1) with 1 by lia. simpl. f_equal. lia.
Qed.

Lemma filter_comm {A : Type} (f g : A -> bool) (l : list A) :
  List.filter f (List.filter g l) = List.filter g (List.filter f l).
Proof.
  induction l as [|x l IH]; simpl; [reflexivity|].
  destruct (g x) eqn:Hg, (f x) eqn:Hf; simpl; rewrite ?Hg, ?Hf, IH; reflexivity.
Qed.

Lemma filter_daysOf (lo hi a b : Z) :
  lo <= a -> b <= hi -> a <= b + 1 ->
  List.filter (fun d => (a <=? d) && (d <=? b)) (daysOf lo hi) = daysOf a b.
Proof.
  intros H1 H2 H3.
  rewrite (daysOf_app lo (a - 1) hi) by lia.
  rewrite (daysOf_app (a - 1 + 1) b hi) by lia.
  rewrite !List.filter_app.
  rewrite (filter_none _ (daysOf lo (a - 1))), (filter_none _ (daysOf (b + 1) hi)).
  - rewrite filter_all, app_nil_r; simpl; [f_equal; lia|].
    apply List.Forall_forall. intros d Hd. apply In_daysOf in Hd. lia.
  - apply List.Forall_forall. intros d Hd. apply In_daysOf in Hd. lia.
  - apply List.Forall_forall. intros d Hd. apply In_daysOf in Hd. lia.
Qed.

Lemma count_sampled (lo today a : Z) (n : nat) :
  Z.of_nat (length (List.filter (fun d => Z.even (d - lo) || (d =? today))
                      (daysOf a (a + Z.of_nat n - 1))))
  = (a + Z.of_nat n - 1 - lo) / 2 - (a - lo + 1) / 2 + 1
    + todayExtra lo today a (a + Z.of_nat n - 1).
Proof.
  induction n as [|n IH].
  - rewrite daysOf_empty by lia. unfold todayExtra.
    change (Z.of_nat 0) with 0.
    replace ((a <=? today) && (today <=? a + 0 - 1)) with false by lia.
    cbn [andb length Z.of_nat List.filter]. Z.div_mod_to_equations. lia.
  - replace (a + Z.of_nat (S n) - 1) with (a + Z.of_nat n - 1 + 1) by lia.
    rewrite (daysOf_app a (a + Z.of_nat n - 1) (a + Z.of_nat n - 1 + 1)) by lia.
    rewrite daysOf_one, List.filter_app, length_app, Nat2Z.inj_add, IH.
    set (b := a + Z.of_nat n - 1). simpl.
    assert (Hb : a <= b + 1) by (unfold b; lia).
    unfold todayExtra.
    destruct (Z.even (b + 1 - lo)) eqn:He.
    + simpl. apply Z.even_spec in He as Heven.
      destruct Heven as [k Hk].
      assert (Hodd : forall t, t = b + 1 -> Z.odd (t - lo) = false).
      { intros t ->. rewrite <- Z.negb_even, He. reflexivity. }
      destruct (Z.eqb_spec today (b + 1)) as [->|Hne].
      * rewrite Hodd by reflexivity. rewrite !andb_false_r.
        Z.div_mod_to_equations. lia.
      * replace ((a <=? today) && (today <=? b + 1)) with ((a <=? today) && (today <=? b)) by lia.
        destruct ((a <=? today) && (today <=? b) && Z.odd (today - lo));
          Z.div_mod_to_equations; lia.
    + simpl. assert (Hodd : Z.odd (b + 1 - lo) = true) by (rewrite <- Z.negb_even, He; reflexivity).
      apply Z.odd_spec in Hodd as [k Hk].
      destruct (Z.eqb_spec (b + 1) today) as [<-|Hne]; simpl.
      * replace (Z.odd (b + 1 - lo)) with true
          by (symmetry; apply Z.odd_spec; exists k; exact Hk).
        replace ((a <=? b + 1) && (b + 1 <=? b)) with false by lia.
        replace ((a <=? b + 1) && (b + 1 <=? b + 1)) with true by lia.
        simpl. Z.div_mod_to_equations. lia.
      * replace ((a <=? today) && (today <=? b + 1)) with ((a <=? today) && (today <=? b)) by lia.
        destruct ((a <=? today) && (today <=? b) && Z.odd (today - lo));
          Z.div_mod_to_equations; lia.
Qed.

Lemma gridOf_count (lo hi today a b : Z) :
  lo <= a -> b <= hi -> a <= b + 1 ->
  Z.of_nat (length (List.filter (fun d => (a <=? d) && (d <=? b)) (gridOf lo hi today)))
  = (b - lo) / 2 - (a - lo + 1) / 2 + 1 + todayExtra lo today a b.
Proof.
  intros H1 H2 H3. unfold gridOf.
  rewrite filter_comm, filter_daysOf by assumption.
  pose proof (count_sampled lo today a (Z.to_nat (b - a + 1))) as Hc.
  replace (a + Z.of_nat (Z.to_nat (b - a + 1)) - 1) with b in Hc by lia.
  exact Hc.
Qed.

Lemma task_within_bounds (tasks : list task) (t : task) (m M s e : Z) :
  leastStart tasks m -> greatestEnd tasks M -> In t tasks ->
  calendarDate (Start_Date t) s -> calendarDate (End_Date t) e -> m <= s /\ e <= M.
Proof.
  intros [_ Hm] [_ HM] Ht Hs He. split; [exact (Hm t s Ht Hs) | exact (HM t e Ht He)].
Qed.

(** On calendar dates whose bounds are in order: the document, and the row
    it holds for a task of the list. *)
Lemma document_row (ver : version) (now : Z) (tasks : list task) (m M : Z) (t : task) :
  datesParse tasks -> leastStart tasks m -> greatestEnd tasks M -> m - 3 <= M + 3 ->
  In t tasks ->
  getTimelineRange ver now (sortTasks tasks) = Ok (gridOf (m - 3) (M + 3) now) /\
  exists doc,
    buildDocument ver now tasks = Ok doc /\
    colgroup doc = length (gridOf (m - 3) (M + 3) now) /\
    track_bar doc = track_bar_style /\
    In (task_row (Component_Group t) (warnClass (Warning t)) (warnText (Warning t))
          (cellsOf (gridOf (m - 3) (M + 3) now) now t))
      (taskRows doc).
Proof.
  intros Hp Hm HM Hle Ht.
  destruct (buildDocument_returns ver now tasks m M Hp Hm HM Hle) as [Hgrid [doc Hdoc]].
  split; [exact Hgrid |]. exists doc. split; [exact Hdoc |].
  destruct (taskRows_document ver now tasks doc Hdoc) as (range & Hrange & _ & Hstyle & Hrows).
  rewrite Hgrid in Hrange. injection Hrange as <-.
  split; [| split; [exact Hstyle |]].
  - destruct (buildDocument_Ok ver now tasks doc Hdoc) as (range & Hrange & _ & ->).
    rewrite Hgrid in Hrange. now injection Hrange as <-.
  - exact (taskRow_in _ now tasks doc t Hrows Ht).
Qed.

Lemma gridOf_length (lo hi today : Z) :
  lo <= hi + 1 ->
  Z.of_nat (length (gridOf lo hi today)) = (hi - lo) / 2 + 1 + todayExtra lo today lo hi.
Proof.
  intros Hle.
  rewrite <- (filter_all (fun d => (lo <=? d) && (d <=? hi)) (gridOf lo hi today)) at 1.
  - rewrite gridOf_count by lia. replace (lo - lo + 1) with 1 by lia.
    change (1 / 2) with 0. lia.
  - apply List.Forall_forall. intros d Hd. apply In_gridOf in Hd. lia.
Qed.

(** The bars of the row of a task with calendar dates, on the grid of the
    specification. *)
Lemma calendar_bar (ver : version) (now : Z) (tasks : list task) (m M : Z)
    (t : task) (s e : Z) :
  datesParse tasks -> leastStart tasks m -> greatestEnd tasks M -> m - 3 <= M + 3 ->
  In t tasks -> calendarDate (Start_Date t) s -> calendarDate (End_Date t) e ->
  let range := gridOf (m - 3) (M + 3) now in
  let span := length (List.filter (fun d => (s <=? d) && (d <=? e)) range) in
  barsOf (cellsOf range now t)
  = if Nat.eqb span 0 then []
    else [fill_cell (barOf span (warnClass (Warning t)) (pctOf t))].
Proof.
  intros Hp Hm HM Hle Ht Hs He range span.
  assert (Hgrid : getTimelineRange ver now tasks = Ok range)
    by now apply getTimelineRange_gridOf.
  rewrite (cellsOf_bar ver now tasks t range Ht Hgrid).
  unfold calendarDate in Hs, He. rewrite Hs, He, spanOf_calendar. reflexivity.
Qed.

(** The number of columns of the grid and the column span of a bar, in
    closed form, for a list of calendar dates: half the days of the interval,
    rounded as the even offsets fall, and one more where today falls on an odd
    offset within it.  The row that the document holds for the task has a bar
    exactly when the closed form is not zero, and the span of the bar is the
    closed form. *)
Theorem bar_colspan_closed_form (ver : version) (now : Z) (tasks : list task)
    (t : task) (m M s e : Z) :
  datesParse tasks -> leastStart tasks m -> greatestEnd tasks M ->
  In t tasks ->
  calendarDate (Start_Date t) s -> calendarDate (End_Date t) e -> s <= e ->
  let lo := m - 3 in
  let hi := M + 3 in
  let span := (e - lo) / 2 - (s - lo + 1) / 2 + 1 + todayExtra lo now s e in
  exists doc cells,
    buildDocument ver now tasks = Ok doc /\
    Z.of_nat (colgroup doc) = (hi - lo) / 2 + 1 + todayExtra lo now lo hi /\
    In (task_row (Component_Group t) (warnClass (Warning t)) (warnText (Warning t))
          cells)
      (taskRows doc) /\
    (barsOf cells = [] <-> span = 0) /\
    (span <> 0 -> exists b, barsOf cells = [fill_cell b] /\ Z.of_nat (colspan b) = span) /\
    (forall b, In (fill_cell b) cells -> Z.of_nat (colspan b) = span).
Proof.
  intros Hp Hm HM Ht Hs He Hse lo hi span.
  destruct (task_within_bounds tasks t m M s e Hm HM Ht Hs He) as [Hms HeM].
  assert (Hle : m - 3 <= M + 3) by lia.
  destruct (document_row ver now tasks m M t Hp Hm HM Hle Ht)
    as (Hgrid & doc & Hdoc & Hcols & _ & Hrow).
  exists doc, (cellsOf (gridOf lo hi now) now t).
  split; [exact Hdoc |]. split; [| split; [exact Hrow |]].
  - rewrite Hcols. apply gridOf_length. unfold lo, hi. lia.
  - pose proof (calendar_bar ver now tasks m M t s e Hp Hm HM Hle Ht Hs He) as Hbar.
    cbv zeta in Hbar. fold lo hi in Hbar.
    assert (Hspan : Z.of_nat (length (List.filter (fun d => (s <=? d) && (d <=? e))
                                        (gridOf lo hi now))) = span)
      by (apply gridOf_count; unfold lo, hi; lia).
    set (n := length (List.filter (fun d => (s <=? d) && (d <=? e)) (gridOf lo hi now)))
      in *.
    split; [| split].
    + rewrite Hbar. destruct (Nat.eqb_spec n 0); split; intros H;
        try discriminate H; try reflexivity; try lia.
    + intros Hne. rewrite Hbar. destruct (Nat.eqb_spec n 0); [lia |].
      eexists. split; [reflexivity | exact Hspan].
    + intros b Hb. apply cellsOf_bars in Hb. subst b. cbn [colspan barOf].
      unfold calendarDate in Hs, He. rewrite Hs, He, spanOf_calendar. exact Hspan.
Qed.

(** Which tasks get a bar, for a list of calendar dates: the row that the
    document holds for a task that ends after the day it starts has exactly
    one bar, as one of any two days in a row is sampled; the row of a task of
    a single day has a bar exactly when its day is at an even offset from the
    lower bound of the grid or is today, and no bar cell otherwise. *)
Theorem bar_presence (ver : version) (now : Z) (tasks : list task) (t : task)
    (m M s e : Z) :
  datesParse tasks -> leastStart tasks m -> greatestEnd tasks M ->
  In t tasks ->
  calendarDate (Start_Date t) s -> calendarDate (End_Date t) e -> s <= e ->
  exists doc cells,
    buildDocument ver now tasks = Ok doc /\
    In (task_row (Component_Group t) (warnClass (Warning t)) (warnText (Warning t))
          cells)
      (taskRows doc) /\
    (s < e -> length (barsOf cells) = 1%nat) /\
    (s = e ->
       (length (barsOf cells) = 1%nat <-> Z.even (s - (m - 3)) = true \/ s = now) /\
       (barsOf cells = [] <-> Z.even (s - (m - 3)) = false /\ s <> now)).
Proof.
  intros Hp Hm HM Ht Hs He Hse.
  destruct (task_within_bounds tasks t m M s e Hm HM Ht Hs He) as [Hms HeM].
  assert (Hle : m - 3 <= M + 3) by lia.
  destruct (document_row ver now tasks m M t Hp Hm HM Hle Ht)
    as (Hgrid & doc & Hdoc & _ & _ & Hrow).
  set (range := gridOf (m - 3) (M + 3) now) in *.
  exists doc, (cellsOf range now t).
  split; [exact Hdoc |]. split; [exact Hrow |].
  destruct (sorted_split3 range (parsed (Start_Date t)) (parsed (End_Date t))
              (gridOf_sorted (m - 3) (M + 3) now)) as (l1 & l2 & l3 & Hsplit).
  destruct (cells_layout range now _ _ (warnClass (Warning t)) (pctOf t) l1 l2 l3 Hsplit)
    as (_ & Hnil & Hone & _).
  fold (cellsOf range now t) in Hnil, Hone.
  unfold calendarDate in Hs, He. rewrite Hs, He in Hnil.
  assert (Hnil' : barsOf (cellsOf range now t) = [] <->
                  forall d, In d range -> (s <=? d) && (d <=? e) = false).
  { rewrite Hnil. split; intros H d Hd; specialize (H d Hd);
      now rewrite inInterval_calendar in *. }
  clear Hnil. rename Hnil' into Hnil.
  assert (Hcovered : forall d, m - 3 <= d <= M + 3 -> s <= d <= e ->
            Z.even (d - (m - 3)) = true \/ d = now ->
            length (barsOf (cellsOf range now t)) = 1%nat).
  { intros d Hd Hin Hsel.
    destruct (barsOf (cellsOf range now t)) as [|c [|c' rest]] eqn:Hbars;
      [| reflexivity | simpl in Hone; lia].
    assert (Hfalse : (s <=? d) && (d <=? e) = false).
    { apply (proj1 Hnil eq_refl). apply In_gridOf. split; assumption. }
    lia. }
  split.
  - intros Hlt. destruct (Z.even (s - (m - 3))) eqn:Hev.
    + apply (Hcovered s); [lia | lia | now left].
    + apply (Hcovered (s + 1)); [lia | lia | left].
      replace (s + 1 - (m - 3)) with (Z.succ (s - (m - 3))) by lia.
      rewrite Z.even_succ, <- Z.negb_even, Hev. reflexivity.
  - intros <-.
    assert (Hnone : Z.even (s - (m - 3)) = false /\ s <> now ->
              barsOf (cellsOf range now t) = []).
    { intros [Hev Hne]. apply Hnil. intros d Hd. apply In_gridOf in Hd as [Hd Hsel].
      destruct (Z.eq_dec d s) as [-> | Hds]; [| lia].
      destruct Hsel as [Hsel | Hsel]; [congruence | contradiction]. }
    split; split.
    + intros Hlen. destruct (Z.even (s - (m - 3))) eqn:Hev; [now left | right].
      destruct (Z.eq_dec s now) as [| Hne]; [assumption | exfalso].
      rewrite Hnone in Hlen; [discriminate Hlen | now split].
    + intros Hsel. apply (Hcovered s); [lia | lia | exact Hsel].
    + intros Hb. destruct (Z.even (s - (m - 3))) eqn:Hev.
      * pose proof (Hcovered s ltac:(lia) ltac:(lia) (or_introl Hev)) as Hlen.
        rewrite Hb in Hlen. discriminate Hlen.
      * split; [reflexivity |]. intros ->.
        pose proof (Hcovered now ltac:(lia) ltac:(lia) (or_intror eq_refl)) as Hlen.
        rewrite Hb in Hlen. discriminate Hlen.
    + exact Hnone.
Qed.

(** ** When the builder returns a document *)

Lemma datesRead_perm (l l' : list task) :
  Permutation l l' -> datesRead l -> datesRead l'.
Proof.
  unfold datesRead. intros Hperm H. rewrite List.Forall_forall in *.
  intros t Ht. apply H. eapply Permutation_in; [symmetry; exact Hperm | exact Ht].
Qed.

Lemma datesAreTexts_perm (l l' : list task) :
  Permutation l l' -> datesAreTexts l -> datesAreTexts l'.
Proof.
  unfold datesAreTexts. intros Hperm H. rewrite List.Forall_forall in *.
  intros t Ht. apply H. eapply Permutation_in; [symmetry; exact Hperm | exact Ht].
Qed.

Lemma earliestStart_perm (l l' : list task) (s : Z) :
  Permutation l l' -> earliestStart l s -> earliestStart l' s.
Proof.
  intros Hperm [(t & Ht & Hs) Hall]. split.
  - exists t. split; [eapply Permutation_in; eassumption | exact Hs].
  - intros t' s' Ht'. apply Hall. eapply Permutation_in; [symmetry; exact Hperm | exact Ht'].
Qed.

Lemma latestEnd_perm (l l' : list task) (e : Z) :
  Permutation l l' -> latestEnd l e -> latestEnd l' e.
Proof.
  intros Hperm [(t & Ht & Hs) Hall]. split.
  - exists t. split; [eapply Permutation_in; eassumption | exact Hs].
  - intros t' s' Ht'. apply Hall. eapply Permutation_in; [symmetry; exact Hperm | exact Ht'].
Qed.

(** A returned document: [parseISO] read every date, and under version 2
    the bounds of the grid were in order. *)
Lemma buildDocument_Ok_read (ver : version) (now : Z) (tasks : list task) (doc : document) :
  buildDocument ver now tasks = Ok doc ->
  datesRead tasks /\
  exists s e, earliestStart tasks s /\ latestEnd tasks e /\
              (ver = V2 -> s - 3 * msPerDay <= e + 3 * msPerDay).
Proof.
  intros Hdoc.
  destruct (taskRows_document ver now tasks doc Hdoc) as (range & Hrange & Hne & _).
  destruct (getTimelineRange_shape ver now (sortTasks tasks) range Hrange Hne)
    as (s & e & Hp & Hs & He & Hord).
  pose proof (sortTasks_perm tasks) as Hperm.
  split; [exact (datesRead_perm _ _ Hperm Hp) |].
  exists s, e. split; [exact (earliestStart_perm _ _ s Hperm Hs) |].
  split; [exact (latestEnd_perm _ _ e Hperm He) |].
  intros ->. destruct Hord as [[Hle _] | (_ & [=] & _)]. lia.
Qed.

(** The converse. *)
Lemma buildDocument_read_Ok (ver : version) (now : Z) (tasks : list task) (s e : Z) :
  datesRead tasks -> earliestStart tasks s -> latestEnd tasks e ->
  (ver = V2 -> s - 3 * msPerDay <= e + 3 * msPerDay) ->
  exists doc, buildDocument ver now tasks = Ok doc.
Proof.
  intros Hp Hs He Hord.
  pose proof (Permutation_sym (sortTasks_perm tasks)) as Hperm.
  pose proof (datesRead_perm _ _ Hperm Hp) as Hp'.
  pose proof (earliestStart_perm _ _ s Hperm Hs) as Hs'.
  pose proof (latestEnd_perm _ _ e Hperm He) as He'.
  unfold buildDocument.
  pose proof (getTimelineRange_cases ver now (sortTasks tasks)) as Hcases.
  rewrite (lowerBound_earliestStart _ s Hp' Hs') in Hcases.
  rewrite (upperBound_latestEnd _ e Hp' He') in Hcases.
  destruct (getTimelineRange ver now (sortTasks tasks)) as [[|d range] | err].
  - destruct Hcases as (_ & _ & [H | H]); discriminate H.
  - cbn [rbind].
    destruct (generateMonthHeader_nonempty (d :: range)) as [months ->]; [discriminate |].
    cbn [rbind]. eauto.
  - exfalso. destruct Hcases as [(-> & _ & Hno) | (_ & _ & Hno)].
    + apply Hno. eexists _, _. split; [reflexivity |]. split; [reflexivity |].
      specialize (Hord eq_refl). lia.
    + apply Hno. now apply datesRead_datesAreTexts.
Qed.

(** What the builder raises. *)
Lemma buildDocument_raises (ver : version) (now : Z) (tasks : list task) (err : exn) :
  buildDocument ver now tasks = Throw err ->
  (exists msg, err = RangeError msg) \/
  (ver = V3plus /\ ~ datesAreTexts tasks /\ exists msg, err = TypeError msg).
Proof.
  intros He. unfold buildDocument in He.
  pose proof (getTimelineRange_cases ver now (sortTasks tasks)) as Hcases.
  destruct (getTimelineRange ver now (sortTasks tasks)) as [[|d range] | e'].
  - cbn in He. injection He as <-. left. eauto.
  - cbn [rbind] in He.
    destruct (generateMonthHeader_nonempty (d :: range)) as [months Hmonths]; [discriminate |].
    rewrite Hmonths in He. discriminate He.
  - cbn in He. injection He as <-.
    destruct Hcases as [(_ & -> & _) | (-> & Hmsg & Hno)]; [left; eauto | right].
    split; [reflexivity |]. split; [| exact Hmsg].
    intros H. apply Hno. eapply datesAreTexts_perm; [| exact H].
    symmetry. apply sortTasks_perm.
Qed.

(** From version 3 on, a date field that is no string makes the builder
    raise a [TypeError]. *)
Lemma buildDocument_no_text (now : Z) (tasks : list task) :
  ~ datesAreTexts tasks ->
  exists msg, buildDocument V3plus now tasks = Throw (TypeError msg).
Proof.
  intros Hno.
  destruct (getTimelineRange_no_text now (sortTasks tasks)) as [msg Hmsg].
  - intros H. apply Hno. eapply datesAreTexts_perm; [| exact H]. apply sortTasks_perm.
  - exists msg. unfold buildDocument. now rewrite Hmsg.
Qed.

(** [buildHTML], on a list of task objects, returns a document exactly
    when the list is not empty, [parseISO] reads every start and every end as
    a date and, under version 2 of the date library, the earliest start less
    three days is not after the latest end plus three days.  On every other
    list it raises: a [TypeError] when, from version 3 on, a date field is no
    string, and a [RangeError] otherwise. *)
Theorem buildDocument_returns_iff (ver : version) (now : Z) (tasks : list task) :
  (is_Ok (buildDocument ver now tasks) <->
   datesRead tasks /\
   exists s e, earliestStart tasks s /\ latestEnd tasks e /\
               (ver = V2 -> s - 3 * msPerDay <= e + 3 * msPerDay)) /\
  (forall err, buildDocument ver now tasks = Throw err ->
     (exists msg, err = TypeError msg) /\ ver = V3plus /\ ~ datesAreTexts tasks \/
     (exists msg, err = RangeError msg) /\ (ver = V2 \/ datesAreTexts tasks)) /\
  (ver = V3plus -> ~ datesAreTexts tasks ->
   exists msg, buildDocument ver now tasks = Throw (TypeError msg)).
Proof.
  split; [split | split].
  - intros Hok. destruct (buildDocument ver now tasks) as [doc | e] eqn:Hdoc; [| contradiction].
    exact (buildDocument_Ok_read ver now tasks doc Hdoc).
  - intros (Hp & s & e & Hs & He & Hord).
    destruct (buildDocument_read_Ok ver now tasks s e Hp Hs He Hord) as [doc ->]. exact I.
  - intros err Herr.
    destruct (buildDocument_raises ver now tasks err Herr) as [Hmsg | (Hv & Hno & Hmsg)].
    + right. split; [exact Hmsg |].
      destruct ver; [now left | right].
      destruct (datesAreTexts_dec tasks) as [H | H]; [exact H | exfalso].
      destruct (buildDocument_no_text now tasks H) as [msg' Hthrow].
      rewrite Hthrow in Herr. injection Herr as <-. destruct Hmsg as [msg Hmsg]. discriminate.
    + left. auto.
  - intros -> Hno. now apply buildDocument_no_text.
Qed.

(** ** The month header *)

Lemma ym_eqb_eq (a b : Z * Z) : ym_eqb a b = true <-> a = b.
Proof.
  destruct a as [a1 a2], b as [b1 b2]. unfold ym_eqb. cbn [fst snd].
  rewrite andb_true_iff, !Z.eqb_eq. split; [intros [-> ->]; reflexivity | intros [= -> ->]; auto].
Qed.

Lemma month_fold (len : nat) (l : list Z) : forall (k : nat) html cur (span : nat),
  (k + length l = len)%nat -> l <> [] ->
  (1 <= span)%nat \/ (exists d l', l = d :: l' /\ format_MMMM_yyyy d = cur) ->
  exists n rest,
    fst (fst (fold_left (month_step len) (imap (fun i d => ((k + i)%nat, d)) l)
                (html, cur, span)))
    = (html ++ (n, cur) :: rest)%list /\
    (span <= n)%nat /\ (1 <= n)%nat /\
    Forall (fun b => (1 <= fst b)%nat) rest /\
    neighboursDiffer ((n, cur) :: rest) /\
    bandLabels ((n, cur) :: rest) = (repeat cur span ++ map format_MMMM_yyyy l)%list.
Proof.
  induction l as [|d l IH]; intros k html cur span Hlen Hne Hspan; [congruence |].
  assert (Hstep : forall f : nat -> Z -> nat * Z,
            imap f (d :: l) = f 0%nat d :: imap (fun i => f (S i)) l) by reflexivity.
  rewrite Hstep. cbn [fold_left]. rewrite Nat.add_0_r.
  assert (Himap : imap (fun i d0 => ((k + S i)%nat, d0)) l
                  = imap (fun i d0 => ((S k + i)%nat, d0)) l).
  { apply imap_ext. intros i x _. f_equal. lia. }
  rewrite Himap. clear Himap Hstep.
  cbn [length] in Hlen.
  unfold month_step at 2.
  destruct (ym_eqb (format_MMMM_yyyy d) cur) eqn:Hm.
  - apply ym_eqb_eq in Hm.
    destruct l as [|d' l'].
    + replace (k =? len - 1)%nat with true by (symmetry; apply Nat.eqb_eq; cbn in Hlen; lia).
      cbn [imap fold_left fst snd].
      exists (S span), [].
      split; [reflexivity |]. split; [lia |]. split; [lia |]. split; [constructor |].
      split; [exact I |].
      unfold bandLabels. cbn [flat_map fst snd map]. rewrite app_nil_r, Hm.
      apply repeat_cons.
    + replace (k =? len - 1)%nat with false by (symmetry; apply Nat.eqb_neq; cbn in Hlen; lia).
      destruct (IH (S k) html cur (S span)) as (n & rest & Hres & Hn & Hn1 & Hpos & Hdiff & Hlab);
        [cbn [length] in *; lia | discriminate | left; lia |].
      exists n, rest. rewrite Hres.
      split; [reflexivity |]. split; [lia |]. split; [lia |]. split; [exact Hpos |].
      split; [exact Hdiff |].
      rewrite Hlab. cbn [map]. rewrite Hm.
      change (repeat cur (S span)) with (cur :: repeat cur span).
      rewrite repeat_cons, <- app_assoc. reflexivity.
  - assert (Hneq : format_MMMM_yyyy d <> cur).
    { intros H. apply ym_eqb_eq in H. congruence. }
    assert (Hspan1 : (1 <= span)%nat).
    { destruct Hspan as [H | (d0 & l0 & [= <- <-] & H)]; [exact H | contradiction]. }
    destruct l as [|d' l'].
    + replace (k =? len - 1)%nat with true by (symmetry; apply Nat.eqb_eq; cbn in Hlen; lia).
      cbn [imap fold_left fst snd].
      exists span, [(1%nat, format_MMMM_yyyy d)]. rewrite <- app_assoc.
      split; [reflexivity |]. split; [lia |]. split; [lia |].
      split; [repeat constructor |].
      split; [cbn [neighboursDiffer snd]; split; [congruence | exact I] |].
      unfold bandLabels. cbn [flat_map fst snd map repeat]. rewrite app_nil_r. reflexivity.
    + replace (k =? len - 1)%nat with false by (symmetry; apply Nat.eqb_neq; cbn in Hlen; lia).
      destruct (IH (S k) (html ++ [(span, cur)])%list (format_MMMM_yyyy d) 1%nat)
        as (n & rest & Hres & Hn & Hn1 & Hpos & Hdiff & Hlab);
        [cbn [length] in *; lia | discriminate | left; lia |].
      exists span, ((n, format_MMMM_yyyy d) :: rest). rewrite Hres, <- app_assoc.
      split; [reflexivity |]. split; [lia |]. split; [lia |].
      split; [constructor; [exact Hn1 | exact Hpos] |].
      split; [split; [cbn [snd]; congruence | exact Hdiff] |].
      unfold bandLabels in *. cbn [flat_map fst snd] in *. rewrite Hlab.
      cbn [map repeat]. reflexivity.
Qed.

Lemma bandLabels_length (bands : list month_band) :
  length (bandLabels bands) = list_sum (map fst bands).
Proof.
  unfold bandLabels. induction bands as [|b bands IH]; [reflexivity |].
  cbn [flat_map map list_sum]. rewrite length_app, repeat_length, IH. reflexivity.
Qed.

Lemma generateMonthHeader_runs_aux (range : list Z) (bands : list month_band) :
  generateMonthHeader range = Ok bands ->
  bandLabels bands = map format_MMMM_yyyy range /\
  Forall (fun b => (1 <= fst b)%nat) bands /\
  neighboursDiffer bands /\
  list_sum (map fst bands) = length range.
Proof.
  intros H.
  destruct range as [|d0 range]; [discriminate |].
  assert (Hb : fst (fst (fold_left (month_step (length (d0 :: range)))
                           (imap (fun i d => (i, d)) (d0 :: range))
                           ([], format_MMMM_yyyy d0, 0%nat))) = bands)
    by exact (f_equal (fun r => match r with Ok a => a | Throw _ => [] end) H).
  clear H. subst bands.
  destruct (month_fold (length (d0 :: range)) (d0 :: range) 0 [] (format_MMMM_yyyy d0) 0)
    as (n & rest & Hres & _ & Hn1 & Hpos & Hdiff & Hlab);
    [reflexivity | discriminate | right; eauto |].
  assert (Himap : imap (fun i d => ((0 + i)%nat, d)) (d0 :: range)
                  = imap (fun i d => (i, d)) (d0 :: range)) by reflexivity.
  rewrite Himap in Hres. rewrite Hres. cbn [app].
  assert (Hl : bandLabels ((n, format_MMMM_yyyy d0) :: rest)
               = map format_MMMM_yyyy (d0 :: range)) by exact Hlab.
  split; [exact Hl |]. split; [constructor; assumption |]. split; [exact Hdiff |].
  rewrite <- bandLabels_length, Hl, length_map. reflexivity.
Qed.

(** The month bands are the runs of the month labels of the grid: read
    column by column they give the month of every grid day in order, every
    band covers at least one column, and neighbouring bands differ. *)
Theorem generateMonthHeader_runs (range : list Z) (bands : list month_band) :
  generateMonthHeader range = Ok bands ->
  bandLabels bands = map format_MMMM_yyyy range /\
  Forall (fun b => (1 <= fst b)%nat) bands /\
  neighboursDiffer bands /\
  list_sum (map fst bands) = length range.
Proof. exact (generateMonthHeader_runs_aux range bands). Qed.

(** ** The table is rectangular *)

Lemma task_row_of_body (range : list Z) (now : Z) (tasks : list task)
    (component : string) (wc : css_class) (wt : string) (cells : list cell) :
  In (task_row component wc wt cells) (bodyRows range now tasks) ->
  exists t, In t tasks /\ task_row component wc wt cells = taskRow range now t.
Proof.
  intros Hin.
  assert (Hf : In (task_row component wc wt cells)
                 (List.filter isTaskRow (bodyRows range now tasks)))
    by (apply filter_In; split; [exact Hin | reflexivity]).
  rewrite taskRows_bodyRows in Hf. apply in_map_iff in Hf as (t & Ht & Hin').
  exists t. split; [exact Hin' | now symmetry].
Qed.

(** Every row of a returned document spans the same number of grid
    columns: the column group, the month bands together, the day headers and
    the cells of each task row. *)
Theorem buildDocument_rectangular (ver : version) (now : Z) (tasks : list task)
    (doc : document) :
  buildDocument ver now tasks = Ok doc ->
  list_sum (map fst (month_header doc)) = colgroup doc /\
  length (day_headers doc) = colgroup doc /\
  (forall component wc wt cells,
     In (task_row component wc wt cells) (body doc) ->
     columnsFilled cells = colgroup doc) /\
  (1 <= colgroup doc)%nat.
Proof.
  intros Hdoc.
  apply buildDocument_inv in Hdoc as (range & months & Hrange & Hmonths & ->).
  cbn [colgroup month_header day_headers body].
  split; [| split; [| split]].
  - exact (proj2 (proj2 (proj2 (generateMonthHeader_runs_aux range months Hmonths)))).
  - unfold generateDayHeader. apply length_map.
  - intros component wc wt cells Hin.
    apply task_row_of_body in Hin as (t & Ht & Heq).
    injection Heq as _ _ _ ->.
    destruct (grid_split3 ver now (sortTasks tasks) t range Ht Hrange)
      as (l1 & l2 & l3 & Hsplit).
    exact (proj2 (proj2 (proj2
             (cells_layout range now _ _ (warnClass (Warning t)) (pctOf t) l1 l2 l3 Hsplit)))).
  - destruct range; [discriminate Hmonths | cbn; lia].
Qed.

(** ** The marker of today *)

Lemma gridOf_count_day (lo hi today x : Z) :
  length (List.filter (fun d => d =? x) (gridOf lo hi today))
  = if (lo <=? x) && (x <=? hi) && (Z.even (x - lo) || (x =? today)) then 1%nat else 0%nat.
Proof.
  destruct ((lo <=? x) && (x <=? hi) && (Z.even (x - lo) || (x =? today))) eqn:Hin.
  - apply Nat2Z.inj.
    rewrite (filter_ext _ (fun d => (x <=? d) && (d <=? x)))
      by (intros d; lia).
    rewrite gridOf_count by lia. unfold todayExtra.
    apply andb_true_iff in Hin as [Hb Hsel].
    change (Z.of_nat 1) with 1.
    destruct (Z.even (x - lo)) eqn:Hev.
    + assert (Hextra : (x <=? today) && (today <=? x) && Z.odd (today - lo) = false).
      { destruct (Z.eq_dec today x) as [-> | Hne].
        - rewrite <- Z.negb_even, Hev. apply andb_false_r.
        - replace ((x <=? today) && (today <=? x)) with false by lia. reflexivity. }
      rewrite Hextra.
      apply Z.even_spec in Hev as [k Hk]. Z.div_mod_to_equations. lia.
    + cbn [orb] in Hsel. apply Z.eqb_eq in Hsel. subst today.
      rewrite <- Z.negb_even, Hev.
      replace ((x <=? x) && (x <=? x)) with true by lia. cbn [negb andb].
      assert (Hodd : Z.odd (x - lo) = true) by (rewrite <- Z.negb_even, Hev; reflexivity).
      apply Z.odd_spec in Hodd as [k Hk]. Z.div_mod_to_equations. lia.
  - rewrite filter_none; [reflexivity |].
    apply List.Forall_forall. intros d Hd. apply In_gridOf in Hd as [Hd Hsel].
    destruct (Z.eqb_spec d x) as [-> |]; [| reflexivity].
    exfalso.
    replace ((lo <=? x) && (x <=? hi)) with true in Hin by lia.
    destruct Hsel as [Hs | Hs]; [rewrite Hs in Hin; discriminate Hin |].
    subst today. rewrite Z.eqb_refl, orb_true_r in Hin. discriminate Hin.
Qed.

Lemma gridOf_count_today (lo hi today : Z) :
  length (List.filter (fun d => d =? today) (gridOf lo hi today))
  = if (lo <=? today) && (today <=? hi) then 1%nat else 0%nat.
Proof.
  rewrite gridOf_count_day, Z.eqb_refl, orb_true_r, andb_true_r. reflexivity.
Qed.

Lemma today_headers_count (range : list Z) (today : Z) :
  length (List.filter today_header (generateDayHeader range today))
  = length (List.filter (fun d => d =? today) range).
Proof.
  unfold generateDayHeader. induction range as [|d range IH]; [reflexivity |].
  cbn [map List.filter today_header]. destruct (d =? today); cbn [length]; rewrite IH; reflexivity.
Qed.

Lemma today_cells_plain (today : Z) (l : list Z) :
  length (List.filter isTodayCell (map (fun d => plain_cell (d =? today)) l))
  = length (List.filter (fun d => d =? today) l).
Proof.
  induction l as [|d l IH]; [reflexivity |].
  cbn [map List.filter isTodayCell]. destruct (d =? today); cbn [length]; rewrite IH; reflexivity.
Qed.

Lemma today_cells_split (range : list Z) (today : Z) (start end_ : date)
    (warn : css_class) (pct : float) (l1 l2 l3 : list Z) :
  split3 range start end_ l1 l2 l3 ->
  length (List.filter isTodayCell (cellsFrom range today start end_ warn pct 0 false))
  = if inInterval start end_ today then 0%nat
    else length (List.filter (fun d => d =? today) range).
Proof.
  intros Hsplit.
  rewrite (cellsFrom_split range today start end_ warn pct l1 l2 l3 Hsplit).
  destruct Hsplit as (-> & H1 & H2 & H3).
  rewrite !List.filter_app, !length_app, !today_cells_plain.
  assert (Hbar : length (List.filter isTodayCell
                           match l2 with
                           | [] => []
                           | _ :: _ =>
                               [fill_cell (barOf (spanOf (l1 ++ l2 ++ l3) start end_) warn pct)]
                           end) = 0%nat) by (destruct l2; reflexivity).
  rewrite Hbar. clear Hbar.
  assert (Hout : forall l, Forall (fun d => inInterval start end_ d = false) l ->
            inInterval start end_ today = true ->
            List.filter (fun d => d =? today) l = []).
  { intros l Hl Hin. apply filter_none. rewrite List.Forall_forall in *.
    intros d Hd. destruct (Z.eqb_spec d today) as [-> |]; [| reflexivity].
    rewrite (Hl today Hd) in Hin. discriminate Hin. }
  destruct (inInterval start end_ today) eqn:Hin.
  - rewrite (Hout l1 H1 eq_refl), (Hout l3 H3 eq_refl). reflexivity.
  - assert (H2' : List.filter (fun d => d =? today) l2 = []).
    { apply filter_none. rewrite List.Forall_forall in *.
      intros d Hd. destruct (Z.eqb_spec d today) as [-> |]; [| reflexivity].
      rewrite (H2 today Hd) in Hin. discriminate Hin. }
    rewrite H2'. cbn [length]. lia.
Qed.

(** The day header marks today on exactly one column when today is within
    the bounds of the grid, and on none otherwise. *)
Theorem today_marked_once (ver : version) (now : Z) (tasks : list task) (m M : Z) :
  datesParse tasks -> leastStart tasks m -> greatestEnd tasks M -> m - 3 <= M + 3 ->
  exists doc,
    buildDocument ver now tasks = Ok doc /\
    length (List.filter today_header (day_headers doc))
    = if (m - 3 <=? now) && (now <=? M + 3) then 1%nat else 0%nat.
Proof.
  intros Hp Hm HM Hle.
  destruct (buildDocument_returns ver now tasks m M Hp Hm HM Hle) as [Hgrid [doc Hdoc]].
  exists doc. split; [exact Hdoc |].
  apply buildDocument_inv in Hdoc as (range & months & Hrange & _ & ->).
  rewrite Hgrid in Hrange. injection Hrange as <-.
  cbn [day_headers]. rewrite today_headers_count. apply gridOf_count_today.
Qed.

(** For a list of calendar dates, the row that the document holds for a
    task shows the marker of today on one empty cell when today is within the
    bounds of the grid and outside the interval of the task; a row whose bar
    covers today shows no marker. *)
Theorem today_hidden_under_bar (ver : version) (now : Z) (tasks : list task)
    (t : task) (m M s e : Z) :
  datesParse tasks -> leastStart tasks m -> greatestEnd tasks M -> m - 3 <= M + 3 ->
  In t tasks ->
  calendarDate (Start_Date t) s -> calendarDate (End_Date t) e ->
  exists doc cells,
    buildDocument ver now tasks = Ok doc /\
    In (task_row (Component_Group t) (warnClass (Warning t)) (warnText (Warning t))
          cells)
      (taskRows doc) /\
    length (List.filter isTodayCell cells)
    = if (m - 3 <=? now) && (now <=? M + 3) && negb ((s <=? now) && (now <=? e))
      then 1%nat else 0%nat.
Proof.
  intros Hp Hm HM Hle Ht Hs He.
  destruct (document_row ver now tasks m M t Hp Hm HM Hle Ht)
    as (Hgrid & doc & Hdoc & _ & _ & Hrow).
  exists doc, (cellsOf (gridOf (m - 3) (M + 3) now) now t).
  split; [exact Hdoc |]. split; [exact Hrow |].
  destruct (sorted_split3 (gridOf (m - 3) (M + 3) now)
              (parsed (Start_Date t)) (parsed (End_Date t))
              (gridOf_sorted (m - 3) (M + 3) now)) as (l1 & l2 & l3 & Hsplit).
  unfold cellsOf. rewrite (today_cells_split _ now _ _ _ _ l1 l2 l3 Hsplit).
  rewrite gridOf_count_today.
  unfold calendarDate in Hs, He. rewrite Hs, He, inInterval_calendar.
  destruct ((s <=? now) && (now <=? e));
    [rewrite andb_false_r | rewrite andb_true_r]; reflexivity.
Qed.

(** ** The separator rows *)

Lemma headingsFrom_app (rows1 rows2 : list row) : forall h,
  headingsFrom h (rows1 ++ rows2)
  = (headingsFrom h rows1 ++ headingsFrom (fold_left readRow rows1 h) rows2)%list.
Proof.
  induction rows1 as [|r rows1 IH]; intros h; [reflexivity |].
  destruct r; cbn [app headingsFrom fold_left readRow]; rewrite IH; reflexivity.
Qed.

Lemma placesFrom_app (rows1 rows2 : list row) : forall p,
  placesFrom p (rows1 ++ rows2)
  = match placesFrom p rows1 with
    | Some p' => placesFrom p' rows2
    | None => None
    end.
Proof.
  induction rows1 as [|r rows1 IH]; intros p; [reflexivity |].
  cbn [app placesFrom]. destruct (nextPlace p r); [apply IH | reflexivity].
Qed.

Lemma facilityHeaders_app (rows1 rows2 : list row) :
  facilityHeaders (rows1 ++ rows2) = (facilityHeaders rows1 ++ facilityHeaders rows2)%list.
Proof. apply flat_map_app. Qed.

Lemma String_eqb_neq (a b : string) : a <> b -> String.eqb a b = false.
Proof. intros H. now apply String.eqb_neq. Qed.

(** One turn of the loop, and the loop, in closed form. *)
Lemma row_step_separators (range : list Z) (today : Z) (t : task)
    (body : list row) (lastMro lastAc : string) :
  row_step range today (body, lastMro, lastAc) t
  = ((body ++ separators lastMro lastAc t ++ [taskRow range today t])%list,
     MRO t, Aircraft t).
Proof.
  unfold row_step, separators.
  destruct (String.eqb_spec (MRO t) lastMro) as [Hm | Hm]; cbn [negb].
  - destruct (String.eqb_spec (Aircraft t) lastAc) as [Ha | Ha]; cbn [negb app].
    + rewrite Hm, Ha. reflexivity.
    + rewrite Hm, <- app_assoc. reflexivity.
  - destruct (String.eqb_spec (Aircraft t) "") as [Ha | Ha]; cbn [negb].
    + rewrite Ha, app_nil_r.
      destruct (String.eqb lastMro ""); cbn [negb app]; rewrite <- ?app_assoc; reflexivity.
    + destruct (String.eqb lastMro ""); cbn [negb app]; rewrite <- ?app_assoc; reflexivity.
Qed.

Lemma fold_row_step (range : list Z) (today : Z) (tasks : list task) :
  forall body lastMro lastAc,
  fst (fst (fold_left (row_step range today) tasks (body, lastMro, lastAc)))
  = (body ++ rowsFrom range today lastMro lastAc tasks)%list.
Proof.
  induction tasks as [|t tasks IH]; intros body lastMro lastAc.
  - cbn. now rewrite app_nil_r.
  - cbn [fold_left rowsFrom]. rewrite row_step_separators, IH, <- !app_assoc. reflexivity.
Qed.

Lemma bodyRows_rowsFrom (range : list Z) (today : Z) (tasks : list task) :
  bodyRows range today tasks = rowsFrom range today "" "" tasks.
Proof. unfold bodyRows. now rewrite fold_row_step. Qed.

Lemma facilityHeaders_rowsFrom (range : list Z) (today : Z) (tasks : list task) :
  forall lastMro lastAc,
  facilityHeaders (rowsFrom range today lastMro lastAc tasks)
  = changes lastMro (map MRO tasks).
Proof.
  induction tasks as [|t tasks IH]; intros lastMro lastAc; [reflexivity |].
  cbn [rowsFrom map changesBy]. rewrite facilityHeaders_app.
  change (taskRow range today t :: ?l) with ([taskRow range today t] ++ l)%list.
  rewrite facilityHeaders_app, IH. unfold separators.
  destruct (String.eqb (MRO t) lastMro);
    destruct (String.eqb (Aircraft t) _); destruct (String.eqb lastMro ""); reflexivity.
Qed.

(** The reader's state that goes with the two separator variables. *)
Lemma headings_rowsFrom (range : list Z) (today : Z) (tasks : list task) :
  forall lastMro lastAc,
  groupsNamed tasks ->
  headingsFrom (if String.eqb lastMro "" then (None, None) else (Some lastMro, Some lastAc))
    (rowsFrom range today lastMro lastAc tasks)
  = map (fun t => (Some (MRO t), Some (Aircraft t))) tasks.
Proof.
  induction tasks as [|t tasks IH]; intros lastMro lastAc Hnamed; [reflexivity |].
  apply Forall_cons in Hnamed as [[Hm Ha] Hnamed].
  cbn [rowsFrom map]. rewrite headingsFrom_app.
  specialize (IH (MRO t) (Aircraft t) Hnamed).
  rewrite (String_eqb_neq _ _ Hm) in IH.
  assert (Hseps : headingsFrom
                    (if String.eqb lastMro "" then (None, None) else (Some lastMro, Some lastAc))
                    (separators lastMro lastAc t) = []
                  /\ fold_left readRow (separators lastMro lastAc t)
                       (if String.eqb lastMro "" then (None, None)
                        else (Some lastMro, Some lastAc))
                     = (Some (MRO t), Some (Aircraft t))).
  { unfold separators.
    destruct (String.eqb_spec (MRO t) lastMro) as [Heq | Hne].
    - subst lastMro. rewrite (String_eqb_neq _ _ Hm).
      destruct (String.eqb_spec (Aircraft t) lastAc) as [-> | Hne]; split; reflexivity.
    - rewrite (String_eqb_neq _ _ Ha).
      destruct (String.eqb lastMro ""); split; reflexivity. }
  destruct Hseps as [-> ->]. cbn [app headingsFrom]. rewrite IH. reflexivity.
Qed.

Lemma places_rowsFrom (range : list Z) (today : Z) (tasks : list task) :
  forall lastMro lastAc,
  groupsNamed tasks ->
  placesFrom (if String.eqb lastMro "" then AtStart else AfterTask)
    (rowsFrom range today lastMro lastAc tasks)
  = Some (match tasks with
          | [] => if String.eqb lastMro "" then AtStart else AfterTask
          | _ :: _ => AfterTask
          end).
Proof.
  induction tasks as [|t tasks IH]; intros lastMro lastAc Hnamed; [reflexivity |].
  apply Forall_cons in Hnamed as [[Hm Ha] Hnamed].
  cbn [rowsFrom]. rewrite placesFrom_app.
  specialize (IH (MRO t) (Aircraft t) Hnamed).
  rewrite (String_eqb_neq _ _ Hm) in IH.
  assert (Hseps : exists p,
            placesFrom (if String.eqb lastMro "" then AtStart else AfterTask)
              (separators lastMro lastAc t) = Some p /\
            nextPlace p (taskRow range today t) = Some AfterTask).
  { unfold separators.
    destruct (String.eqb_spec (MRO t) lastMro) as [Heq | Hne].
    - subst lastMro. rewrite (String_eqb_neq _ _ Hm).
      destruct (String.eqb (Aircraft t) lastAc); eexists; split; reflexivity.
    - rewrite (String_eqb_neq _ _ Ha).
      destruct (String.eqb lastMro ""); eexists; split; reflexivity. }
  destruct Hseps as (p & -> & Hp). cbn [placesFrom]. rewrite Hp, IH.
  destruct tasks; reflexivity.
Qed.

Lemma spacers_rowsFrom (range : list Z) (today : Z) (tasks : list task) :
  forall lastMro lastAc,
  groupsNamed tasks ->
  (length (List.filter isSpacer (rowsFrom range today lastMro lastAc tasks))
   + (if String.eqb lastMro "" then match tasks with [] => 0 | _ :: _ => 1 end else 0)
   = length (facilityHeaders (rowsFrom range today lastMro lastAc tasks)))%nat.
Proof.
  induction tasks as [|t tasks IH]; intros lastMro lastAc Hnamed.
  - cbn. now destruct (String.eqb lastMro "").
  - apply Forall_cons in Hnamed as [[Hm Ha] Hnamed].
    cbn [rowsFrom]. rewrite facilityHeaders_app, List.filter_app, !length_app.
    change (taskRow range today t :: ?l) with ([taskRow range today t] ++ l)%list.
    rewrite facilityHeaders_app, List.filter_app, !length_app.
    specialize (IH (MRO t) (Aircraft t) Hnamed).
    rewrite (String_eqb_neq _ _ Hm) in IH.
    cbn [List.filter isSpacer taskRow facilityHeaders flat_map length app].
    unfold separators.
    destruct (String.eqb_spec (MRO t) lastMro) as [Heq | Hne].
    + subst lastMro. rewrite (String_eqb_neq _ _ Hm).
      destruct (String.eqb (Aircraft t) lastAc); cbn; lia.
    + destruct (String.eqb (Aircraft t) ""), (String.eqb lastMro ""); cbn; lia.
Qed.

Lemma groupsNamed_perm (l l' : list task) :
  Permutation l l' -> groupsNamed l -> groupsNamed l'.
Proof.
  unfold groupsNamed. intros Hperm H. rewrite List.Forall_forall in *.
  intros t Ht. apply H. eapply Permutation_in; [symmetry; exact Hperm | exact Ht].
Qed.

(** Every task row stands under the header of its own facility and,
    below it, the header of its own aircraft. *)
Theorem rows_under_own_headings (ver : version) (now : Z) (tasks : list task)
    (doc : document) :
  groupsNamed tasks ->
  buildDocument ver now tasks = Ok doc ->
  headings (body doc)
  = map (fun t => (Some (MRO t), Some (Aircraft t))) (sortTasks tasks).
Proof.
  intros Hnamed Hdoc.
  apply buildDocument_inv in Hdoc as (range & months & _ & _ & ->).
  cbn [body]. rewrite bodyRows_rowsFrom. unfold headings.
  apply (headings_rowsFrom range now (sortTasks tasks) "" "").
  eapply groupsNamed_perm; [symmetry; apply sortTasks_perm | exact Hnamed].
Qed.

(** The body is well grouped: it opens with a facility header, a spacer
    stands between two facility groups and nowhere else, every facility header
    is followed by an aircraft header and every aircraft header by a task
    row. *)
Theorem body_well_grouped (ver : version) (now : Z) (tasks : list task) (doc : document) :
  groupsNamed tasks ->
  buildDocument ver now tasks = Ok doc ->
  wellGrouped (body doc) = true /\
  (length (List.filter isSpacer (body doc)) + 1
   = length (facilityHeaders (body doc)))%nat.
Proof.
  intros Hnamed Hdoc.
  pose proof (buildDocument_Ok_read ver now tasks doc Hdoc) as (_ & m & _ & Hm & _).
  apply buildDocument_inv in Hdoc as (range & months & _ & _ & ->).
  cbn [body]. rewrite bodyRows_rowsFrom.
  assert (Hs : groupsNamed (sortTasks tasks))
    by (eapply groupsNamed_perm; [symmetry; apply sortTasks_perm | exact Hnamed]).
  assert (Hne : sortTasks tasks <> []).
  { destruct Hm as [(t & Ht & _) _]. apply In_sortTasks in Ht.
    intros Hnil. rewrite Hnil in Ht. destruct Ht. }
  split.
  - unfold wellGrouped.
    pose proof (places_rowsFrom range now (sortTasks tasks) "" "" Hs) as Hp.
    cbn [String.eqb] in Hp. rewrite Hp. destruct (sortTasks tasks); reflexivity.
  - pose proof (spacers_rowsFrom range now (sortTasks tasks) "" "" Hs) as Hc.
    cbn [String.eqb] in Hc. destruct (sortTasks tasks); [congruence | exact Hc].
Qed.

(** ** One header for each facility *)

Lemma StronglySorted_weaken {A : Type} (R S : A -> A -> Prop) (l : list A) :
  (forall a b, R a b -> S a b) -> StronglySorted R l -> StronglySorted S l.
Proof.
  intros HRS H. induction H as [|a l Hl IH Ha]; constructor; [exact IH |].
  eapply List.Forall_impl; [| exact Ha]. intros b. apply HRS.
Qed.

Lemma last_cons_default {A : Type} (l : list A) : forall x d : A,
  List.last (x :: l) d = List.last l x.
Proof.
  induction l as [|y l IH]; intros x d; [reflexivity |].
  change (List.last (x :: y :: l) d) with (List.last (y :: l) d).
  now rewrite (IH y d), (IH y x).
Qed.

Section Runs.
Context {A : Type}.
Variable same : A -> A -> bool.
Hypothesis same_eq : forall x y, same x y = true <-> x = y.
Variable g : task -> A.
Variable key : task -> key3.

Lemma same_neq (x y : A) : x <> y -> same x y = false.
Proof.
  intros H. destruct (same x y) eqn:Hs; [| reflexivity].
  apply same_eq in Hs. contradiction.
Qed.

Lemma In_changesBy (x : A) (l : list A) : forall prev,
  In x (changesBy same prev l) -> In x l.
Proof.
  induction l as [|y l IH]; intros prev H; [exact H |].
  cbn [changesBy] in H. destruct (same y prev).
  - right. exact (IH y H).
  - destruct H as [-> | H]; [now left | right; exact (IH y H)].
Qed.

Lemma changesBy_In (x : A) (l : list A) : forall prev,
  In x l -> x <> prev -> In x (changesBy same prev l).
Proof.
  induction l as [|y l IH]; intros prev Hin Hne; [destruct Hin |].
  cbn [changesBy].
  destruct (same x y) eqn:Hxy.
  - apply same_eq in Hxy. subst y. rewrite (same_neq _ _ Hne). now left.
  - assert (Hxy' : x <> y) by (intros ->; rewrite (proj2 (same_eq y y) eq_refl) in Hxy;
                               discriminate).
    destruct Hin as [-> | Hin]; [congruence |].
    destruct (same y prev); [| right]; apply IH; assumption.
Qed.

Lemma changesBy_app (l1 l2 : list A) : forall prev,
  changesBy same prev (l1 ++ l2)
  = (changesBy same prev l1 ++ changesBy same (List.last l1 prev) l2)%list.
Proof.
  induction l1 as [|x l1 IH]; intros prev; [reflexivity |].
  cbn [app changesBy]. rewrite IH, last_cons_default.
  destruct (same x prev); reflexivity.
Qed.

(** In a list sorted by a key that tells the groups apart, the groups
    that differ from their predecessor are those of a sublist with strictly
    increasing keys. *)
Lemma changes_sorted (l : list task) : forall t0 : task,
  StronglySorted (fun a b => key_le (key a) (key b)) (t0 :: l) ->
  (forall a b, In a (t0 :: l) -> In b (t0 :: l) -> (g a = g b <-> key a = key b)) ->
  exists l',
    changesBy same (g t0) (map g l) = map g l' /\
    StronglySorted (fun a b => key_lt (key a) (key b)) (t0 :: l') /\
    incl l' l.
Proof.
  induction l as [|y l IH]; intros t0 Hs Hkey.
  - exists []. split; [reflexivity |]. split; [repeat constructor | intros x []].
  - apply StronglySorted_inv in Hs as [Hs H0].
    apply Forall_cons in H0 as [H0y H0].
    destruct (IH y Hs) as (l' & Hch & Hs' & Hincl).
    { intros a b Ha Hb. apply Hkey; now right. }
    cbn [map changesBy].
    destruct (same (g y) (g t0)) eqn:Hsame.
    + apply same_eq in Hsame.
      exists l'. split; [exact Hch |]. split; [| intros x Hx; right; now apply Hincl].
      assert (Hk : key y = key t0)
        by (apply Hkey; [right; now left | now left | exact Hsame]).
      apply StronglySorted_inv in Hs' as [Hs' Hy].
      constructor; [exact Hs' |]. rewrite <- Hk. exact Hy.
    + exists (y :: l'). split; [cbn [map]; now rewrite Hch |].
      split; [| intros x [-> | Hx]; [now left | right; now apply Hincl]].
      assert (Hlt : key_lt (key t0) (key y)).
      { destruct H0y as [Hlt | Heq]; [exact Hlt | exfalso].
        assert (Hg : g t0 = g y) by (apply Hkey; [now left | right; now left | exact Heq]).
        rewrite Hg, (proj2 (same_eq (g y) (g y)) eq_refl) in Hsame. discriminate. }
      constructor; [exact Hs' |].
      constructor; [exact Hlt |].
      apply StronglySorted_inv in Hs' as [_ Hy].
      eapply List.Forall_impl; [| exact Hy]. cbn beta. intros b Hb.
      exact (key_lt_trans _ _ _ Hlt Hb).
Qed.

Lemma sorted_keys_NoDup (l : list task) :
  StronglySorted (fun a b => key_lt (key a) (key b)) l ->
  (forall a b, In a l -> In b l -> g a = g b -> key a = key b) ->
  List.NoDup (map g l).
Proof.
  intros Hs Hkey. induction Hs as [|a l Hl IH Ha]; [constructor |].
  cbn [map]. constructor.
  - intros Hin. apply in_map_iff in Hin as (b & Hb & Hin).
    rewrite List.Forall_forall in Ha. specialize (Ha b Hin).
    assert (Heq : key a = key b) by (apply Hkey; [now left | now right | now symmetry]).
    rewrite Heq in Ha. exact (key_lt_irrefl _ Ha).
  - apply IH. intros x y Hx Hy. apply Hkey; now right.
Qed.

Lemma changes_NoDup (s : list task) (prev : A) :
  StronglySorted (fun a b => key_le (key a) (key b)) s ->
  (forall a b, In a s -> In b s -> (g a = g b <-> key a = key b)) ->
  List.NoDup (changesBy same prev (map g s)).
Proof.
  intros Hs Hkey. destruct s as [|t1 rest]; [constructor |].
  destruct (changes_sorted rest t1 Hs Hkey) as (l' & Hch & Hs' & Hincl).
  assert (Hnd : List.NoDup (map g (t1 :: l'))).
  { apply sorted_keys_NoDup; [exact Hs' |].
    intros a b Ha Hb. apply Hkey.
    - destruct Ha as [<- | Ha]; [now left | right; now apply Hincl].
    - destruct Hb as [<- | Hb]; [now left | right; now apply Hincl]. }
  cbn [map changesBy]. rewrite Hch.
  destruct (same (g t1) prev); [now apply List.NoDup_cons_iff in Hnd | exact Hnd].
Qed.

End Runs.

Lemma samePair_eq (x y : string * string) : samePair x y = true <-> x = y.
Proof.
  destruct x as [x1 x2], y as [y1 y2]. unfold samePair. cbn [fst snd].
  rewrite andb_true_iff, !String.eqb_eq.
  split; [intros [-> ->]; reflexivity | intros [= -> ->]; auto].
Qed.

Lemma sortTasks_sorted (tasks : list task) :
  endsParse tasks -> ownNames tasks ->
  StronglySorted (fun a b => key_le (triageKey tasks a) (triageKey tasks b)) (sortTasks tasks).
Proof.
  intros Hp Hown.
  exact (Array_sort_sorted _ (triageKey tasks) tasks (compareTasks_follows tasks Hp Hown)).
Qed.

Lemma sortTasks_stable (tasks : list task) (k : key3) :
  endsParse tasks -> ownNames tasks ->
  List.filter (fun a => key_eqb (triageKey tasks a) k) (sortTasks tasks)
  = List.filter (fun a => key_eqb (triageKey tasks a) k) tasks.
Proof.
  intros Hp Hown.
  exact (Array_sort_stable _ (triageKey tasks) k tasks (compareTasks_follows tasks Hp Hown)).
Qed.

Lemma facilityKey_same (tasks : list task) (a b : task) :
  MRO a = MRO b -> facilityKey tasks a = facilityKey tasks b.
Proof. intros H. unfold facilityKey. now rewrite H. Qed.

Lemma aircraftKey_same (tasks : list task) (a b : task) :
  Aircraft a = Aircraft b -> aircraftKey tasks a = aircraftKey tasks b.
Proof. intros H. unfold aircraftKey. now rewrite H. Qed.

Lemma sortTasks_by_facility (tasks : list task) :
  endsParse tasks -> ownNames tasks ->
  StronglySorted
    (fun a b => key_le (facilityKey tasks a, 0, 0) (facilityKey tasks b, 0, 0))
    (sortTasks tasks).
Proof.
  intros Hp Hown.
  eapply StronglySorted_weaken; [| exact (sortTasks_sorted tasks Hp Hown)].
  intros a b. unfold triageKey, key_le, key_lt.
  intros [[H | [H _]] | H].
  - left. left. exact H.
  - right. now rewrite H.
  - injection H as -> _ _. now right.
Qed.

Lemma sortTasks_by_aircraft (tasks : list task) :
  endsParse tasks -> ownNames tasks ->
  StronglySorted
    (fun a b => key_le (facilityKey tasks a, aircraftKey tasks a, 0)
                       (facilityKey tasks b, aircraftKey tasks b, 0))
    (sortTasks tasks).
Proof.
  intros Hp Hown.
  eapply StronglySorted_weaken; [| exact (sortTasks_sorted tasks Hp Hown)].
  intros a b. unfold triageKey, key_le, key_lt.
  intros [[H | [H1 [H | [H _]]]] | H].
  - left. left. exact H.
  - left. right. split; [exact H1 | left; exact H].
  - right. now rewrite H1, H.
  - injection H as -> -> _. now right.
Qed.

Lemma facilityHeaders_NoDup (range : list Z) (today : Z) (tasks : list task) :
  endsParse tasks -> ownNames tasks ->
  (forall a b, In a tasks -> In b tasks ->
     MRO a <> MRO b -> facilityKey tasks a <> facilityKey tasks b) ->
  List.NoDup (facilityHeaders (bodyRows range today (sortTasks tasks))).
Proof.
  intros Hp Hown Hdist.
  rewrite bodyRows_rowsFrom, facilityHeaders_rowsFrom.
  apply (changes_NoDup String.eqb String.eqb_eq MRO (fun t => (facilityKey tasks t, 0, 0)));
    [exact (sortTasks_by_facility tasks Hp Hown) |].
  intros a b Ha Hb.
  apply (proj1 (In_sortTasks a tasks)) in Ha. apply (proj1 (In_sortTasks b tasks)) in Hb.
  split; [intros H; now rewrite (facilityKey_same tasks a b H) |].
  intros [= Hk]. destruct (String.eqb_spec (MRO a) (MRO b)) as [| Hne]; [assumption |].
  exfalso. exact (Hdist a b Ha Hb Hne Hk).
Qed.

(** On a list whose End Date fields the [Date] constructor reads, whose
    facilities and aircraft carry no inherited name and in which no two
    facilities share their earliest end, every facility has exactly one header
    in the body of the document. *)
Theorem one_header_per_facility (ver : version) (now : Z) (tasks : list task)
    (doc : document) :
  endsParse tasks -> ownNames tasks ->
  (forall a b, In a tasks -> In b tasks ->
     MRO a <> MRO b -> facilityKey tasks a <> facilityKey tasks b) ->
  buildDocument ver now tasks = Ok doc ->
  List.NoDup (facilityHeaders (body doc)) /\
  (forall t, In t tasks -> MRO t <> "" -> In (MRO t) (facilityHeaders (body doc))) /\
  (forall name, In name (facilityHeaders (body doc)) -> exists t, In t tasks /\ MRO t = name).
Proof.
  intros Hp Hown Hdist Hdoc.
  apply buildDocument_inv in Hdoc as (range & months & _ & _ & ->).
  cbn [body]. split; [| split].
  - exact (facilityHeaders_NoDup range now tasks Hp Hown Hdist).
  - intros t Ht Hm. rewrite bodyRows_rowsFrom, facilityHeaders_rowsFrom.
    apply (changesBy_In String.eqb String.eqb_eq); [| exact Hm].
    apply in_map. now apply In_sortTasks.
  - intros name Hin. rewrite bodyRows_rowsFrom, facilityHeaders_rowsFrom in Hin.
    apply In_changesBy, in_map_iff in Hin as (t & Ht & Hin).
    exists t. split; [now apply (proj1 (In_sortTasks t tasks)) | exact Ht].
Qed.

(** ** One header for each aircraft of a facility *)

Lemma aircraftHeadersFrom_app (rows1 rows2 : list row) : forall mro,
  aircraftHeadersFrom mro (rows1 ++ rows2)
  = (aircraftHeadersFrom mro rows1
     ++ aircraftHeadersFrom
          (fold_left (fun m r => match r with mro_header name => Some name | _ => m end)
             rows1 mro)
          rows2)%list.
Proof.
  induction rows1 as [|r rows1 IH]; intros mro; [reflexivity |].
  destruct r; cbn [app aircraftHeadersFrom fold_left]; rewrite IH; reflexivity.
Qed.

Lemma aircraftHeaders_rowsFrom (range : list Z) (today : Z) (tasks : list task) :
  forall lastMro lastAc,
  groupsNamed tasks ->
  aircraftHeadersFrom (if String.eqb lastMro "" then None else Some lastMro)
    (rowsFrom range today lastMro lastAc tasks)
  = map (fun p => (Some (fst p), snd p))
      (changesBy samePair (lastMro, lastAc) (map (fun t => (MRO t, Aircraft t)) tasks)).
Proof.
  induction tasks as [|t tasks IH]; intros lastMro lastAc Hnamed; [reflexivity |].
  apply Forall_cons in Hnamed as [[Hm Ha] Hnamed].
  cbn [rowsFrom map changesBy]. rewrite aircraftHeadersFrom_app.
  specialize (IH (MRO t) (Aircraft t) Hnamed).
  rewrite (String_eqb_neq _ _ Hm) in IH.
  unfold samePair, separators. cbn [fst snd].
  destruct (String.eqb_spec (MRO t) lastMro) as [Heq | Hne].
  - subst lastMro. rewrite (String_eqb_neq _ _ Hm).
    destruct (String.eqb (Aircraft t) lastAc);
      cbn [app andb aircraftHeadersFrom fold_left taskRow map fst snd]; rewrite IH; reflexivity.
  - rewrite (String_eqb_neq _ _ Ha).
    destruct (String.eqb lastMro "");
      cbn [app andb aircraftHeadersFrom fold_left taskRow map fst snd]; rewrite IH; reflexivity.
Qed.

Lemma NoDup_map_injective {A B : Type} (f : A -> B) (l : list A) :
  (forall x y, f x = f y -> x = y) -> List.NoDup l -> List.NoDup (map f l).
Proof.
  intros Hinj Hnd. induction Hnd as [|x l Hx Hnd IH]; [constructor |].
  cbn [map]. constructor; [| exact IH].
  intros Hin. apply in_map_iff in Hin as (y & Hy & Hin).
  apply Hinj in Hy. subst y. contradiction.
Qed.

(** On a list whose End Date fields the [Date] constructor reads, whose
    facilities and aircraft carry no inherited name, in which no two
    facilities share their earliest end and no two aircraft of one facility
    share theirs, every aircraft has exactly one header under the header of
    each facility that works on it. *)
Theorem one_header_per_aircraft (ver : version) (now : Z) (tasks : list task)
    (doc : document) :
  endsParse tasks -> ownNames tasks -> groupsNamed tasks ->
  (forall a b, In a tasks -> In b tasks ->
     MRO a <> MRO b -> facilityKey tasks a <> facilityKey tasks b) ->
  (forall a b, In a tasks -> In b tasks -> MRO a = MRO b ->
     Aircraft a <> Aircraft b -> aircraftKey tasks a <> aircraftKey tasks b) ->
  buildDocument ver now tasks = Ok doc ->
  List.NoDup (aircraftHeaders (body doc)) /\
  (forall t, In t tasks -> In (Some (MRO t), Aircraft t) (aircraftHeaders (body doc))).
Proof.
  intros Hp Hown Hnamed Hfac Hac Hdoc.
  apply buildDocument_inv in Hdoc as (range & months & _ & _ & ->).
  cbn [body]. rewrite bodyRows_rowsFrom. unfold aircraftHeaders.
  assert (Hs : groupsNamed (sortTasks tasks))
    by (eapply groupsNamed_perm; [symmetry; apply sortTasks_perm | exact Hnamed]).
  pose proof (aircraftHeaders_rowsFrom range now (sortTasks tasks) "" "" Hs) as Heq.
  cbn [String.eqb] in Heq. rewrite Heq. split.
  - apply NoDup_map_injective; [intros [x1 x2] [y1 y2] [= -> ->]; reflexivity |].
    apply (changes_NoDup samePair samePair_eq (fun t => (MRO t, Aircraft t))
             (fun t => (facilityKey tasks t, aircraftKey tasks t, 0)));
      [exact (sortTasks_by_aircraft tasks Hp Hown) |].
    intros a b Ha Hb.
    apply (proj1 (In_sortTasks a tasks)) in Ha. apply (proj1 (In_sortTasks b tasks)) in Hb.
    split.
    + intros [= Hm Ha']. now rewrite (facilityKey_same tasks a b Hm), (aircraftKey_same tasks a b Ha').
    + intros [= Hk1 Hk2].
      assert (Hm : MRO a = MRO b).
      { destruct (String.eqb_spec (MRO a) (MRO b)) as [| Hne]; [assumption |].
        exfalso. exact (Hfac a b Ha Hb Hne Hk1). }
      assert (Ha' : Aircraft a = Aircraft b).
      { destruct (String.eqb_spec (Aircraft a) (Aircraft b)) as [| Hne]; [assumption |].
        exfalso. exact (Hac a b Ha Hb Hm Hne Hk2). }
      now rewrite Hm, Ha'.
  - intros t Ht.
    apply (in_map (fun p => (Some (fst p), snd p)) _ (MRO t, Aircraft t)).
    apply (changesBy_In samePair samePair_eq).
    + apply (in_map (fun t => (MRO t, Aircraft t))). now apply In_sortTasks.
    + unfold groupsNamed in Hnamed. rewrite List.Forall_forall in Hnamed.
      destruct (Hnamed t Ht) as [Hm _]. congruence.
Qed.

(** ** The order does not depend on the order of the request *)

Lemma StronglySorted_weaken_In {A : Type} (R S : A -> A -> Prop) (l : list A) :
  (forall a b, In a l -> In b l -> R a b -> S a b) ->
  StronglySorted R l -> StronglySorted S l.
Proof.
  intros HRS H. induction H as [|a l Hl IH Ha]; constructor.
  - apply IH. intros x y Hx Hy. apply HRS; now right.
  - rewrite List.Forall_forall in *. intros b Hb. apply HRS; [now left | now right | now apply Ha].
Qed.

Lemma endsParse_perm (l l' : list task) :
  Permutation l l' -> endsParse l -> endsParse l'.
Proof.
  unfold endsParse. intros Hperm H. rewrite List.Forall_forall in *.
  intros t Ht. apply H. eapply Permutation_in; [symmetry; exact Hperm | exact Ht].
Qed.

Lemma leastEnd_perm (same : task -> bool) (l l' : list task) (m : Z) :
  Permutation l l' -> leastEnd same l m -> leastEnd same l' m.
Proof.
  intros Hperm [(t & Ht & Hs & He) Hmin]. split.
  - exists t. split; [eapply Permutation_in; eassumption | auto].
  - intros t' e Ht'. apply Hmin. eapply Permutation_in; [symmetry; exact Hperm | exact Ht'].
Qed.

Lemma minEnd_perm (same : task -> bool) (l l' : list task) (t0 : task) :
  Permutation l l' -> endsParse l -> In t0 l -> same t0 = true ->
  minEnd same l' = minEnd same l.
Proof.
  intros Hperm Hp Ht0 Hs.
  apply (leastEnd_unique same l').
  - apply (minEnd_leastEnd same l' t0);
      [eapply endsParse_perm; eassumption | eapply Permutation_in; eassumption | exact Hs].
  - apply (leastEnd_perm same l l' _ Hperm). now apply (minEnd_leastEnd same l t0).
Qed.

(** The three keys of a task are the same in every arrangement of the
    list. *)
Lemma triageKey_perm (l l' : list task) (t : task) :
  Permutation l l' -> endsParse l -> In t l -> triageKey l' t = triageKey l t.
Proof.
  intros Hperm Hp Ht. unfold triageKey, facilityKey, aircraftKey.
  rewrite (minEnd_perm _ l l' t Hperm Hp Ht) by apply String.eqb_refl.
  rewrite (minEnd_perm _ l l' t Hperm Hp Ht) by apply String.eqb_refl.
  reflexivity.
Qed.

Lemma ownNames_perm (l l' : list task) :
  Permutation l l' -> ownNames l -> ownNames l'.
Proof.
  unfold ownNames. intros Hperm H. rewrite List.Forall_forall in *.
  intros t Ht. apply H. eapply Permutation_in; [symmetry; exact Hperm | exact Ht].
Qed.

Lemma sortTasks_perm_sorted (l l' : list task) :
  Permutation l l' -> endsParse l -> ownNames l ->
  StronglySorted (fun a b => key_le (triageKey l a) (triageKey l b)) (sortTasks l') /\
  (forall k, List.filter (fun a => key_eqb (triageKey l a) k) (sortTasks l')
             = List.filter (fun a => key_eqb (triageKey l a) k) l').
Proof.
  intros Hperm Hp Hown.
  assert (Hp' : endsParse l') by (eapply endsParse_perm; eassumption).
  assert (Hown' : ownNames l') by (eapply ownNames_perm; eassumption).
  assert (Hkey : forall t, In t l' -> triageKey l' t = triageKey l t).
  { intros t Ht. apply triageKey_perm; [exact Hperm | exact Hp |].
    eapply Permutation_in; [symmetry; exact Hperm | exact Ht]. }
  split.
  - eapply StronglySorted_weaken_In;
      [| exact (sortTasks_sorted l' Hp' Hown')].
    intros a b Ha Hb.
    apply (proj1 (In_sortTasks a l')) in Ha. apply (proj1 (In_sortTasks b l')) in Hb.
    cbn beta. now rewrite (Hkey a Ha), (Hkey b Hb).
  - intros k.
    assert (Hext : forall s, (forall t, In t s -> In t l') ->
              List.filter (fun a => key_eqb (triageKey l a) k) s
              = List.filter (fun a => key_eqb (triageKey l' a) k) s).
    { intros s Hs. induction s as [|x s IH]; [reflexivity |].
      cbn [List.filter]. rewrite (Hkey x) by (apply Hs; now left).
      rewrite IH by (intros t Ht; apply Hs; now right). reflexivity. }
    rewrite (Hext (sortTasks l')), (Hext l').
    + exact (sortTasks_stable l' k Hp' Hown').
    + auto.
    + intros t Ht. now apply (proj1 (In_sortTasks t l')).
Qed.

(** On a list whose End Date fields the [Date] constructor reads and
    whose facilities and aircraft carry no inherited name, sorting the sorted
    list changes nothing; so the builder, handed the order it rendered, on the
    same date of the clock, returns what it returned. *)
Theorem sortTasks_idempotent (ver : version) (tasks : list task) :
  endsParse tasks -> ownNames tasks ->
  sortTasks (sortTasks tasks) = sortTasks tasks /\
  (forall now, buildDocument ver now (sortTasks tasks) = buildDocument ver now tasks).
Proof.
  intros Hp Hown.
  assert (Hidem : sortTasks (sortTasks tasks) = sortTasks tasks).
  { destruct (sortTasks_perm_sorted tasks (sortTasks tasks)) as [Hs Hst];
      [symmetry; apply sortTasks_perm | exact Hp | exact Hown |].
    apply (stable_sorted_unique (triageKey tasks)); [exact Hs | | exact Hst].
    exact (sortTasks_sorted tasks Hp Hown). }
  split; [exact Hidem |].
  intros now. unfold buildDocument. rewrite Hidem. reflexivity.
Qed.

Lemma filter_perm_single {A : Type} (f : A -> bool) (l l' : list A) :
  Permutation l l' -> (length (List.filter f l) <= 1)%nat ->
  List.filter f l' = List.filter f l.
Proof.
  intros Hperm Hlen.
  assert (Hp : Permutation (List.filter f l) (List.filter f l')).
  { clear Hlen. induction Hperm as [| x l l' _ IH | x y l | l l' l'' _ IH1 _ IH2].
    - constructor.
    - cbn [List.filter]. destruct (f x); [now constructor | exact IH].
    - cbn [List.filter]. destruct (f x), (f y); try reflexivity. apply perm_swap.
    - now transitivity (List.filter f l'). }
  destruct (List.filter f l) as [|x [|y rest]].
  - apply Permutation_nil in Hp. exact Hp.
  - apply Permutation_length_1_inv in Hp. exact Hp.
  - cbn in Hlen. lia.
Qed.

Lemma filter_key_single {A : Type} (key : A -> key3) (k : key3) (l : list A) :
  List.NoDup (map key l) -> (length (List.filter (fun a => key_eqb (key a) k) l) <= 1)%nat.
Proof.
  induction l as [|x l IH]; intros Hnd; [cbn; lia |].
  cbn [map] in Hnd. apply List.NoDup_cons_iff in Hnd as [Hx Hnd].
  cbn [List.filter]. destruct (key_eqb (key x) k) eqn:Hk; [| now apply IH].
  apply key_eqb_eq in Hk. subst k.
  rewrite filter_none; [cbn; lia |].
  apply List.Forall_forall. intros y Hy.
  destruct (key_eqb (key y) (key x)) eqn:Hyx; [| reflexivity].
  apply key_eqb_eq in Hyx. exfalso. apply Hx. rewrite <- Hyx. now apply in_map.
Qed.

(** On a list whose End Date fields the [Date] constructor reads, whose
    facilities and aircraft carry no inherited name and in which no two tasks
    share their three keys, the rendered order does not depend on the order
    of the tasks in the request: on the same date of the clock every
    arrangement of the list gets the same document. *)
Theorem order_independent_of_request (ver : version) (tasks tasks' : list task) :
  endsParse tasks -> ownNames tasks -> List.NoDup (map (triageKey tasks) tasks) ->
  Permutation tasks tasks' ->
  sortTasks tasks' = sortTasks tasks /\
  (forall now, buildDocument ver now tasks' = buildDocument ver now tasks).
Proof.
  intros Hp Hown Hnd Hperm.
  assert (Heq : sortTasks tasks' = sortTasks tasks).
  { destruct (sortTasks_perm_sorted tasks tasks' Hperm Hp Hown) as [Hs Hst].
    apply (stable_sorted_unique (triageKey tasks)); [exact Hs | |].
    - exact (sortTasks_sorted tasks Hp Hown).
    - intros k. rewrite Hst, (sortTasks_stable tasks k Hp Hown).
      apply filter_perm_single; [exact Hperm |]. now apply filter_key_single. }
  split; [exact Heq |].
  intros now. unfold buildDocument. rewrite Heq. reflexivity.
Qed.

(** ** A facility in two groups *)

Lemma StronglySorted_app_r {A : Type} (R : A -> A -> Prop) (l1 l2 : list A) :
  StronglySorted R (l1 ++ l2) -> StronglySorted R l2.
Proof.
  induction l1 as [|x l1 IH]; [auto |].
  cbn [app]. intros H. apply StronglySorted_inv in H as [H _]. exact (IH H).
Qed.

Lemma facilityHeaders_twice (range : list Z) (today : Z) (p q r q' r' : list task)
    (a b c : task) :
  MRO a = MRO c -> MRO a <> MRO b -> MRO a <> "" ->
  ~ List.NoDup (facilityHeaders
                  (bodyRows range today (p ++ a :: q ++ b :: q' ++ c :: r'))).
Proof.
  intros Hac Hab Ha Hnd.
  rewrite bodyRows_rowsFrom, facilityHeaders_rowsFrom in Hnd.
  replace (p ++ a :: q ++ b :: q' ++ c :: r')%list
    with ((p ++ a :: q ++ [b]) ++ (q' ++ c :: r'))%list in Hnd
    by (rewrite <- !app_assoc; cbn [app]; rewrite <- !app_assoc; reflexivity).
  rewrite map_app, changesBy_app in Hnd.
  assert (Hlast : List.last (map MRO (p ++ a :: q ++ [b])) "" = MRO b).
  { replace (p ++ a :: q ++ [b])%list with ((p ++ a :: q) ++ [b])%list
      by (rewrite <- app_assoc; reflexivity).
    rewrite map_app. apply last_last. }
  rewrite Hlast in Hnd.
  assert (H1 : In (MRO a) (changes "" (map MRO (p ++ a :: q ++ [b])))).
  { apply (changesBy_In String.eqb String.eqb_eq); [| exact Ha].
    apply in_map, in_or_app. right. now left. }
  assert (H2 : In (MRO a) (changes (MRO b) (map MRO (q' ++ c :: r')))).
  { apply (changesBy_In String.eqb String.eqb_eq); [| exact Hab].
    rewrite Hac. apply in_map, in_or_app. right. now left. }
  apply in_split in H1 as (u & v & Hu). rewrite Hu, <- app_assoc in Hnd.
  apply List.NoDup_remove_2 in Hnd. apply Hnd.
  apply in_or_app. right. apply in_or_app. right. exact H2.
Qed.

(** A facility can come in two groups: whenever a task of another
    facility stands between two tasks of one facility in the rendered order,
    the first facility gets two headers.  On a list whose End Date fields the
    [Date] constructor reads and whose facilities and aircraft carry no
    inherited name, this takes the two facilities to share their earliest
    end. *)
Theorem facility_in_two_groups (ver : version) (now : Z) (tasks : list task)
    (doc : document) (p q q' r' : list task) (a b c : task) :
  sortTasks tasks = (p ++ a :: q ++ b :: q' ++ c :: r')%list ->
  MRO a = MRO c -> MRO a <> MRO b -> MRO a <> "" ->
  buildDocument ver now tasks = Ok doc ->
  ~ List.NoDup (facilityHeaders (body doc)) /\
  (endsParse tasks -> ownNames tasks -> facilityKey tasks a = facilityKey tasks b).
Proof.
  intros Hsplit Hac Hab Hne Hdoc.
  apply buildDocument_inv in Hdoc as (range & months & _ & _ & ->).
  cbn [body]. split.
  - rewrite Hsplit. now apply facilityHeaders_twice.
  - intros Hp Hown.
    pose proof (sortTasks_by_facility tasks Hp Hown) as Hs. rewrite Hsplit in Hs.
    apply StronglySorted_app_r in Hs. apply StronglySorted_inv in Hs as [Hs Hall].
    rewrite List.Forall_forall in Hall.
    assert (Hab' : key_le (facilityKey tasks a, 0, 0) (facilityKey tasks b, 0, 0))
      by (apply Hall, in_or_app; right; now left).
    apply StronglySorted_app_r in Hs. apply StronglySorted_inv in Hs as [_ Hall'].
    rewrite List.Forall_forall in Hall'.
    assert (Hbc : key_le (facilityKey tasks b, 0, 0) (facilityKey tasks c, 0, 0))
      by (apply Hall', in_or_app; right; now left).
    rewrite <- (facilityKey_same tasks a c Hac) in Hbc.
    unfold key_le, key_lt in Hab', Hbc.
    destruct Hab' as [H1 | [= H1]], Hbc as [H2 | [= H2]]; lia.
Qed.

(** ** Complete bars *)

Section RoundingUp.

Lemma shr_1_floor (mrs : shr_record) :
  0 <= shr_m mrs ->
  0 <= shr_m (shr_1 mrs) /\ shr_m mrs < 2 * (shr_m (shr_1 mrs) + 1).
Proof.
  destruct mrs as [m r s]. cbn [shr_m].
  destruct m as [| [p | p |] | p]; cbn [shr_1 shr_m]; lia.
Qed.

(** Shifting the mantissa right drops less than one unit of the result. *)
Lemma shr_floor (M : Z) (mrs : shr_record) (e n : Z) :
  0 <= shr_m mrs -> shr_m mrs = M ->
  0 <= shr_m (fst (shr mrs e n)) /\
  M < (shr_m (fst (shr mrs e n)) + 1) * 2 ^ (Z.max n 0).
Proof.
  intros Hm HM. destruct n as [| p | p]; cbn [shr fst].
  - change (Z.max 0 0) with 0. rewrite Z.pow_0_r. lia.
  - rewrite Z.max_l by lia.
    apply (iter_pos_inv shr_1
             (fun k x => 0 <= shr_m x /\ M < (shr_m x + 1) * 2 ^ k)) with (k := 0);
      [| lia | rewrite Z.pow_0_r; lia].
    intros k x Hk [Hx Hlt]. destruct (shr_1_floor x Hx) as [Hx' Hhalf].
    split; [exact Hx' |].
    rewrite Z.pow_add_r by lia. change (2 ^ 1) with 2.
    assert (0 < 2 ^ k) by (apply Z.pow_pos_nonneg; lia). nia.
  - rewrite Z.max_r by lia. rewrite Z.pow_0_r. lia.
Qed.

(** Rounding to nearest never goes below the truncated mantissa, and adds
    at most one unit. *)
Lemma round_nearest_even_ge (m : Z) (l : location) :
  m <= round_nearest_even m l <= m + 1.
Proof.
  destruct l as [| [| |]]; cbn [round_nearest_even]; try lia.
  destruct (Z.even m); lia.
Qed.

Lemma Zdigits2_bounds (M : Z) :
  0 < M -> 2 ^ (Zdigits2 M - 1) <= M < 2 ^ Zdigits2 M.
Proof.
  destruct M as [| M' | M']; try lia. intros _. cbn [Zdigits2]. apply digits2_pos_bounds.
Qed.

Lemma Zdigits2_between (M a b : Z) :
  0 <= a -> 2 ^ a <= M -> M < 2 ^ b -> a + 1 <= Zdigits2 M <= b.
Proof.
  intros Ha Hlo Hhi.
  assert (HM : 0 < M) by (pose proof (Z.pow_pos_nonneg 2 a); lia).
  pose proof (Zdigits2_bounds M HM) as [Hd1 Hd2].
  assert (Hdpos : 0 < Zdigits2 M).
  { destruct M as [| M' | M']; try lia. cbn [Zdigits2]. lia. }
  split.
  - assert (H : 2 ^ a < 2 ^ Zdigits2 M) by lia.
    apply Z.pow_lt_mono_r_iff in H; lia.
  - assert (H : 2 ^ (Zdigits2 M - 1) < 2 ^ b) by lia.
    apply Z.pow_lt_mono_r_iff in H; [lia | lia |].
    destruct (Z_le_dec 0 b); [assumption |].
    rewrite Z.pow_neg_r in Hhi by lia. lia.
Qed.

(** Rounding a product [M * 2^(j - 98)] that is at least 100 gives
    infinity or a number whose whole part is at least 100. *)
Lemma binary_round_aux_at_least_100 (M j : Z) :
  0 <= j -> 100 * 2 ^ 98 <= M -> M < 2 ^ 106 ->
  floorSF (binary_round_aux prec emax false M (j - 98) loc_Exact) = FlInf false \/
  exists w, floorSF (binary_round_aux prec emax false M (j - 98) loc_Exact) = FlInt w /\
            100 <= w.
Proof.
  intros Hj Hlo Hhi.
  assert (H98 : 2 ^ 104 <= M).
  { change (2 ^ 104) with (16 * 2 ^ 100). change (2 ^ 98) with (2 ^ 98) in Hlo.
    assert (2 ^ 100 = 4 * 2 ^ 98) by reflexivity. lia. }
  assert (HM : 0 < M) by (pose proof (Z.pow_pos_nonneg 2 104); lia).
  pose proof (Zdigits2_between M 104 106 ltac:(lia) H98 Hhi) as Hd.
  pose proof (Zdigits2_bounds M HM) as [_ HdM].
  unfold binary_round_aux, shr_fexp.
  set (n := fexp prec emax (Zdigits2 M + (j - 98)) - (j - 98)).
  assert (Hn : n = Zdigits2 M - 53).
  { unfold n, fexp. change (SpecFloat.emin prec emax) with (-1074). change prec with 53. lia. }
  assert (Hn' : 52 <= n <= 53) by lia.
  pose proof (shr_halved M (shr_record_of_loc M loc_Exact) (j - 98) n (halved_init M ltac:(lia)))
    as (H1 & He1 & _).
  pose proof (shr_floor M (shr_record_of_loc M loc_Exact) (j - 98) n ltac:(cbn; lia) eq_refl)
    as (Ha0 & Hfl1).
  destruct (shr (shr_record_of_loc M loc_Exact) (j - 98) n) as [mrs1 e1]. cbn [fst snd] in *.
  rewrite Z.max_l in * by lia.
  destruct H1 as (_ & Hup1 & _).
  pose proof (round_nearest_even_ge (shr_m mrs1) (loc_of_shr_record mrs1)) as Hr.
  set (m1 := round_nearest_even (shr_m mrs1) (loc_of_shr_record mrs1)) in *.
  set (a := shr_m mrs1) in *.
  assert (Hpn : 0 < 2 ^ n) by (apply Z.pow_pos_nonneg; lia).
  assert (H2n : 2 ^ 98 = 2 ^ (98 - n) * 2 ^ n).
  { rewrite <- Z.pow_add_r by lia. f_equal. lia. }
  assert (Hpc : 0 < 2 ^ (98 - n)) by (apply Z.pow_pos_nonneg; lia).
  assert (Ha : 100 * 2 ^ (98 - n) <= a) by nia.
  assert (Ha53 : a < 2 ^ 53).
  { assert (Hd53 : 2 ^ Zdigits2 M = 2 ^ 53 * 2 ^ n).
    { rewrite <- Z.pow_add_r by lia. f_equal. lia. }
    assert (a * 2 ^ n < 2 ^ 53 * 2 ^ n) by lia.
    apply Z.mul_lt_mono_pos_r in H; assumption. }
  assert (Hm1lo : 100 * 2 ^ (98 - n) <= m1) by lia.
  assert (Hm1hi : m1 < 2 ^ 54) by (change (2 ^ 54) with (2 * 2 ^ 53); lia).
  assert (H44 : 2 ^ 45 <= 2 ^ (98 - n)) by (apply Z.pow_le_mono_r; lia).
  assert (Hm151 : 2 ^ 51 <= m1).
  { change (2 ^ 51) with (64 * 2 ^ 45). lia. }
  pose proof (Zdigits2_between m1 51 54 ltac:(lia) Hm151 Hm1hi) as Hd1.
  set (n2 := fexp prec emax (Zdigits2 m1 + e1) - e1).
  assert (Hn2 : n2 <= 1).
  { unfold n2, fexp. change (SpecFloat.emin prec emax) with (-1074). change prec with 53. lia. }
  pose proof (shr_floor m1 (shr_record_of_loc m1 loc_Exact) e1 n2 ltac:(cbn; lia) eq_refl)
    as (Hb0 & Hfl2).
  pose proof (shr_halved m1 (shr_record_of_loc m1 loc_Exact) e1 n2 (halved_init m1 ltac:(lia)))
    as (_ & He2 & _).
  destruct (shr (shr_record_of_loc m1 loc_Exact) e1 n2) as [mrs2 e2]. cbn [fst snd] in *.
  set (k2 := Z.max n2 0) in *.
  assert (Hk2 : 0 <= k2 <= 1) by (unfold k2; lia).
  set (c := 98 - n - k2).
  assert (Hc : 44 <= c) by (unfold c; lia).
  assert (Hpc2 : 0 < 2 ^ c) by (apply Z.pow_pos_nonneg; lia).
  assert (Hpk2 : 0 < 2 ^ k2) by (apply Z.pow_pos_nonneg; lia).
  assert (Hsplit : 2 ^ (98 - n) = 2 ^ c * 2 ^ k2).
  { rewrite <- Z.pow_add_r by lia. f_equal. unfold c. lia. }
  assert (Hb : 100 * 2 ^ c <= shr_m mrs2).
  { assert (H : 100 * 2 ^ c * 2 ^ k2 < (shr_m mrs2 + 1) * 2 ^ k2).
    { rewrite <- Z.mul_assoc, <- Hsplit. lia. }
    apply Z.mul_lt_mono_pos_r in H; [lia | exact Hpk2]. }
  assert (He : e2 = j - c) by (unfold c; lia).
  destruct (shr_m mrs2) as [| m | m] eqn:Hm; [lia | | lia].
  change (emax - prec) with 971.
  destruct (Z.leb_spec e2 971) as [_ | Hbig]; [right | left; reflexivity].
  cbn [floorSF signed].
  destruct (Z.leb_spec 0 e2) as [Hpos | Hneg].
  - exists (Z.pos m * 2 ^ e2). split; [reflexivity |].
    assert (H1 : 1 <= 2 ^ e2) by (pose proof (Z.pow_pos_nonneg 2 e2); lia).
    assert (H2 : Z.pos m * 1 <= Z.pos m * 2 ^ e2)
      by (apply Z.mul_le_mono_nonneg_l; lia).
    lia.
  - exists (Z.pos m / 2 ^ (- e2)). split; [reflexivity |].
    assert (Hq : 0 < 2 ^ (- e2)) by (apply Z.pow_pos_nonneg; lia).
    apply Z.div_le_lower_bound; [exact Hq |].
    assert (Hcj : 2 ^ c = 2 ^ j * 2 ^ (- e2)).
    { rewrite <- Z.pow_add_r by lia. f_equal. lia. }
    assert (H1 : 1 <= 2 ^ j) by (pose proof (Z.pow_pos_nonneg 2 j); lia).
    assert (H2 : 1 * 2 ^ (- e2) <= 2 ^ j * 2 ^ (- e2))
      by (apply Z.mul_le_mono_nonneg_r; lia).
    lia.
Qed.

(** The mantissa and exponent of a valid number that is at least 1. *)
Lemma at_least_one_product (mx : positive) (ex : Z) :
  bounded prec emax mx ex = true ->
  SFleb (Prim2SF 1) (S754_finite false mx ex) = true ->
  0 <= ex + 52 /\
  100 * 2 ^ 98 <= Z.pos mx * 7036874417766400 /\
  Z.pos mx * 7036874417766400 < 2 ^ 106.
Proof.
  unfold bounded, canonical_mantissa, fexp.
  change (SpecFloat.emin prec emax) with (-1074). change prec with 53.
  rewrite andb_true_iff, Z.eqb_eq. intros [Hcanon _].
  pose proof (digits2_pos_bounds mx) as [Hlo Hhi].
  change (Prim2SF 1) with (S754_finite false 4503599627370496 (-52)).
  unfold SFleb. cbn [SFcompare].
  intros Hc.
  assert (Hex : -52 <= ex).
  { destruct (Z.compare_spec (-52) ex) as [Heq | Hlt | Hgt]; [lia | lia | discriminate]. }
  clear Hc.
  assert (Hd : Z.pos (digits2_pos mx) = 53) by lia.
  rewrite Hd in Hlo, Hhi. change (53 - 1) with 52 in Hlo.
  change (2 ^ 52) with 4503599627370496 in Hlo.
  change (2 ^ 53) with 9007199254740992 in Hhi.
  change (2 ^ 98) with 316912650057057350374175801344.
  change (2 ^ 106) with 81129638414606681695789005144064.
  lia.
Qed.

(** For a number [x >= 1] the whole part of the binary64 product
    [x * 100] is at least 100, or the product is infinite. *)
Lemma floor_times_100_at_least_one (x : float) :
  (1 <=? x)%float = true ->
  Math_floor (x * 100)%float = FlInf false \/
  exists w, Math_floor (x * 100)%float = FlInt w /\ 100 <= w.
Proof.
  rewrite leb_spec. unfold Math_floor. rewrite mul_spec.
  pose proof (Prim2SF_valid x) as Hvalid.
  change (Prim2SF 100) with (S754_finite false 7036874417766400 (-46)).
  destruct (Prim2SF x) as [s | s | | s mx ex].
  - discriminate.
  - destruct s; [discriminate |]. intros _. left. reflexivity.
  - discriminate.
  - destruct s; [discriminate |]. intros Hle.
    destruct (at_least_one_product mx ex Hvalid Hle) as (Hj & Hlo & Hhi).
    unfold SF64mul, SFmul. cbn [xorb].
    replace (ex + -46) with (ex + 52 - 98) by lia.
    rewrite Pos2Z.inj_mul.
    apply binary_round_aux_at_least_100; assumption.
Qed.

End RoundingUp.

Lemma pctOf_ge_one (t : task) :
  (1 <=? PercentComplete t)%float = true -> pctOf t = PercentComplete t.
Proof. intros H. unfold pctOf, or_zero. now rewrite (ge_one_truthy _ H). Qed.

(** A bar of the complete variant is drawn full: the width the markup
    states is at least 100 percent, which the clipping track shows as 100.
    Only a completion so large that the product by 100 overflows escapes: its
    width is no valid length and the bar collapses. *)
Theorem complete_bar_shows_full (range : list Z) (today : Z) (t : task) (b : bar) :
  In (fill_cell b) (cellsOf range today t) ->
  (1 <=? PercentComplete t)%float = true ->
  complete b = true /\
  ((exists w, width b = FlInt w /\ 100 <= w /\
              visibleFill track_bar_style (width b) = 100) \/
   (width b = FlInf false /\ visibleFill track_bar_style (width b) = 0)).
Proof.
  intros Hb Hge. apply cellsOf_bars in Hb. subst b. cbn [complete width barOf].
  rewrite (pctOf_ge_one t Hge). split; [exact Hge |].
  destruct (floor_times_100_at_least_one _ Hge) as [Hinf | (w & Hw & Hle)].
  - right. rewrite Hinf. split; reflexivity.
  - left. exists w. rewrite Hw. split; [reflexivity |]. split; [exact Hle |].
    unfold visibleFill, track_bar_style. cbn [track_overflow track_width_percent].
    destruct (Z.ltb_spec w 0); lia.
Qed.

Section Labels.

(** The tenths [toFixed(1)] prints against the whole part [Math.floor]
    takes, for a positive number [m * 2^e]. *)
Lemma tenths_floor (m : positive) (e : Z) :
  let w := if 0 <=? e then Z.pos m * 2 ^ e else Z.pos m / 2 ^ (- e) in
  10 * w <= tenths m e <= 10 * w + 10.
Proof.
  unfold tenths. destruct (Z.leb_spec 0 e) as [He | He]; [cbn zeta; lia |].
  cbn zeta. set (q := 2 ^ (- e)).
  assert (Hq : 0 < q) by (apply Z.pow_pos_nonneg; lia).
  assert (H2q : 2 ^ (- e + 1) = 2 * q).
  { unfold q. rewrite Z.pow_add_r by lia. change (2 ^ 1) with 2. lia. }
  rewrite H2q.
  pose proof (Z.div_mod (Z.pos m) q ltac:(lia)) as Hdm.
  pose proof (Z.mod_pos_bound (Z.pos m) q Hq) as Hr.
  set (w := Z.pos m / q) in *. set (r := Z.pos m mod q) in *.
  replace (20 * Z.pos m + q) with (10 * w * (2 * q) + (20 * r + q)) by lia.
  rewrite Z.div_add_l by lia.
  assert (H0 : 0 <= (20 * r + q) / (2 * q)) by (apply Z.div_pos; lia).
  assert (H11 : (20 * r + q) / (2 * q) < 11) by (apply Z.div_lt_upper_bound; lia).
  lia.
Qed.

Lemma floor_negative (m : positive) (e : Z) (w : Z) :
  floorSF (S754_finite true m e) = FlInt w -> w < 0.
Proof.
  cbn [floorSF signed]. intros [= <-].
  destruct (Z.leb_spec 0 e) as [He | He].
  - assert (0 < 2 ^ e) by (apply Z.pow_pos_nonneg; lia).
    assert (Z.neg m * 2 ^ e <= Z.neg m * 1) by (apply Z.mul_le_mono_nonpos_l; lia). lia.
  - assert (Hq : 0 < 2 ^ (- e)) by (apply Z.pow_pos_nonneg; lia).
    apply Z.div_lt_upper_bound; [exact Hq | lia].
Qed.

(** The number [toFixed(1)] prints is within one unit above the whole
    part of a number that is not negative. *)
Lemma toFixed1_floor (x : float) (w : Z) :
  Math_floor x = FlInt w -> 0 <= w -> w + 1 < 10 ^ 21 ->
  exists n, toFixed1 x = Some (fixed1 n) /\ 10 * w <= n <= 10 * w + 10.
Proof.
  unfold Math_floor, toFixed1. intros Hw H0 Hbig.
  destruct (Prim2SF x) as [s | s | | s m e]; try discriminate.
  - injection Hw as <-. exists 0. split; [reflexivity | lia].
  - destruct s; [apply floor_negative in Hw; lia |].
    cbn [floorSF signed] in Hw. injection Hw as Hw.
    pose proof (tenths_floor m e) as Ht. cbn zeta in Ht. rewrite Hw in Ht.
    exists (tenths m e). split; [| exact Ht].
    cbn zeta.
    assert (Hlt : tenths m e < 10 ^ 22).
    { change (10 ^ 22) with (10 * 10 ^ 21). lia. }
    destruct (Z.leb_spec (10 ^ 22) (tenths m e)); [lia | reflexivity].
Qed.

End Labels.

(** The label of a bar and its width agree to within one percent: the
    label shows the product by 100 rounded to a tenth, the width is its whole
    part. *)
Theorem label_within_one_percent (range : list Z) (today : Z) (t : task) (b : bar) (w : Z) :
  In (fill_cell b) (cellsOf range today t) ->
  width b = FlInt w -> 0 <= w -> w + 1 < 10 ^ 21 ->
  exists n, label b = Some (fixed1 n +:+ "%") /\ 10 * w <= n <= 10 * w + 10.
Proof.
  intros Hb Hw H0 Hbig. apply cellsOf_bars in Hb. subst b. cbn [label width barOf] in *.
  destruct (toFixed1_floor _ w Hw H0 Hbig) as (n & Hn & Hbounds).
  exists n. rewrite Hn. split; [reflexivity | exact Hbounds].
Qed.

(** ** The notes cell *)

Lemma warnText_class (warning : option string) :
  (warnClass warning = no_class <-> warnText warning = "N/A") /\
  (warnClass warning = warning_critical <-> warnText warning = "Work Stoppage") /\
  (warnClass warning = warning_caution <->
   warnText warning <> "N/A" /\ warnText warning <> "Work Stoppage").
Proof.
  unfold warnClass, warnText, eq_string, truthy_string, neq_string.
  destruct warning as [s|]; cbn [default].
  - destruct (String.eqb_spec s "Work Stoppage") as [-> | Hws].
    + cbn. repeat split; try discriminate; try reflexivity; intros [_ H]; congruence.
    + destruct (String.eqb_spec s "") as [-> | He]; cbn.
      * repeat split; try discriminate; try reflexivity; intros [H _]; congruence.
      * destruct (String.eqb_spec s "N/A") as [-> | Hna]; cbn.
        -- repeat split; try discriminate; try reflexivity; intros [H _]; congruence.
        -- repeat split; try discriminate; try congruence.
  - cbn. repeat split; try discriminate; try reflexivity; intros [H _]; congruence.
Qed.

(** The severity of a task row can be read off its notes cell: the row
    carries no severity class exactly when the cell reads N/A, the critical
    class exactly when it reads Work Stoppage, and the caution class for every
    other text. *)
Theorem notes_tell_severity (ver : version) (now : Z) (tasks : list task) (doc : document)
    (component : string) (wc : css_class) (wt : string) (cells : list cell) :
  buildDocument ver now tasks = Ok doc ->
  In (task_row component wc wt cells) (body doc) ->
  (wc = no_class <-> wt = "N/A") /\
  (wc = warning_critical <-> wt = "Work Stoppage") /\
  (wc = warning_caution <-> wt <> "N/A" /\ wt <> "Work Stoppage") /\
  wt <> "".
Proof.
  intros Hdoc Hin.
  apply buildDocument_inv in Hdoc as (range & months & _ & _ & ->).
  cbn [body] in Hin. apply task_row_of_body in Hin as (t & _ & Heq).
  injection Heq as _ -> -> _.
  destruct (warnText_class (Warning t)) as (H1 & H2 & H3).
  split; [exact H1 |]. split; [exact H2 |]. split; [exact H3 |].
  unfold warnText, truthy_string. destruct (Warning t) as [s|]; [| discriminate].
  destruct (String.eqb_spec s ""); cbn; [discriminate | assumption].
Qed.

(** ** The completion bar in the document *)

(** The row a returned document holds for a task of the list, and its bar
    where a grid day is within the interval of the task. *)
Lemma row_of_task (ver : version) (now : Z) (tasks : list task) (doc : document)
    (t : task) :
  buildDocument ver now tasks = Ok doc -> In t tasks ->
  exists range,
    getTimelineRange ver now (sortTasks tasks) = Ok range /\
    In (task_row (Component_Group t) (warnClass (Warning t)) (warnText (Warning t))
          (cellsOf range now t))
      (taskRows doc) /\
    track_bar doc = track_bar_style /\
    (forall s e, parsed (Start_Date t) = Some s -> parsed (End_Date t) = Some e ->
       (exists d, In d range /\ dayWithin s e d) ->
       barsOf (cellsOf range now t)
       = [fill_cell (barOf (spanOf range (Some s) (Some e)) (warnClass (Warning t))
                       (pctOf t))]).
Proof.
  intros Hdoc Ht.
  destruct (taskRows_document ver now tasks doc Hdoc) as (range & Hrange & _ & Hstyle & Hrows).
  exists range. split; [exact Hrange |].
  split; [exact (taskRow_in range now tasks doc t Hrows Ht) |].
  split; [exact Hstyle |].
  intros s e Hs He (d & Hd & Hin).
  pose proof (cellsOf_bar ver now (sortTasks tasks) t range
                (proj2 (In_sortTasks t tasks) Ht) Hrange) as Hbar.
  rewrite Hs, He in Hbar. rewrite Hbar.
  destruct (Nat.eqb_spec (spanOf range (Some s) (Some e)) 0) as [Hz | _]; [| reflexivity].
  exfalso. unfold spanOf in Hz. apply length_zero_iff_nil in Hz.
  assert (Hf : In d (List.filter (inInterval (Some s) (Some e)) range)).
  { apply filter_In. split; [exact Hd | now apply inInterval_dayWithin]. }
  rewrite Hz in Hf. destruct Hf.
Qed.

(** The sign of a rounded product is the sign of the exact product. *)
Lemma binary_round_aux_sign (prec emax : Z) (sx : bool) (mx ex : Z) (lx : location) :
  match binary_round_aux prec emax sx mx ex lx with
  | S754_zero s | S754_infinity s | S754_finite s _ _ => s = sx
  | S754_nan => True
  end.
Proof.
  unfold binary_round_aux.
  destruct (shr_fexp prec emax mx ex lx) as [mrs' e'].
  destruct (shr_fexp prec emax _ e' loc_Exact) as [mrs'' e''].
  destruct (shr_m mrs''); [reflexivity | | exact I].
  destruct (_ <=? _); reflexivity.
Qed.

(** A negative completion: the width the markup states is no valid
    length or is zero, and the bar shows nothing. *)
Lemma floor_times_100_negative (x : float) :
  (x <? 0)%float = true ->
  truthy x = true /\ (1 <=? x)%float = false /\
  visibleFill track_bar_style (Math_floor (x * 100)%float) = 0.
Proof.
  intros Hlt.
  assert (Hsign : exists v, Prim2SF x = v /\
            (v = S754_infinity true \/ exists m e, v = S754_finite true m e)).
  { rewrite ltb_spec in Hlt. change (Prim2SF 0) with (S754_zero false) in Hlt.
    destruct (Prim2SF x) as [s | s | | s m e]; try discriminate Hlt.
    - destruct s; [| discriminate Hlt]. eexists. split; [reflexivity | now left].
    - destruct s; [| discriminate Hlt]. eexists. split; [reflexivity | right; eauto]. }
  destruct Hsign as (v & Hv & Hcases).
  split; [| split].
  - unfold truthy, PrimFloat.is_nan, PrimFloat.is_zero.
    rewrite !FloatAxioms.eqb_spec, Hv.
    change (Prim2SF PrimFloat.zero) with (S754_zero false).
    unfold SFeqb. rewrite SFcompare_refl
      by (destruct Hcases as [-> | (m & e & ->)]; discriminate).
    destruct Hcases as [-> | (m & e & ->)]; reflexivity.
  - rewrite leb_spec, Hv. change (Prim2SF 1) with (S754_finite false 4503599627370496 (-52)).
    destruct Hcases as [-> | (m & e & ->)]; reflexivity.
  - unfold Math_floor. rewrite mul_spec, Hv.
    change (Prim2SF 100) with (S754_finite false 7036874417766400 (-46)).
    destruct Hcases as [-> | (m & e & ->)]; [reflexivity |].
    unfold SF64mul, SFmul. cbn [xorb].
    pose proof (binary_round_aux_sign prec emax true
                  (Z.pos (m * 7036874417766400)) (e + -46) loc_Exact) as Hs.
    destruct (binary_round_aux prec emax true _ (e + -46) loc_Exact) as [s | s | | s m' e'];
      try reflexivity.
    subst s. unfold floorSF, signed, visibleFill.
    destruct (Z.leb_spec 0 e') as [He | He].
    + assert (0 < 2 ^ e') by (apply Z.pow_pos_nonneg; lia).
      destruct (Z.ltb_spec (Z.neg m' * 2 ^ e') 0); [reflexivity | lia].
    + assert (Hpow : 0 < 2 ^ (- e')) by (apply Z.pow_pos_nonneg; lia).
      assert (Z.neg m' / 2 ^ (- e') < 0) by (apply Z.div_lt_upper_bound; lia).
      destruct (Z.ltb_spec (Z.neg m' / 2 ^ (- e')) 0); [reflexivity | lia].
Qed.

Lemma pctOf_below_one (x : float) :
  (0 <=? x)%float = true -> (x <? 1)%float = true ->
  (1 <=? or_zero x)%float = false /\
  Math_floor (or_zero x * 100)%float = Math_floor (x * 100)%float.
Proof.
  intros Hge Hlt. unfold or_zero.
  destruct (truthy x) eqn:Htruthy; [split; [now apply lt_one_not_ge | reflexivity] |].
  split; [reflexivity |].
  unfold truthy in Htruthy. apply negb_false_iff, orb_true_iff in Htruthy.
  destruct Htruthy as [Hnan | Hzero].
  - exfalso. unfold PrimFloat.is_nan in Hnan. apply negb_true_iff in Hnan.
    rewrite ltb_spec in Hlt. rewrite FloatAxioms.eqb_spec in Hnan.
    unfold SFltb in Hlt. unfold SFeqb in Hnan.
    destruct (Prim2SF x) as [s | s | | s m e] eqn:Hx;
      try discriminate; rewrite SFcompare_refl in Hnan; discriminate.
  - now rewrite (floor_zero_times_100 _ Hzero).
Qed.

Lemma visibleFill_percent (w : Z) :
  0 <= w ->
  visibleFill track_bar_style (FlInt w) = Z.min w 100.
Proof.
  intros Hw. unfold visibleFill, track_bar_style. cbn [track_overflow track_width_percent].
  destruct (Z.ltb_spec w 0); [lia | reflexivity].
Qed.

(** The variant and the width of the bar of a task, by its completion. *)
Lemma barOf_variant (span : nat) (warn : css_class) (p : float) :
  let b := barOf span warn (or_zero p) in
  ((1 <=? p)%float = true ->
     complete b = true /\ width b = Math_floor (p * 100)%float /\
     ((exists w, width b = FlInt w /\ 100 <= w /\
                 visibleFill track_bar_style (width b) = 100) \/
      (width b = FlInf false /\ visibleFill track_bar_style (width b) = 0))) /\
  ((0 <=? p)%float = true -> (p <? 1)%float = true ->
     complete b = false /\ width b = Math_floor (p * 100)%float /\
     exists w, width b = FlInt w /\ 0 <= w <= 99 /\
               visibleFill track_bar_style (width b) = w) /\
  ((p <? 0)%float = true ->
     complete b = false /\ width b = Math_floor (p * 100)%float /\
     visibleFill track_bar_style (width b) = 0).
Proof.
  cbv zeta. cbn [complete width barOf]. split; [| split].
  - intros Hge. unfold or_zero. rewrite (ge_one_truthy _ Hge).
    split; [exact Hge |]. split; [reflexivity |].
    destruct (floor_times_100_at_least_one _ Hge) as [Hinf | (w & Hw & Hle)].
    + right. rewrite Hinf. split; reflexivity.
    + left. exists w. rewrite Hw. split; [reflexivity |]. split; [exact Hle |].
      rewrite visibleFill_percent by lia. lia.
  - intros Hge Hlt. destruct (pctOf_below_one p Hge Hlt) as [Hc Hw].
    split; [exact Hc |]. split; [exact Hw |]. rewrite Hw.
    destruct (floor_times_100_below_one p Hge Hlt) as (w & Hfloor & Hbound).
    exists w. rewrite Hfloor. split; [reflexivity |]. split; [exact Hbound |].
    rewrite visibleFill_percent by lia. lia.
  - intros Hlt. destruct (floor_times_100_negative p Hlt) as (Htruthy & Hc & Hv).
    unfold or_zero. rewrite Htruthy. split; [exact Hc |]. split; [reflexivity | exact Hv].
Qed.

(** C5: for every task of a list, the document [buildHTML] returns holds
    a row for it that has a bar whenever a grid day is within the interval of
    the task, and every bar of the row follows the completion [p] of the
    task.  When [p >= 1] the completion bar
    carries the complete variant; the width the markup states is the whole
    part of the binary64 product [p * 100], at least 100 and not capped, of
    which the track of the document, which is as wide as the cell and clips
    what overflows it, shows 100 percent.  When [0 <= p < 1] the bar carries
    the in-progress variant and its width is the whole part of [p * 100], from
    0 to 99 percent, all of it shown.  When [p < 0] the bar carries the
    in-progress variant and shows nothing.  So no bar shows more than 100
    percent.  The document is returned whenever the dates of the list are
    calendar dates and the bounds of the grid are in order. *)
Theorem completion_bar_variant (ver : version) (now : Z) (h : heap) (a : ref)
    (tasks : list task) (t : task) :
  h !! a = Some tasks -> In t tasks ->
  (forall doc, fst (buildHTML ver now a h) = Ok doc ->
     exists range cells,
       getTimelineRange ver now (sortTasks tasks) = Ok range /\
       In (task_row (Component_Group t) (warnClass (Warning t))
             (warnText (Warning t)) cells)
         (taskRows doc) /\
       track_overflow (track_bar doc) = overflow_hidden /\
       track_width_percent (track_bar doc) = 100 /\
       (forall s e, parsed (Start_Date t) = Some s -> parsed (End_Date t) = Some e ->
          (exists d, In d range /\ dayWithin s e d) ->
          exists b, barsOf cells = [fill_cell b]) /\
       (forall b, In (fill_cell b) cells ->
          ((1 <=? PercentComplete t)%float = true ->
             complete b = true /\
             width b = Math_floor (PercentComplete t * 100)%float /\
             ((exists w, width b = FlInt w /\ 100 <= w /\
                         visibleFill (track_bar doc) (width b) = 100) \/
              (width b = FlInf false /\ visibleFill (track_bar doc) (width b) = 0))) /\
          ((0 <=? PercentComplete t)%float = true ->
           (PercentComplete t <? 1)%float = true ->
             complete b = false /\
             width b = Math_floor (PercentComplete t * 100)%float /\
             exists w, width b = FlInt w /\ 0 <= w <= 99 /\
                       visibleFill (track_bar doc) (width b) = w) /\
          ((PercentComplete t <? 0)%float = true ->
             complete b = false /\
             width b = Math_floor (PercentComplete t * 100)%float /\
             visibleFill (track_bar doc) (width b) = 0))) /\
  (forall m M, datesParse tasks -> leastStart tasks m -> greatestEnd tasks M ->
     m - 3 <= M + 3 -> is_Ok (fst (buildHTML ver now a h))).
Proof.
  intros Ha Hi. rewrite (buildHTML_run ver now h a tasks Ha). cbn [fst]. split.
  - intros doc Hdoc.
    destruct (row_of_task ver now tasks doc t Hdoc Hi)
      as (range & Hrange & Hrow & Hstyle & Hbar).
    exists range, (cellsOf range now t).
    split; [exact Hrange |]. split; [exact Hrow |]. rewrite Hstyle.
    split; [reflexivity |]. split; [reflexivity |]. split.
    + intros s e Hs He Hin. eexists. exact (Hbar s e Hs He Hin).
    + intros b Hb. apply cellsOf_bars in Hb. subst b.
      apply (barOf_variant _ (warnClass (Warning t)) (PercentComplete t)).
  - intros m M Hp Hm HM Hle.
    destruct (buildDocument_returns ver now tasks m M Hp Hm HM Hle) as [_ [doc ->]].
    exact I.
Qed.

(** C10: for every task of a list whose PercentComplete, read as a
    number, is NaN (the field is absent or not numeric) or zero: the document
    [buildHTML] returns holds a row for it that has a bar whenever a grid day
    is within the interval of the task, and every bar of the row has
    completion fraction 0: the in-progress variant, a
    width of 0 percent and the label 0.0 percent.  The document is returned
    whenever the dates of the list are calendar dates and the bounds of the
    grid are in order. *)
Theorem unreported_completion_is_zero (ver : version) (now : Z) (h : heap) (a : ref)
    (tasks : list task) (t : task) :
  h !! a = Some tasks -> In t tasks ->
  PrimFloat.is_nan (PercentComplete t) = true \/ PrimFloat.is_zero (PercentComplete t) = true ->
  (forall doc, fst (buildHTML ver now a h) = Ok doc ->
     exists range cells,
       getTimelineRange ver now (sortTasks tasks) = Ok range /\
       In (task_row (Component_Group t) (warnClass (Warning t))
             (warnText (Warning t)) cells)
         (taskRows doc) /\
       (forall s e, parsed (Start_Date t) = Some s -> parsed (End_Date t) = Some e ->
          (exists d, In d range /\ dayWithin s e d) ->
          exists b, barsOf cells = [fill_cell b]) /\
       (forall b, In (fill_cell b) cells ->
          complete b = false /\ width b = FlInt 0 /\ label b = Some "0.0%")) /\
  (forall m M, datesParse tasks -> leastStart tasks m -> greatestEnd tasks M ->
     m - 3 <= M + 3 -> is_Ok (fst (buildHTML ver now a h))).
Proof.
  intros Ha Hi Hfalsy. rewrite (buildHTML_run ver now h a tasks Ha). cbn [fst]. split.
  - intros doc Hdoc.
    destruct (row_of_task ver now tasks doc t Hdoc Hi)
      as (range & Hrange & Hrow & _ & Hbar).
    exists range, (cellsOf range now t).
    split; [exact Hrange |]. split; [exact Hrow |]. split.
    + intros s e Hs He Hin. eexists. exact (Hbar s e Hs He Hin).
    + intros b Hb. apply cellsOf_bars in Hb.
      assert (Hpct : pctOf t = 0%float).
      { unfold pctOf, or_zero, truthy.
        destruct Hfalsy as [-> | ->]; [reflexivity | now rewrite orb_true_r]. }
      rewrite Hpct in Hb. subst b. repeat split.
  - intros m M Hp Hm HM Hle.
    destruct (buildDocument_returns ver now tasks m M Hp Hm HM Hle) as [_ [doc ->]].
    exact I.
Qed.

(** ** The grid of dates with a time of day *)

Lemma rev_daysOf_lookup (lo hi : Z) (k : nat) (x : Z) :
  rev (daysOf lo hi) !! k = Some x -> x = hi - Z.of_nat k.
Proof.
  intros H.
  assert (Hlen : length (daysOf lo hi) = Z.to_nat (hi - lo + 1))
    by (unfold daysOf; now rewrite length_map, length_seq).
  assert (Hk : (k < length (daysOf lo hi))%nat)
    by (apply lookup_lt_Some in H; now rewrite length_rev in H).
  rewrite rev_alt in H. change (rev_append (daysOf lo hi) []) with (reverse (daysOf lo hi)) in H.
  rewrite reverse_lookup in H by exact Hk.
  apply daysOf_lookup in H. lia.
Qed.

Lemma even_of_nat (k : nat) : Nat.even k = Z.even (Z.of_nat k).
Proof.
  apply eq_true_iff_eq. rewrite Nat.even_spec, Z.even_spec. split.
  - intros [m ->]. exists (Z.of_nat m). lia.
  - intros [m Hm]. exists (Z.to_nat m). lia.
Qed.

(** The sampling filter on the days listed downwards keeps the days at an
    even distance from the top, and today. *)
Lemma sampled_rev_daysOf (lo hi now : Z) :
  sampled now (rev (daysOf lo hi))
  = List.filter (fun d => Z.even (hi - d) || (d =? now)) (rev (daysOf lo hi)).
Proof.
  unfold sampled, Array_filter.
  apply filterFrom_filter. intros k x Hk.
  apply rev_daysOf_lookup in Hk as ->. cbn [Nat.add].
  rewrite even_of_nat. do 2 f_equal. lia.
Qed.

(** The grid of a list whose dates [parseISO] reads, with or without a
    time of day, [s] being the earliest start and [e] the latest end.  When
    the start less three days is not after the end plus three days, the grid
    holds the days from the day of the start less three to the day of the end
    plus three whose offset from the first is even, and today.  Otherwise
    version 2 of the date library raises, and the later versions list the
    same days downwards, keeping those at an even distance from the top, and
    today. *)
Theorem grid_of_date_times (ver : version) (now : Z) (tasks : list task) (s e : Z) :
  datesRead tasks -> earliestStart tasks s -> latestEnd tasks e ->
  (s - 3 * msPerDay <= e + 3 * msPerDay ->
   getTimelineRange ver now tasks = Ok (gridOf (dayOf s - 3) (dayOf e + 3) now)) /\
  (e + 3 * msPerDay < s - 3 * msPerDay ->
   getTimelineRange V2 now tasks = Throw (RangeError "Invalid interval") /\
   getTimelineRange V3plus now tasks
   = Ok (List.filter (fun d => Z.even (dayOf s - 3 - d) || (d =? now))
           (rev (daysOf (dayOf e + 3) (dayOf s - 3))))).
Proof.
  intros Hp Hs He. split.
  - intros Hle. apply getTimelineRange_instants; first [assumption | lia].
  - intros Hlt.
    rewrite !getTimelineRange_parsed by (right; now apply datesRead_datesAreTexts).
    rewrite (lowerBound_earliestStart tasks s Hp Hs), (upperBound_latestEnd tasks e Hp He).
    unfold eachDayOfInterval.
    destruct (Z.leb_spec (s + -3 * msPerDay) (e + 3 * msPerDay)) as [Hle | _]; [lia |].
    destruct (Z.ltb_spec (e + 3 * msPerDay) (s + -3 * msPerDay)) as [_ | Hge]; [| lia].
    split; [reflexivity |]. cbn [rbind].
    rewrite daysLoop_daysOf, !dayOf_addDays.
    replace (dayOf s + -3) with (dayOf s - 3) by lia.
    f_equal. apply sampled_rev_daysOf.
Qed.

(** ** Facilities and aircraft called by an inherited name *)



(** ** The order of the effects of the handler *)

Section RenderOrder.
Import Handler.
Variable JSON_parse : string -> option json.
Variable decodeTask : json -> task.
Variable ver : version.
Variable now : Z.
Variable rejects : effect -> option exn.
Variable screenshotText : string.

(** The elements are read into tasks unless one of them is [null]. *)
Lemma readTasks_cases (items : list json) :
  match readTasks decodeTask items with
  | Ok tasks => ~ In JNull items /\ tasks = map decodeTask items
  | Throw e => In JNull items /\ e = TypeError "Cannot read properties of null"
  end.
Proof.
  induction items as [|j items IH]; [split; [intros [] | reflexivity] |].
  assert (Hstep : j <> JNull ->
            readTasks decodeTask (j :: items)
            = rbind (readTasks decodeTask items) (fun ts => Ok (decodeTask j :: ts)))
    by (intros Hj; destruct j; [congruence | reflexivity ..]).
  destruct j; try (rewrite Hstep by discriminate;
    destruct (readTasks decodeTask items) as [ts | e]; cbn [rbind];
    [destruct IH as [Hno ->]; split;
       [intros [H | H]; [discriminate H | exact (Hno H)] | reflexivity]
    | destruct IH as [Hin ->]; split; [now right | reflexivity]]).
  cbn. split; [now left | reflexivity].
Qed.

Lemma parseTasks_inr_status (ev : Handler.event) (resp : response) :
  parseTasks JSON_parse ev = inr resp -> statusCode resp = 400.
Proof.
  unfold parseTasks. intros H.
  destruct (JSON_parse (bodyOrDefault ev)) as [v|]; [| injection H as <-; reflexivity].
  destruct (tasksProperty v) as [f|]; [| injection H as <-; reflexivity].
  destruct (isArray f); [discriminate | injection H as <-; reflexivity].
Qed.


(** The body is looked at only after the lookup of the Chromium path: when
    the lookup fails, the handler fails with its error whatever the body, a
    malformed one included, and does nothing else. *)
Theorem render_path_lookup_first (ev : Handler.event) (w : world) (e : exn) :
  rejects ExecutablePath = Some e ->
  render JSON_parse decodeTask ver now rejects screenshotText ev w
  = (Throw e, {| browser := browser w; trace := (trace w ++ [ExecutablePath])%list |}).
Proof.
  intros H. unfold render, await, hbind, record, hlift, hret. cbn. rewrite H. reflexivity.
Qed.

(** The handler answers with status 200 exactly when the body holds an
    array of tasks none of which is [null], the builder returns a document
    for it and every awaited call resolves.  The body of the response is then
    the text the screenshot was turned into, flagged as base64 and typed as a
    PNG image; the browser is closed and every effect was performed once, in
    order. *)
Theorem render_success_iff (ev : Handler.event) (w : world) :
  ((exists resp,
      fst (render JSON_parse decodeTask ver now rejects screenshotText ev w) = Ok resp /\
      statusCode resp = 200)
   <->
   (exists items,
      parseTasks JSON_parse ev = inl items /\ ~ In JNull items /\
      is_Ok (buildDocument ver now (map decodeTask items))) /\
   (forall eff, awaited eff = true -> rejects eff = None)) /\
  (forall resp,
     fst (render JSON_parse decodeTask ver now rejects screenshotText ev w) = Ok resp ->
     statusCode resp = 200 ->
     render JSON_parse decodeTask ver now rejects screenshotText ev w
     = (Ok (imageResponse screenshotText),
        {| browser := Closed; trace := (trace w ++ fullTrace)%list |})).
Proof.
  unfold render, await, hbind, record, setBrowser, hlift, hret, fullTrace, imageResponse. cbn.
  destruct (rejects ExecutablePath) eqn:H1; cbn.
  { split; [split |].
    - intros (resp & [=] & _).
    - intros [_ H]. specialize (H ExecutablePath eq_refl). congruence.
    - intros resp [=]. }
  destruct (parseTasks JSON_parse ev) as [items | resp0] eqn:Hparse; cbn.
  2:{ pose proof (parseTasks_inr_status ev resp0 Hparse) as H400.
      split; [split |].
      - intros (resp & [= <-] & H200). rewrite H400 in H200. discriminate.
      - intros [(items & [=] & _) _].
      - intros resp [= <-] H200. rewrite H400 in H200. discriminate. }
  destruct (rejects Launch) eqn:H2; cbn.
  { split; [split |].
    - intros (resp & [=] & _).
    - intros [_ H]. specialize (H Launch eq_refl). congruence.
    - intros resp [=]. }
  destruct (rejects NewPage) eqn:H3; cbn.
  { split; [split |].
    - intros (resp & [=] & _).
    - intros [_ H]. specialize (H NewPage eq_refl). congruence.
    - intros resp [=]. }
  pose proof (readTasks_cases items) as Hread.
  destruct (rbind (readTasks decodeTask items) (buildDocument ver now))
    as [doc | err] eqn:Hdoc; cbn.
  2:{ split; [split |].
      - intros (resp & [=] & _).
      - intros [(items' & [= <-] & Hno & Hok) _].
        destruct (readTasks decodeTask items) as [ts | e]; [| now destruct Hread].
        destruct Hread as [_ ->]. cbn [rbind] in Hdoc. rewrite Hdoc in Hok. destruct Hok.
      - intros resp [=]. }
  destruct (rejects SetContent) eqn:H4; cbn.
  { split; [split |].
    - intros (resp & [=] & _).
    - intros [_ H]. specialize (H SetContent eq_refl). congruence.
    - intros resp [=]. }
  destruct (rejects Screenshot) eqn:H5; cbn.
  { split; [split |].
    - intros (resp & [=] & _).
    - intros [_ H]. specialize (H Screenshot eq_refl). congruence.
    - intros resp [=]. }
  destruct (rejects Close) eqn:H6; cbn.
  { split; [split |].
    - intros (resp & [=] & _).
    - intros [_ H]. specialize (H Close eq_refl). congruence.
    - intros resp [=]. }
  split; [split |].
  - intros _. split.
    + exists items. split; [reflexivity |].
      destruct (readTasks decodeTask items) as [ts | e]; [| discriminate Hdoc].
      destruct Hread as [Hno ->]. split; [exact Hno |].
      cbn [rbind] in Hdoc. rewrite Hdoc. exact I.
    + intros [] Haw; try assumption. discriminate Haw.
  - intros _. eexists. split; reflexivity.
  - intros resp _ _. rewrite <- !app_assoc. reflexivity.
Qed.

End RenderOrder.

(** ** Elements the handler does not check *)

Section Unvalidated.
Import Handler.
Variable JSON_parse : string -> option json.
Variable decodeTask : json -> task.
Variable ver : version.
Variable now : Z.
Variable rejects : effect -> option exn.
Variable screenshotText : string.

(** The handler checks that [tasks] is an array and nothing of its
    elements: a request in which an element is [null], or in which a start or
    an end is not read by [parseISO] as a date, is answered with no 400.  The
    browser is launched, the builder raises, the handler fails with the error
    and the browser is left running.  The error is a [TypeError] for a [null]
    element and, from version 3 of the date library on, for a date field that
    is no string; it is a [RangeError] otherwise. *)
Theorem render_unparsed_dates (ev : Handler.event) (items : list json) :
  rejects ExecutablePath = None -> rejects Launch = None -> rejects NewPage = None ->
  parseTasks JSON_parse ev = inl items ->
  In JNull items \/ ~ datesRead (map decodeTask items) ->
  exists e,
    render JSON_parse decodeTask ver now rejects screenshotText ev idle
    = (Throw e,
       {| browser := Running; trace := [ExecutablePath; Launch; NewPage; CallBuildHTML] |}) /\
    (In JNull items \/ (ver = V3plus /\ ~ datesAreTexts (map decodeTask items)) ->
     exists msg, e = TypeError msg) /\
    (~ In JNull items -> ver = V2 \/ datesAreTexts (map decodeTask items) ->
     exists msg, e = RangeError msg).
Proof.
  intros H1 H2 H3 Hparse Hbad.
  assert (Hrun : forall e,
            rbind (readTasks decodeTask items) (buildDocument ver now) = Throw e ->
            render JSON_parse decodeTask ver now rejects screenshotText ev idle
            = (Throw e,
               {| browser := Running;
                  trace := [ExecutablePath; Launch; NewPage; CallBuildHTML] |})).
  { intros e He. unfold render, await, hbind, record, setBrowser, hlift, hret, idle. cbn.
    rewrite H1, Hparse. cbn. rewrite H2. cbn. rewrite H3. cbn. rewrite He. reflexivity. }
  pose proof (readTasks_cases decodeTask items) as Hread.
  destruct (readTasks decodeTask items) as [ts | e0] eqn:Hts.
  - destruct Hread as [Hno ->].
    destruct Hbad as [Hnull | Hdates]; [contradiction |].
    destruct (buildDocument ver now (map decodeTask items)) as [doc | e] eqn:Hdoc.
    { exfalso. apply Hdates. exact (proj1 (buildDocument_Ok_read _ _ _ _ Hdoc)). }
    exists e. split; [apply Hrun; exact Hdoc |].
    destruct (buildDocument_raises _ _ _ _ Hdoc) as [Hmsg | (Hv & Hnotext & Hmsg)].
    + split; [| intros _ _; exact Hmsg].
      intros [Hnull | [-> Hnotext]]; [contradiction |].
      destruct (buildDocument_no_text now _ Hnotext) as [msg Hthrow].
      rewrite Hthrow in Hdoc. injection Hdoc as <-. eauto.
    + split; [intros _; exact Hmsg |].
      intros _ [-> | Htext]; [discriminate Hv | contradiction].
  - destruct Hread as [Hnull ->].
    exists (TypeError "Cannot read properties of null").
    split; [apply Hrun; reflexivity |].
    split; [eauto | intros Hno; contradiction].
Qed.

End Unvalidated.

(** ** The properties on the sample inputs *)

Lemma wheel_parse : datesParse [wheelTask].
Proof. now apply (datesParse_onDay wheelTask 20089 20098). Qed.

Lemma wheel_least : leastStart [wheelTask] 20089.
Proof. now apply leastStart_single. Qed.

Lemma wheel_greatest : greatestEnd [wheelTask] 20098.
Proof. now apply greatestEnd_single. Qed.

Lemma wheel_named : groupsNamed [wheelTask].
Proof. repeat constructor; discriminate. Qed.

Lemma wheel_document : exists doc, buildDocument V2 20095 [wheelTask] = Ok doc.
Proof.
  apply (buildDocument_returns V2 20095 [wheelTask] 20089 20098
           wheel_parse wheel_least wheel_greatest). lia.
Qed.

Lemma wheel_grid (t : task) :
  Start_Date t = onDay 20089 -> End_Date t = onDay 20098 ->
  getTimelineRange V2 20095 (sortTasks [t]) = Ok wheelGrid.
Proof.
  intros Hs He. change (sortTasks [t]) with [t].
  apply (getTimelineRange_gridOf V2 20095 [t] 20089 20098).
  - now apply (datesParse_onDay t 20089 20098).
  - now apply leastStart_single.
  - now apply greatestEnd_single.
  - lia.
Qed.

Lemma wheel_day_within :
  exists d, In d wheelGrid /\ dayWithin (midnight 20089) (midnight 20098) d.
Proof.
  exists 20090. split.
  - apply In_gridOf. split; [lia | left; reflexivity].
  - unfold dayWithin, midnight, msPerDay. lia.
Qed.

Lemma single_bar (cells : list cell) (b : bar) :
  barsOf cells = [fill_cell b] -> In (fill_cell b) cells.
Proof.
  intros H. assert (Hin : In (fill_cell b) (barsOf cells)) by (rewrite H; now left).
  now apply filter_In in Hin.
Qed.

Lemma wheel_bar_in_row :
  In (fill_cell (barOf 6 no_class (pctOf wheelTask))) (cellsOf wheelGrid 20095 wheelTask).
Proof. rewrite wheelTask_cells. right. right. left. reflexivity. Qed.

Lemma overdone_bar_in_row :
  In (fill_cell (barOf 6 warning_critical 2.5%float)) (cellsOf wheelGrid 20095 overdoneTask).
Proof. rewrite overdoneTask_cells. right. right. left. reflexivity. Qed.

Lemma twoFacilities_parse : datesParse twoFacilities.
Proof. repeat constructor; eexists; reflexivity. Qed.

Lemma twoFacilities_least : leastStart twoFacilities 0.
Proof.
  split; [exists taskA1; split; [now left | reflexivity] |].
  intros t s [<- | [<- | [<- | []]]] H%calendarDate_onDay; lia.
Qed.

Lemma twoFacilities_greatest : greatestEnd twoFacilities 5.
Proof.
  split; [exists taskB1; split; [right; now left | reflexivity] |].
  intros t s [<- | [<- | [<- | []]]] H%calendarDate_onDay; lia.
Qed.

Lemma twoFacilities_document : exists doc, buildDocument V2 0 twoFacilities = Ok doc.
Proof.
  apply (buildDocument_returns V2 0 twoFacilities 0 5 twoFacilities_parse
           twoFacilities_least twoFacilities_greatest). lia.
Qed.

Lemma twoFacilities_keys :
  map (triageKey twoFacilities) twoFacilities
  = [(midnight 3, midnight 3, midnight 3); (midnight 3, midnight 1, midnight 5);
     (midnight 1, midnight 1, midnight 1)].
Proof. vm_compute. reflexivity. Qed.

Lemma twoFacilities_keys_differ :
  List.NoDup (map (triageKey twoFacilities) twoFacilities).
Proof.
  rewrite twoFacilities_keys.
  repeat constructor; cbn; intros H; repeat destruct H as [H | H]; try discriminate H;
    exact H.
Qed.

Lemma twoFacilities_distinct (a b : task) :
  In a twoFacilities -> In b twoFacilities ->
  MRO a <> MRO b -> facilityKey twoFacilities a <> facilityKey twoFacilities b.
Proof.
  intros [<- | [<- | [<- | []]]] [<- | [<- | [<- | []]]] Hne;
    first [exfalso; apply Hne; reflexivity | vm_compute; discriminate].
Qed.

Lemma tiedFacilities_document : exists doc, buildDocument V2 0 tiedFacilities = Ok doc.
Proof.
  apply (buildDocument_returns V2 0 tiedFacilities 0 9); [| | | lia].
  - repeat constructor; eexists; reflexivity.
  - split; [exists tiedA1; split; [now left | reflexivity] |].
    intros t s [<- | [<- | [<- | [<- | []]]]] H%calendarDate_onDay; lia.
  - split; [exists tiedA3; split; [right; now left | reflexivity] |].
    intros t s [<- | [<- | [<- | [<- | []]]]] H%calendarDate_onDay; lia.
Qed.

Lemma tiedFacilities_order :
  sortTasks tiedFacilities = ([] ++ tiedA1 :: [tiedA4] ++ tiedA2 :: [] ++ tiedA3 :: [])%list.
Proof. vm_compute. reflexivity. Qed.

Lemma tiedFacilities_ends : endsParse tiedFacilities.
Proof. repeat constructor; eexists; reflexivity. Qed.

Lemma tiedFacilities_names : ownNames tiedFacilities.
Proof. repeat constructor. Qed.

Lemma bar_colspan_closed_form_witness :
  exists doc cells,
    buildDocument V2 20095 [wheelTask] = Ok doc /\
    Z.of_nat (colgroup doc) = 9 /\
    In (task_row "Wheel" no_class "N/A" cells) (taskRows doc) /\
    exists b, barsOf cells = [fill_cell b] /\ Z.of_nat (colspan b) = 6.
Proof.
  destruct (bar_colspan_closed_form V2 20095 [wheelTask] wheelTask 20089 20098
              20089 20098 wheel_parse wheel_least wheel_greatest (or_introl eq_refl)
              eq_refl eq_refl ltac:(lia))
    as (doc & cells & Hdoc & Hcols & Hrow & _ & Hbar & _).
  exists doc, cells. split; [exact Hdoc |]. split; [exact Hcols |]. split; [exact Hrow |].
  apply Hbar. discriminate.
Defined.

Lemma bar_presence_witness :
  exists doc cells,
    buildDocument V2 20095 [wheelTask] = Ok doc /\
    In (task_row "Wheel" no_class "N/A" cells) (taskRows doc) /\
    length (barsOf cells) = 1%nat.
Proof.
  destruct (bar_presence V2 20095 [wheelTask] wheelTask 20089 20098 20089 20098
              wheel_parse wheel_least wheel_greatest (or_introl eq_refl) eq_refl eq_refl
              ltac:(lia))
    as (doc & cells & Hdoc & Hrow & Hlong & _).
  exists doc, cells. split; [exact Hdoc |]. split; [exact Hrow |].
  apply Hlong. lia.
Defined.

Lemma generateMonthHeader_runs_witness :
  generateMonthHeader wheelGrid = Ok [(2%nat, (2024, 12)); (7%nat, (2025, 1))] /\
  bandLabels [(2%nat, (2024, 12)); (7%nat, (2025, 1))] = map format_MMMM_yyyy wheelGrid.
Proof.
  assert (H : generateMonthHeader wheelGrid = Ok [(2%nat, (2024, 12)); (7%nat, (2025, 1))])
    by (vm_compute; reflexivity).
  split; [exact H |].
  exact (proj1 (generateMonthHeader_runs wheelGrid _ H)).
Defined.

Lemma buildDocument_rectangular_witness :
  exists doc,
    buildDocument V2 20095 [wheelTask] = Ok doc /\
    list_sum (map fst (month_header doc)) = colgroup doc /\
    length (day_headers doc) = colgroup doc.
Proof.
  destruct wheel_document as [doc Hdoc]. exists doc. split; [exact Hdoc |].
  destruct (buildDocument_rectangular V2 20095 [wheelTask] doc Hdoc) as (H1 & H2 & _).
  split; [exact H1 | exact H2].
Defined.

Lemma today_marked_once_witness :
  exists doc,
    buildDocument V2 20095 [wheelTask] = Ok doc /\
    length (List.filter today_header (day_headers doc)) = 1%nat.
Proof.
  exact (today_marked_once V2 20095 [wheelTask] 20089 20098
           wheel_parse wheel_least wheel_greatest ltac:(lia)).
Defined.

Lemma today_hidden_under_bar_witness :
  exists doc cells,
    buildDocument V2 20095 [wheelTask] = Ok doc /\
    In (task_row "Wheel" no_class "N/A" cells) (taskRows doc) /\
    length (List.filter isTodayCell cells) = 0%nat.
Proof.
  exact (today_hidden_under_bar V2 20095 [wheelTask] wheelTask 20089 20098
           20089 20098 wheel_parse wheel_least wheel_greatest ltac:(lia)
           (or_introl eq_refl) eq_refl eq_refl).
Defined.

Lemma rows_under_own_headings_witness :
  exists doc,
    buildDocument V2 20095 [wheelTask] = Ok doc /\
    headings (body doc) = [(Some "FacilityA", Some "N100")].
Proof.
  destruct wheel_document as [doc Hdoc]. exists doc. split; [exact Hdoc |].
  exact (rows_under_own_headings V2 20095 [wheelTask] doc wheel_named Hdoc).
Defined.

Lemma body_well_grouped_witness :
  exists doc,
    buildDocument V2 20095 [wheelTask] = Ok doc /\ wellGrouped (body doc) = true.
Proof.
  destruct wheel_document as [doc Hdoc]. exists doc. split; [exact Hdoc |].
  exact (proj1 (body_well_grouped V2 20095 [wheelTask] doc wheel_named Hdoc)).
Defined.

Lemma one_header_per_facility_witness :
  exists doc,
    buildDocument V2 0 twoFacilities = Ok doc /\ List.NoDup (facilityHeaders (body doc)).
Proof.
  destruct twoFacilities_document as [doc Hdoc]. exists doc. split; [exact Hdoc |].
  exact (proj1 (one_header_per_facility V2 0 twoFacilities doc twoFacilities_ends
                  twoFacilities_names twoFacilities_distinct Hdoc)).
Defined.

Lemma facility_in_two_groups_witness :
  exists doc,
    buildDocument V2 0 tiedFacilities = Ok doc /\
    ~ List.NoDup (facilityHeaders (body doc)) /\
    facilityKey tiedFacilities tiedA1 = facilityKey tiedFacilities tiedA2.
Proof.
  destruct tiedFacilities_document as [doc Hdoc]. exists doc. split; [exact Hdoc |].
  destruct (facility_in_two_groups V2 0 tiedFacilities doc [] [tiedA4] [] [] tiedA1 tiedA2
              tiedA3 tiedFacilities_order eq_refl ltac:(discriminate) ltac:(discriminate)
              Hdoc) as [Htwice Htied].
  split; [exact Htwice |].
  exact (Htied tiedFacilities_ends tiedFacilities_names).
Defined.

Lemma sortTasks_idempotent_witness :
  sortTasks (sortTasks twoFacilities) = sortTasks twoFacilities.
Proof.
  exact (proj1 (sortTasks_idempotent V2 twoFacilities twoFacilities_ends
                  twoFacilities_names)).
Defined.

Lemma order_independent_of_request_witness :
  sortTasks [taskB2; taskB1; taskA1] = sortTasks twoFacilities.
Proof.
  exact (proj1 (order_independent_of_request V2 twoFacilities [taskB2; taskB1; taskA1]
                  twoFacilities_ends twoFacilities_names twoFacilities_keys_differ
                  (Permutation_rev twoFacilities))).
Defined.

Lemma complete_bar_shows_full_witness :
  complete (barOf 6 warning_critical 2.5%float) = true.
Proof.
  exact (proj1 (complete_bar_shows_full wheelGrid 20095 overdoneTask _
                  overdone_bar_in_row eq_refl)).
Defined.

Lemma label_within_one_percent_witness :
  exists n, label (barOf 6 no_class (pctOf wheelTask)) = Some (fixed1 n +:+ "%") /\
            10 * 50 <= n <= 10 * 50 + 10.
Proof.
  apply (label_within_one_percent wheelGrid 20095 wheelTask _ 50 wheel_bar_in_row);
    [reflexivity | lia | lia].
Defined.

Lemma notes_tell_severity_witness :
  exists doc,
    buildDocument V2 20095 [wheelTask] = Ok doc /\
    forall component wc wt cells,
      In (task_row component wc wt cells) (body doc) -> (wc = no_class <-> wt = "N/A").
Proof.
  destruct wheel_document as [doc Hdoc]. exists doc. split; [exact Hdoc |].
  intros component wc wt cells Hin.
  exact (proj1 (notes_tell_severity V2 20095 [wheelTask] doc component wc wt cells Hdoc Hin)).
Defined.

Lemma render_path_lookup_first_witness :
  Handler.render Handler.parseLiteral decodeBlank V2 0 pathLookupRejects ""
    (Handler.Event (Some "not json")) Handler.idle
  = (Throw (OtherError "Chromium not found"),
     {| Handler.browser := Handler.NotLaunched; Handler.trace := [Handler.ExecutablePath] |}).
Proof.
  exact (render_path_lookup_first Handler.parseLiteral decodeBlank V2 0 pathLookupRejects ""
           (Handler.Event (Some "not json")) Handler.idle _ eq_refl).
Defined.

Lemma undated_not_read : ~ datesRead (map (fun _ : Handler.json => undatedTask)
                                         [Handler.JObject []]).
Proof. intros H. apply Forall_inv in H. destruct H as [[x Hx] _]. discriminate Hx. Qed.

Lemma blank_not_read : ~ datesRead (map decodeBlank [Handler.JObject []]).
Proof. intros H. apply Forall_inv in H. destruct H as [[x Hx] _]. discriminate Hx. Qed.

Lemma blank_no_text : ~ datesAreTexts (map decodeBlank [Handler.JObject []]).
Proof. intros H. apply Forall_inv in H. destruct H as [Hx _]. discriminate Hx. Qed.

(** One task whose dates are texts that do not parse, under version 2; one
    task without dates, under version 3. *)
Lemma render_unparsed_dates_witness :
  (exists msg,
     Handler.render
       (fun _ => Some (Handler.JObject [("tasks", Handler.JArray [Handler.JObject []])]))
       (fun _ => undatedTask) V2 0 allResolve "" (Handler.Event (Some "one task"))
       Handler.idle
     = (Throw (RangeError msg),
        {| Handler.browser := Handler.Running;
           Handler.trace := [Handler.ExecutablePath; Handler.Launch; Handler.NewPage;
                             Handler.CallBuildHTML] |})) /\
  (exists msg,
     Handler.render
       (fun _ => Some (Handler.JObject [("tasks", Handler.JArray [Handler.JObject []])]))
       decodeBlank V3plus 0 allResolve "" (Handler.Event (Some "one task")) Handler.idle
     = (Throw (TypeError msg),
        {| Handler.browser := Handler.Running;
           Handler.trace := [Handler.ExecutablePath; Handler.Launch; Handler.NewPage;
                             Handler.CallBuildHTML] |})).
Proof.
  split.
  - destruct (render_unparsed_dates
                (fun _ => Some (Handler.JObject [("tasks", Handler.JArray [Handler.JObject []])]))
                (fun _ => undatedTask) V2 0 allResolve "" (Handler.Event (Some "one task"))
                [Handler.JObject []] eq_refl eq_refl eq_refl eq_refl
                (or_intror undated_not_read)) as (e & Hrun & _ & Hrange).
    destruct Hrange as [msg ->]; [intros [H | []]; discriminate H | now left |].
    exists msg. exact Hrun.
  - destruct (render_unparsed_dates
                (fun _ => Some (Handler.JObject [("tasks", Handler.JArray [Handler.JObject []])]))
                decodeBlank V3plus 0 allResolve "" (Handler.Event (Some "one task"))
                [Handler.JObject []] eq_refl eq_refl eq_refl eq_refl
                (or_intror blank_not_read)) as (e & Hrun & Htype & _).
    destruct Htype as [msg ->]; [right; split; [reflexivity | exact blank_no_text] |].
    exists msg. exact Hrun.
Defined.

Lemma twoFacilities_named : groupsNamed twoFacilities.
Proof. repeat constructor; discriminate. Qed.

Lemma twoFacilities_aircraft_distinct (a b : task) :
  In a twoFacilities -> In b twoFacilities -> MRO a = MRO b ->
  Aircraft a <> Aircraft b -> aircraftKey twoFacilities a <> aircraftKey twoFacilities b.
Proof.
  intros [<- | [<- | [<- | []]]] [<- | [<- | [<- | []]]] Hm Hne;
    first [exfalso; apply Hne; reflexivity | discriminate Hm | vm_compute; discriminate].
Qed.

Lemma one_header_per_aircraft_witness :
  exists doc,
    buildDocument V2 0 twoFacilities = Ok doc /\ List.NoDup (aircraftHeaders (body doc)).
Proof.
  destruct twoFacilities_document as [doc Hdoc]. exists doc. split; [exact Hdoc |].
  exact (proj1 (one_header_per_aircraft V2 0 twoFacilities doc twoFacilities_ends
                  twoFacilities_names twoFacilities_named
                  twoFacilities_distinct twoFacilities_aircraft_distinct Hdoc)).
Defined.

Lemma completion_bar_variant_witness :
  is_Ok (fst (buildHTML V2 20095 1%positive (heapOf [wheelTask]))) /\
  forall doc, fst (buildHTML V2 20095 1%positive (heapOf [wheelTask])) = Ok doc ->
    exists cells b,
      In (task_row "Wheel" no_class "N/A" cells) (taskRows doc) /\
      barsOf cells = [fill_cell b] /\
      complete b = false /\ width b = FlInt 50 /\
      visibleFill (track_bar doc) (width b) = 50.
Proof.
  destruct (completion_bar_variant V2 20095 (heapOf [wheelTask]) 1%positive [wheelTask]
              wheelTask eq_refl (or_introl eq_refl)) as [Hrow Hreturns].
  split; [apply (Hreturns 20089 20098 wheel_parse wheel_least wheel_greatest); lia |].
  intros doc Hdoc.
  destruct (Hrow doc Hdoc) as (range & cells & Hrange & Hcells & _ & _ & Hbar & Hall).
  rewrite (wheel_grid wheelTask eq_refl eq_refl) in Hrange. injection Hrange as <-.
  destruct (Hbar (midnight 20089) (midnight 20098) eq_refl eq_refl wheel_day_within)
    as [b Hb].
  exists cells, b. split; [exact Hcells |]. split; [exact Hb |].
  destruct (Hall b (single_bar cells b Hb)) as (_ & Hprogress & _).
  destruct (Hprogress eq_refl eq_refl) as (Hc & Hw & w & Hw' & _ & Hshown).
  split; [exact Hc |]. split; [exact Hw |].
  rewrite Hshown. rewrite Hw in Hw'. injection Hw' as <-. reflexivity.
Defined.

Lemma unreported_completion_is_zero_witness :
  is_Ok (fst (buildHTML V2 20095 1%positive (heapOf [unreportedTask]))) /\
  forall doc, fst (buildHTML V2 20095 1%positive (heapOf [unreportedTask])) = Ok doc ->
    exists cells b,
      In (task_row "Wheel" warning_caution "WorkStoppage" cells) (taskRows doc) /\
      barsOf cells = [fill_cell b] /\
      complete b = false /\ width b = FlInt 0 /\ label b = Some "0.0%".
Proof.
  destruct (unreported_completion_is_zero V2 20095 (heapOf [unreportedTask]) 1%positive
              [unreportedTask] unreportedTask eq_refl (or_introl eq_refl)
              (or_introl eq_refl))
    as [Hrow Hreturns].
  split.
  { apply (Hreturns 20089 20098).
    - now apply (datesParse_onDay unreportedTask 20089 20098).
    - now apply leastStart_single.
    - now apply greatestEnd_single.
    - lia. }
  intros doc Hdoc.
  destruct (Hrow doc Hdoc) as (range & cells & Hrange & Hcells & Hbar & Hall).
  rewrite (wheel_grid unreportedTask eq_refl eq_refl) in Hrange. injection Hrange as <-.
  destruct (Hbar (midnight 20089) (midnight 20098) eq_refl eq_refl wheel_day_within)
    as [b Hb].
  exists cells, b. split; [exact Hcells |]. split; [exact Hb |].
  exact (Hall b (single_bar cells b Hb)).
Defined.

(** The width the markup states is not capped: the task reported two and a
    half times done gets a bar of the complete variant whose stated width is
    250 percent, of which the track of the document shows 100. *)
Lemma overdone_width_in_markup :
  forall doc, fst (buildHTML V2 20095 1%positive (heapOf [overdoneTask])) = Ok doc ->
    In (task_row "Wheel" warning_critical "Work Stoppage"
          (cellsOf wheelGrid 20095 overdoneTask))
      (taskRows doc) /\
    barsOf (cellsOf wheelGrid 20095 overdoneTask)
    = [fill_cell (barOf 6 warning_critical 2.5%float)] /\
    width (barOf 6 warning_critical 2.5%float) = FlInt 250 /\
    visibleFill (track_bar doc) (FlInt 250) = 100.
Proof.
  intros doc. rewrite (buildHTML_run V2 20095 (heapOf [overdoneTask]) 1%positive
                         [overdoneTask] eq_refl). cbn [fst]. intros Hdoc.
  destruct (row_of_task V2 20095 [overdoneTask] doc overdoneTask Hdoc (or_introl eq_refl))
    as (range & Hrange & Hrow & Hstyle & _).
  rewrite (wheel_grid overdoneTask eq_refl eq_refl) in Hrange. injection Hrange as <-.
  split; [exact Hrow |]. rewrite Hstyle, overdoneTask_cells.
  repeat split.
Qed.

Lemma noonTask_read : datesRead [noonTask].
Proof. repeat constructor; eexists; reflexivity. Qed.

Lemma noonTask_start : earliestStart [noonTask] (midnight 20089 + 43200000).
Proof.
  split; [exists noonTask; split; [now left | reflexivity] |].
  intros t s [<- | []] [= <-]. lia.
Qed.

Lemma noonTask_end : latestEnd [noonTask] (midnight 20098 + 21600000).
Proof.
  split; [exists noonTask; split; [now left | reflexivity] |].
  intros t s [<- | []] [= <-]. lia.
Qed.

Lemma grid_of_date_times_witness :
  getTimelineRange V2 20095 [noonTask] = Ok (gridOf 20086 20101 20095).
Proof.
  apply (proj1 (grid_of_date_times V2 20095 [noonTask] _ _
                  noonTask_read noonTask_start noonTask_end)).
  unfold midnight, msPerDay. lia.
Defined.

